(** * TelemetryRelay: a model of [assetto-corsa-apps/TelemetryRelay/app.py]

    The app is a plugin of the simulator: the host calls [acUpdate] on every
    frame; the handler throttles itself to one publish per [SEND_INTERVAL],
    reads the car state through the host's accessors, builds a flat record
    and sends it as one UDP datagram.

    The embedding keeps the data of the program as Python has it: numbers are
    Python [int]s (unbounded, [Z]) or [float]s (IEEE 754 binary64, computed
    with the reference operations of [SpecFloat]); a call that can raise
    returns a [result]; the two module globals are the fields of [state];
    what the host, [json] and the socket do during one tick is a [host]
    record. *)

From Stdlib Require Import ZArith QArith Qround List String Ascii Bool Lia Sorted.
From Stdlib Require Import Floats.SpecFloat.
From Stdlib Require Import Numbers.DecimalString.
Import ListNotations.

Local Open Scope string_scope.
Local Open Scope Z_scope.

(** ** Python floats: IEEE 754 binary64 *)

Module F64.

Definition prec : Z := 53.
Definition emax : Z := 1024.

Definition float := spec_float.

Definition add : float -> float -> float := SFadd prec emax.
Definition sub : float -> float -> float := SFsub prec emax.
Definition mul : float -> float -> float := SFmul prec emax.
Definition div : float -> float -> float := SFdiv prec emax.
Definition ltb : float -> float -> bool := SFltb.
Definition leb : float -> float -> bool := SFleb.
Definition valid : float -> bool := valid_binary prec emax.

Definition zero : float := S754_zero false.
Definition nan : float := S754_nan.

(** The double nearest to an integer (ties to even); an infinity when the
    integer is out of range. *)
Definition of_Z (z : Z) : float := binary_normalize prec emax z 0 false.

(** The decimal literal [n / 10^k] of the source text, for [|n| < 2^53] and
    [k <= 22]: both operands are exact doubles, so that the one rounding of
    the division gives the double nearest to the decimal. *)
Definition lit (n : Z) (k : nat) : float := div (of_Z n) (of_Z (10 ^ Z.of_nat k)).

Definition is_finite (x : float) : bool :=
  match x with
  | S754_zero _ | S754_finite _ _ _ => true
  | _ => false
  end.

Definition is_zero (x : float) : bool :=
  match x with
  | S754_zero _ => true
  | _ => false
  end.

Definition is_nan (x : float) : bool :=
  match x with
  | S754_nan => true
  | _ => false
  end.

Definition signbit (x : float) : bool :=
  match x with
  | S754_zero s | S754_infinity s | S754_finite s _ _ => s
  | S754_nan => false
  end.

(** C's [copysign(0.0, y)]. *)
Definition zero_with_sign_of (y : float) : float := S754_zero (signbit y).

(** Truncation toward zero of a finite double; [None] for NaN and the
    infinities. *)
Definition trunc (x : float) : option Z :=
  match x with
  | S754_zero _ => Some 0
  | S754_finite s m e =>
      let a := match e with
               | Zneg p => Zpos m / 2 ^ Zpos p
               | _ => Zpos m * 2 ^ e
               end in
      Some (cond_Zopp s a)
  | _ => None
  end.

(** C's [floor]: the largest integral double not above [x]. *)
Definition floor (x : float) : float :=
  match x with
  | S754_finite s m (Zneg p) =>
      let q := Zpos m / 2 ^ Zpos p in
      let r := Zpos m mod 2 ^ Zpos p in
      if s then binary_normalize prec emax (- (if r =? 0 then q else q + 1)) 0 true
      else binary_normalize prec emax q 0 false
  | _ => x
  end.

(** C's [fmod]: the exact remainder of [x / y] with the sign of [x]. *)
Definition fmod (x y : float) : float :=
  match x, y with
  | S754_nan, _ | _, S754_nan => S754_nan
  | S754_infinity _, _ => S754_nan
  | _, S754_zero _ => S754_nan
  | S754_zero _, _ => x
  | S754_finite _ _ _, S754_infinity _ => x
  | S754_finite sx mx ex, S754_finite _ my ey =>
      let e0 := Z.min ex ey in
      let r := Zpos mx * 2 ^ (ex - e0) mod (Zpos my * 2 ^ (ey - e0)) in
      binary_normalize prec emax (cond_Zopp sx r) e0 sx
  end.

End F64.

(** ** Python values, exceptions and text *)

(** An exception: its class and the text that [str(err)] gives.  Everything
    raised in the model is an instance of [Exception], which is what the
    handlers of the app catch. *)
Record exn := Exn { exn_class : string; exn_str : string }.

Inductive result (A : Type) : Type :=
| Ok (a : A)
| Raise (e : exn).
Arguments Ok {A} a.
Arguments Raise {A} e.

Definition bind {A B : Type} (r : result A) (k : A -> result B) : result B :=
  match r with
  | Ok a => k a
  | Raise e => Raise e
  end.

Declare Scope py_scope.
Delimit Scope py_scope with py.
Notation "x <- r ;; k" := (bind r (fun x => k))
  (at level 100, r at next level, right associativity) : py_scope.
Notation "r ;;; k" := (bind r (fun _ => k))
  (at level 100, right associativity) : py_scope.

(** [try: body  except Exception: handler]. *)
Definition try_except {A : Type} (body : result A) (handler : exn -> result A) : result A :=
  match body with
  | Ok a => Ok a
  | Raise e => handler e
  end.

Definition is_ok {A : Type} (r : result A) : bool :=
  match r with
  | Ok _ => true
  | Raise _ => false
  end.

Definition TypeError (msg : string) : exn := Exn "TypeError" msg.
Definition ValueError (msg : string) : exn := Exn "ValueError" msg.
Definition OverflowError (msg : string) : exn := Exn "OverflowError" msg.
Definition ZeroDivisionError (msg : string) : exn := Exn "ZeroDivisionError" msg.

(** A Python number. *)
Inductive num : Type :=
| Int (z : Z)
| Float (f : F64.float).

(** What a car-state channel of the host gives: [None], a number, or a
    vector of numbers (the world position). *)
Inductive value : Type :=
| VNone
| VNum (n : num)
| VVec (v : list num).

Definition type_name (v : value) : string :=
  match v with
  | VNone => "NoneType"
  | VNum (Int _) => "int"
  | VNum (Float _) => "float"
  | VVec _ => "list"
  end.

(** A Python [str] is a sequence of code points.  A string of the model is
    a sequence of code points below 256 (Basic Latin and Latin-1), one per
    character, which is what the 8-bit characters of [string] can hold; text
    with other code points is outside the model. *)

(** Is the code point [n] one of the upper-case letters below 256: [A] to
    [Z], or U+00C0 to U+00DE without the multiplication sign U+00D7?  These
    are the code points below 256 on which [str.isupper()] holds. *)
Definition upper_code (n : nat) : bool :=
  orb (andb (Nat.leb 65 n) (Nat.leb n 90))
      (orb (andb (Nat.leb 192 n) (Nat.leb n 214))
           (andb (Nat.leb 216 n) (Nat.leb n 222))).

(** [str.lower()] of one character: an upper-case letter below 256 has its
    lower-case letter 32 code points later; every other code point below 256,
    also U+00B5, U+00DF and U+00FF, is its own lower case. *)
Definition lower_char (c : ascii) : ascii :=
  let n := nat_of_ascii c in
  if upper_code n then ascii_of_nat (n + 32) else c.

(** [str.lower()].  Below 256 the mapping is character by character: no
    character there has a lower case of more than one code point or
    one that depends on its neighbours. *)
Fixpoint lower (s : string) : string :=
  match s with
  | EmptyString => EmptyString
  | String c s' => String (lower_char c) (lower s')
  end.

(** ["%d" % z]. *)
Definition format_d (z : Z) : string := NilZero.string_of_int (Z.to_int z).

Definition digit (d : Z) : ascii := ascii_of_nat (48 + Z.to_nat d).

Definition digits3 (n : Z) : string :=
  String (digit (n / 100 mod 10)) (String (digit (n / 10 mod 10)) (String (digit (n mod 10)) "")).

Fixpoint zeros (n : nat) : string :=
  match n with
  | O => ""
  | S n' => String "0" (zeros n')
  end.

(** Three decimals of [n] thousandths. *)
Definition text3 (n : Z) : string := format_d (n / 1000) ++ "." ++ digits3 (n mod 1000).

(** The quotient [n / d] ([0 <= n], [0 < d]) rounded to the nearest integer,
    ties to even: the rounding of the decimal conversion. *)
Definition round_half_even (n d : Z) : Z :=
  let q := n / d in
  match 2 * (n mod d) ?= d with
  | Lt => q
  | Gt => q + 1
  | Eq => if Z.even q then q else q + 1
  end.

(** [|m * 2^e|] in thousandths, correctly rounded. *)
Definition thousandths (m : positive) (e : Z) : Z :=
  match e with
  | Zneg p => round_half_even (Zpos m * 1000) (2 ^ Zpos p)
  | _ => Zpos m * 2 ^ e * 1000
  end.

(** Sign-aware zero padding to [width] characters (the [0] flag). *)
Definition zero_pad (width : nat) (sign body : string) : string :=
  sign ++ zeros (width - (String.length sign + String.length body)) ++ body.

Definition sign_text (s : bool) : string := if s then "-" else "".

(** ["%06.3f" % x] for a double [x]. *)
Definition format_06_3f (x : F64.float) : string :=
  match x with
  | S754_nan => zero_pad 6 "" "nan"
  | S754_infinity s => zero_pad 6 (sign_text s) "inf"
  | S754_zero s => zero_pad 6 (sign_text s) "0.000"
  | S754_finite s m e =>
      zero_pad 6 (sign_text s) (text3 (thousandths m e))
  end.

(** ** The Python operations the app applies to what it reads *)

Module Py.
Import F64.
Local Open Scope py_scope.

(** Truth value of an object: [None], [0], [0.0] and the empty list are
    false. *)
Definition truthy (v : value) : bool :=
  match v with
  | VNone => false
  | VNum (Int z) => negb (z =? 0)
  | VNum (Float f) => negb (is_zero f)
  | VVec l => match l with [] => false | _ => true end
  end.

(** [a or b]. *)
Definition or_ (a b : value) : value := if truthy a then a else b.

(** [float(z)] for an [int]: raises when the integer is out of range. *)
Definition float_of_int (z : Z) : result float :=
  let f := of_Z z in
  if is_finite f then Ok f
  else Raise (OverflowError "int too large to convert to float").

(** [int(v)]: truncation toward zero for a float. *)
Definition int (v : value) : result Z :=
  match v with
  | VNum (Int z) => Ok z
  | VNum (Float f) =>
      match trunc f with
      | Some z => Ok z
      | None =>
          if is_nan f then Raise (ValueError "cannot convert float NaN to integer")
          else Raise (OverflowError "cannot convert float infinity to integer")
      end
  | _ => Raise (TypeError ("int() argument must be a string, a bytes-like object or a real number, not '"
                           ++ type_name v ++ "'"))
  end.

(** [len(v)]. *)
Definition len (v : value) : result Z :=
  match v with
  | VVec l => Ok (Z.of_nat (List.length l))
  | _ => Raise (TypeError ("object of type '" ++ type_name v ++ "' has no len()"))
  end.

(** [v[i]] for a constant index [i >= 0]. *)
Definition getitem (v : value) (i : nat) : result num :=
  match v with
  | VVec l =>
      match nth_error l i with
      | Some a => Ok a
      | None => Raise (Exn "IndexError" "list index out of range")
      end
  | _ => Raise (TypeError ("'" ++ type_name v ++ "' object is not subscriptable"))
  end.

(** [v <= k] for an [int] constant [k] that is an exact double. *)
Definition le_int (v : value) (k : Z) : result bool :=
  match v with
  | VNum (Int z) => Ok (z <=? k)
  | VNum (Float f) => Ok (leb f (of_Z k))
  | _ => Raise (TypeError ("'<=' not supported between instances of '"
                           ++ type_name v ++ "' and 'int'"))
  end.

(** The interpreter's [_float_div_mod]: quotient and remainder of the
    doubles [vx] and [wx], [wx] not zero. *)
Definition float_div_mod (vx wx : float) : float * float :=
  let mod_ := fmod vx wx in
  let div_ := div (sub vx mod_) wx in
  let '(div_, mod_) :=
    if negb (is_zero mod_) then
      if xorb (ltb wx zero) (ltb mod_ zero)
      then (sub div_ (of_Z 1), add mod_ wx)
      else (div_, mod_)
    else (div_, zero_with_sign_of wx) in
  let floordiv :=
    if negb (is_zero div_) then
      let fl := floor div_ in
      if ltb (lit 5 1) (sub div_ fl) then add fl (of_Z 1) else fl
    else zero_with_sign_of (div vx wx) in
  (floordiv, mod_).

(** [v // k] for an [int] constant [k]. *)
Definition floordiv_int (v : value) (k : Z) : result num :=
  match v with
  | VNum (Int z) =>
      if k =? 0 then Raise (ZeroDivisionError "integer division or modulo by zero")
      else Ok (Int (z / k))
  | VNum (Float f) =>
      wx <- float_of_int k ;;
      if is_zero wx then Raise (ZeroDivisionError "float floor division by zero")
      else Ok (Float (fst (float_div_mod f wx)))
  | _ => Raise (TypeError ("unsupported operand type(s) for //: '"
                           ++ type_name v ++ "' and 'int'"))
  end.

(** [v - z] for an [int] [z]. *)
Definition sub_int (v : value) (z : Z) : result num :=
  match v with
  | VNum (Int a) => Ok (Int (a - z))
  | VNum (Float f) => b <- float_of_int z ;; Ok (Float (sub f b))
  | _ => Raise (TypeError ("unsupported operand type(s) for -: '"
                           ++ type_name v ++ "' and 'int'"))
  end.

(** [v * k] for an [int] constant [k >= 0]; a list is repeated. *)
Definition mul_int (v : value) (k : Z) : result value :=
  match v with
  | VNum (Int a) => Ok (VNum (Int (a * k)))
  | VNum (Float f) => b <- float_of_int k ;; Ok (VNum (Float (mul f b)))
  | VVec l => Ok (VVec (List.concat (repeat l (Z.to_nat k))))
  | VNone => Raise (TypeError "unsupported operand type(s) for *: 'NoneType' and 'int'")
  end.

(** ["%06.3f" % n]. *)
Definition format_f (n : num) : result string :=
  match n with
  | Int z => f <- float_of_int z ;; Ok (format_06_3f f)
  | Float f => Ok (format_06_3f f)
  end.

End Py.

(** ** The app: [app.py] *)

Local Open Scope py_scope.

Definition APP_NAME : string := "TelemetryRelay".

Definition UDP_HOST : string := "127.0.0.1".
Definition UDP_PORT : Z := 41234.
Definition SEND_INTERVAL : F64.float := F64.lit 1 1.

(** The channels of [acsys.CS] that the app reads. *)
Inductive CS : Type := SpeedKMH | Gas | Brake | LapCount | LastLap | WorldPosition.

(** The record that is serialized, with the keys of the [payload] dict. *)
Module Payload.
Record t : Type := Build {
  track : string;
  driver : string;
  car : string;
  lap : Z;
  lastLap : string;
  delta : string;
  speed : Z;
  throttle : Z;
  brake : Z;
  x : num;
  y : num
}.
End Payload.

(** What the world outside the module does during one call of [acUpdate]:
    the clock, the accessors of [ac] for car 0, [json.dumps(..).encode(..)],
    [_sock.sendto] and [ac.setText].  Any of the calls may raise. *)
Record host : Type := Host {
  time_time : F64.float;
  getTrackName : result string;
  getDriverName : result string;
  getCarName : result string;
  getCarState : CS -> result value;
  json_dumps : Payload.t -> result string;
  sendto : string -> result unit;
  setText : Z -> string -> result unit
}.

(** The effects of the app that the outside sees. *)
Inductive event : Type :=
| Sendto (data : string) (addr : string * Z)
| SetText (label : Z) (text : string).

(** The module globals that [acUpdate] and [acMain] use; [_label] is [None]
    or the control id that [ac.addLabel] returned. *)
Record state : Type := State {
  _last_send : F64.float;
  _label : option Z
}.

(** The globals when the module has been loaded. *)
Definition module_state : state := {| _last_send := F64.zero; _label := None |}.

Definition _format_lap_time (seconds : value) : result string :=
  match seconds with
  | VNone => Ok ""
  | _ =>
      nonpos <- Py.le_int seconds 0 ;;
      if nonpos : bool then Ok ""
      else
        q <- Py.floordiv_int seconds 60 ;;
        minutes <- Py.int (VNum q) ;;
        remainder <- Py.sub_int seconds (minutes * 60) ;;
        text <- Py.format_f remainder ;;
        Ok (format_d minutes ++ ":" ++ text)
  end.

Definition _get_track_name (h : host) : result string :=
  try_except (getTrackName h) (fun _ => Ok "").

Definition _get_driver_name (h : host) : result string :=
  try_except (getDriverName h) (fun _ => Ok "").

Definition _get_car_name (h : host) : result string :=
  try_except (getCarName h) (fun _ => Ok "").

(** [acMain], for the label [label] that [ac.addLabel] returned. *)
Definition acMain (label : Z) (st : state) : state * string :=
  ({| _last_send := _last_send st; _label := Some label |}, APP_NAME).

(** [int(v) if v is not None else 0]. *)
Definition int_or_0 (v : value) : result Z :=
  match v with
  | VNone => Ok 0
  | _ => Py.int v
  end.

(** [int((v or 0) * 100)]. *)
Definition percent (v : value) : result Z :=
  scaled <- Py.mul_int (Py.or_ v (VNum (Int 0))) 100 ;;
  Py.int scaled.

(** [pos[i] if len(pos) > i else 0]. *)
Definition component (pos : value) (i : nat) : result num :=
  n <- Py.len pos ;;
  if Z.of_nat i <? n then Py.getitem pos i else Ok (Int 0).

(** Lines 67 to 88 of [acUpdate]: the reads and the [payload] dict. *)
Definition read_payload (h : host) : result Payload.t :=
  speed <- getCarState h SpeedKMH ;;
  throttle <- getCarState h Gas ;;
  brake <- getCarState h Brake ;;
  lap <- getCarState h LapCount ;;
  last_lap <- getCarState h LastLap ;;
  pos <- getCarState h WorldPosition ;;
  x <- component pos 0 ;;
  y <- component pos 2 ;;
  track_ <- _get_track_name h ;;
  driver_ <- _get_driver_name h ;;
  car_ <- _get_car_name h ;;
  lap_ <- int_or_0 lap ;;
  lastLap_ <- _format_lap_time last_lap ;;
  speed_ <- int_or_0 speed ;;
  throttle_ <- percent throttle ;;
  brake_ <- percent brake ;;
  Ok {| Payload.track := lower track_;
        Payload.driver := driver_;
        Payload.car := car_;
        Payload.lap := lap_;
        Payload.lastLap := lastLap_;
        Payload.delta := "";
        Payload.speed := speed_;
        Payload.throttle := throttle_;
        Payload.brake := brake_;
        Payload.x := x;
        Payload.y := y |}.

(** The body of the [try]: the reads, then line 90; it gives the bytes that
    went out. *)
Definition publish (h : host) : result string :=
  payload <- read_payload h ;;
  data <- json_dumps h payload ;;
  sendto h data ;;;
  Ok data.

(** What one call leaves behind: the globals, the effects in order, and
    whether the call returned or raised to the host. *)
Record outcome : Type := Outcome {
  globals : state;
  trace : list event;
  returned : result unit
}.

(** [if _label:], for [None] or an [int]. *)
Definition label_set (l : option Z) : option Z :=
  match l with
  | Some id => if id =? 0 then None else Some id
  | None => None
  end.

Definition acUpdate (h : host) (st : state) : outcome :=
  let now := time_time h in
  if F64.ltb (F64.sub now (_last_send st)) SEND_INTERVAL then
    {| globals := st; trace := []; returned := Ok tt |}
  else
    let st' := {| _last_send := now; _label := _label st |} in
    match publish h with
    | Ok data =>
        {| globals := st'; trace := [Sendto data (UDP_HOST, UDP_PORT)]; returned := Ok tt |}
    | Raise err =>
        match label_set (_label st') with
        | Some label =>
            let text := "Telemetry error: " ++ exn_str err in
            match setText h label text with
            | Ok _ => {| globals := st'; trace := [SetText label text]; returned := Ok tt |}
            | Raise err' => {| globals := st'; trace := []; returned := Raise err' |}
            end
        | None => {| globals := st'; trace := []; returned := Ok tt |}
        end
    end.

(** ** Runs of the handler *)

Definition is_send (ev : event) : bool :=
  match ev with
  | Sendto _ _ => true
  | SetText _ _ => false
  end.

(** Did the call send a datagram? *)
Definition sent (o : outcome) : bool := existsb is_send (trace o).

(** The host calls [acUpdate] once per frame, whatever the last call did.
    The clock readings of the ticks that sent a datagram, in order, for a
    sequence of ticks from the globals [st]. *)
Fixpoint send_times (st : state) (ticks : list host) : list F64.float :=
  match ticks with
  | [] => []
  | h :: rest =>
      let o := acUpdate h st in
      (if sent o then [time_time h] else []) ++ send_times (globals o) rest
  end.

(** ** Exact values *)

(** The real number a double stands for, as a fraction (0 for NaN and the
    infinities, which have none). *)
Definition F2Q (x : F64.float) : Q :=
  match x with
  | S754_finite s m (Zneg p) => Qmake (cond_Zopp s (Zpos m)) (2 ^ p)
  | S754_finite s m e => inject_Z (cond_Zopp s (Zpos m) * 2 ^ e)
  | _ => 0%Q
  end.

(** A reading of the clock: a finite double in normal form. *)
Definition reading (t : F64.float) : Prop :=
  F64.is_finite t = true /\ F64.valid t = true.

(** Clock readings that never go back. *)
Definition monotone (ts : list F64.float) : Prop :=
  Sorted (fun a b => (F2Q a <= F2Q b)%Q) ts.

(** The value of a finite double in units of [2^-1074], the spacing of the
    smallest doubles: an integer for a double in normal form. *)
Definition scaled (x : F64.float) : Z :=
  match x with
  | S754_finite s m e => cond_Zopp s (Zpos m) * 2 ^ (e + 1074)
  | _ => 0
  end.

(** A finite double in normal form that is not negative. *)
Definition nonneg_reading (x : F64.float) : Prop :=
  F64.is_finite x = true /\ F64.valid x = true /\ F64.signbit x = false.

(** The denominator of the unit of [scaled]. *)
Definition unit_den : positive := 2 ^ 1074.

(** The state of the timer between two ticks: the initial 0.0, or the
    reading of the last attempt, which is at least one interval. *)
Definition timer_ok (last : F64.float) : Prop :=
  last = F64.zero \/ (nonneg_reading last /\ scaled SEND_INTERVAL <= scaled last).

(** [b] is at least one interval after [a]. *)
Definition spaced (a b : F64.float) : Prop :=
  scaled SEND_INTERVAL <= scaled b - scaled a.

Definition not_before (a b : F64.float) : Prop := scaled a <= scaled b.

(** [x] is the double, not negative and in normal form, whose value is [N]
    units of [2^-1074]. *)
Definition represents (x : F64.float) (N : Z) : Prop :=
  nonneg_reading x /\ scaled x = N.

(** [N] units are a double: zero, or at most 53 bits at an exponent in
    range. *)
Definition fits (N : Z) : Prop :=
  N = 0 \/ exists (J : positive) (c : Z),
             N = Zpos J * 2 ^ (c + 1074) /\ Zpos J < 2 ^ 53 /\ -1074 <= c <= 971.

(** The lap-time text of the specification, in exact arithmetic: the whole
    minutes [M = floor (s / 60)], a colon, and the remainder [s - 60 * M] to
    three decimals (nearest, ties to even), zero-padded to six characters. *)
Definition spec_minutes (s : Q) : Z := Qfloor (s / 60).

Definition spec_seconds_text (r : Q) : string :=
  zero_pad 6 "" (text3 (round_half_even (Qnum r * 1000) (Zpos (Qden r)))).

Definition spec_lap_text (s : Q) : string :=
  let M := spec_minutes s in
  format_d M ++ ":" ++ spec_seconds_text (s - inject_Z (60 * M)).

(** The inputs on which the formatter follows the specification: nothing,
    an [int], or a finite double below [2^53]. *)
Inductive lap_input : value -> Prop :=
| lap_absent : lap_input VNone
| lap_int (z : Z) : lap_input (VNum (Int z))
| lap_float (f : F64.float) :
    reading f -> (F2Q f < inject_Z (2 ^ 53))%Q -> lap_input (VNum (Float f)).

(** The lap-time formatter of the specification: the empty string for an
    absent or non-positive input, the lap-time text for a positive one. *)
Definition lap_time_spec (v : value) : string :=
  match v with
  | VNum (Int z) => if z <=? 0 then "" else spec_lap_text (inject_Z z)
  | VNum (Float f) => if Qle_bool (F2Q f) 0 then "" else spec_lap_text (F2Q f)
  | _ => ""
  end.

(** The largest finite double. *)
Definition max_float : F64.float := S754_finite false (2 ^ 53 - 1) 971.

(** ** Hosts with one accessor made to fail *)

Inductive name_field : Type := Track | Driver | Car.

(** The host [h] with the accessor of the name [n] raising [e]. *)
Definition fail_name (n : name_field) (e : exn) (h : host) : host :=
  {| time_time := time_time h;
     getTrackName := match n with Track => Raise e | _ => getTrackName h end;
     getDriverName := match n with Driver => Raise e | _ => getDriverName h end;
     getCarName := match n with Car => Raise e | _ => getCarName h end;
     getCarState := getCarState h;
     json_dumps := json_dumps h;
     sendto := sendto h;
     setText := setText h |}.

(** The record [p] with the name [n] empty. *)
Definition blank (n : name_field) (p : Payload.t) : Payload.t :=
  {| Payload.track := match n with Track => "" | _ => Payload.track p end;
     Payload.driver := match n with Driver => "" | _ => Payload.driver p end;
     Payload.car := match n with Car => "" | _ => Payload.car p end;
     Payload.lap := Payload.lap p;
     Payload.lastLap := Payload.lastLap p;
     Payload.delta := Payload.delta p;
     Payload.speed := Payload.speed p;
     Payload.throttle := Payload.throttle p;
     Payload.brake := Payload.brake p;
     Payload.x := Payload.x p;
     Payload.y := Payload.y p |}.

Definition cs_eqb (a b : CS) : bool :=
  match a, b with
  | SpeedKMH, SpeedKMH | Gas, Gas | Brake, Brake
  | LapCount, LapCount | LastLap, LastLap | WorldPosition, WorldPosition => true
  | _, _ => false
  end.

(** The host [h] with the read of the channel [c] raising [e]. *)
Definition fail_channel (c : CS) (e : exn) (h : host) : host :=
  {| time_time := time_time h;
     getTrackName := getTrackName h;
     getDriverName := getDriverName h;
     getCarName := getCarName h;
     getCarState := fun c' => if cs_eqb c c' then Raise e else getCarState h c';
     json_dumps := json_dumps h;
     sendto := sendto h;
     setText := setText h |}.

(** ** The end-to-end scenario of the specification *)

Definition scenario_state (c : CS) : value :=
  match c with
  | SpeedKMH => VNum (Float (F64.lit 2107 1))
  | Gas => VNum (Float (F64.lit 8 1))
  | Brake => VNum (Float (F64.lit 0 1))
  | LapCount => VNum (Int 3)
  | LastLap => VNum (Float (F64.lit 91123 3))
  | WorldPosition => VVec [Float (F64.of_Z 10); Float (F64.of_Z 0); Float (F64.of_Z 20)]
  end.

Definition scenario_record : Payload.t :=
  {| Payload.track := "monza";
     Payload.driver := "Ayrton";
     Payload.car := "F1_2020";
     Payload.lap := 3;
     Payload.lastLap := "1:31.123";
     Payload.delta := "";
     Payload.speed := 210;
     Payload.throttle := 80;
     Payload.brake := 0;
     Payload.x := Float (F64.of_Z 10);
     Payload.y := Float (F64.of_Z 20) |}.

(** A stand-in for the serializer, used where a concrete host is needed:
    the text fields and the integers of the record, in key order. *)
Definition sample_dumps (p : Payload.t) : result string :=
  Ok (Payload.track p ++ "," ++ Payload.driver p ++ "," ++ Payload.car p ++ ","
      ++ format_d (Payload.lap p) ++ "," ++ Payload.lastLap p ++ ","
      ++ format_d (Payload.speed p) ++ "," ++ format_d (Payload.throttle p) ++ ","
      ++ format_d (Payload.brake p)).

(** A host in the scenario, at clock reading [now], with everything
    working. *)
Definition scenario_host (now : F64.float) : host :=
  {| time_time := now;
     getTrackName := Ok "Monza";
     getDriverName := Ok "Ayrton";
     getCarName := Ok "F1_2020";
     getCarState := fun c => Ok (scenario_state c);
     json_dumps := sample_dumps;
     sendto := fun _ => Ok tt;
     setText := fun _ _ => Ok tt |}.

Definition host_down : exn := Exn "RuntimeError" "car state unavailable".

(** A host of the scenario on which the label cannot be updated:
    [ac.setText] raises. *)
Definition label_gone : exn := Exn "RuntimeError" "label gone".

Definition no_label_host (now : F64.float) : host :=
  {| time_time := now;
     getTrackName := Ok "Monza";
     getDriverName := Ok "Ayrton";
     getCarName := Ok "F1_2020";
     getCarState := fun c => Ok (scenario_state c);
     json_dumps := sample_dumps;
     sendto := fun _ => Ok tt;
     setText := fun _ _ => Raise label_gone |}.

(** The record [p] with the position [x], [y]. *)
Definition set_position (x y : num) (p : Payload.t) : Payload.t :=
  {| Payload.track := Payload.track p;
     Payload.driver := Payload.driver p;
     Payload.car := Payload.car p;
     Payload.lap := Payload.lap p;
     Payload.lastLap := Payload.lastLap p;
     Payload.delta := Payload.delta p;
     Payload.speed := Payload.speed p;
     Payload.throttle := Payload.throttle p;
     Payload.brake := Payload.brake p;
     Payload.x := x;
     Payload.y := y |}.

(** A wrapped name accessor gives the name, or the empty string. *)
Definition name_or_blank (r : result string) : string :=
  match r with
  | Ok s => s
  | Raise _ => ""
  end.

(** What a pedal accessor gives and the exact number it stands for: nothing,
    which counts as 0, an [int], or a finite double. *)
Inductive pedal_input : value -> Q -> Prop :=
| pedal_none : pedal_input VNone 0%Q
| pedal_int (z : Z) : pedal_input (VNum (Int z)) (inject_Z z)
| pedal_float (f : F64.float) : reading f -> pedal_input (VNum (Float f)) (F2Q f).

(** * The rest of the app *)

(** ** Attempts *)

(** Does the tick pass the gate of line 62? *)
Definition gate_open (h : host) (st : state) : bool :=
  negb (F64.ltb (F64.sub (time_time h) (_last_send st)) SEND_INTERVAL).

(** The clock readings of the ticks that pass the gate (the publish
    attempts, whether they end in a datagram, a label update or nothing). *)
Fixpoint attempt_times (st : state) (ticks : list host) : list F64.float :=
  match ticks with
  | [] => []
  | h :: rest =>
      (if gate_open h st then [time_time h] else [])
        ++ attempt_times (globals (acUpdate h st)) rest
  end.

(** A host of the scenario whose socket refuses the datagram. *)
Definition socket_down : exn := Exn "OSError" "[Errno 101] Network is unreachable".

Definition unreachable_host (now : F64.float) : host :=
  {| time_time := now;
     getTrackName := Ok "Monza";
     getDriverName := Ok "Ayrton";
     getCarName := Ok "F1_2020";
     getCarState := fun c => Ok (scenario_state c);
     json_dumps := sample_dumps;
     sendto := fun _ => Raise socket_down;
     setText := fun _ _ => Ok tt |}.


(** What a rounding with the sign bit set can give. *)
Definition negative_result (x : F64.float) : Prop :=
  match x with
  | S754_zero true | S754_infinity true | S754_finite true _ _ => True
  | _ => False
  end.


(** The clock readings of the ticks picked by [pick], in order. *)
Fixpoint times_where (pick : host -> state -> bool) (st : state) (ticks : list host)
  : list F64.float :=
  match ticks with
  | [] => []
  | h :: rest =>
      (if pick h st then [time_time h] else [])
        ++ times_where pick (globals (acUpdate h st)) rest
  end.

(** [b] is at least [SEND_INTERVAL] after [a], in exact arithmetic. *)
Definition apart (a b : F64.float) : Prop :=
  (F2Q SEND_INTERVAL <= F2Q b - F2Q a)%Q.

(** ** Values that cannot be turned into a field *)

(** A derivation of a field of the record raises on what the host gave:
    the position has no length, or a conversion or the lap-time formatter
    raises. *)
Inductive derivation_fails (h : host) : Prop :=
| position_fails (pos : value) (e : exn) :
    getCarState h WorldPosition = Ok pos -> Py.len pos = Raise e -> derivation_fails h
| lap_fails (lap : value) (e : exn) :
    getCarState h LapCount = Ok lap -> int_or_0 lap = Raise e -> derivation_fails h
| last_lap_fails (last_lap : value) (e : exn) :
    getCarState h LastLap = Ok last_lap -> _format_lap_time last_lap = Raise e ->
    derivation_fails h
| speed_fails (speed : value) (e : exn) :
    getCarState h SpeedKMH = Ok speed -> int_or_0 speed = Raise e -> derivation_fails h
| throttle_fails (throttle : value) (e : exn) :
    getCarState h Gas = Ok throttle -> percent throttle = Raise e -> derivation_fails h
| brake_fails (brake : value) (e : exn) :
    getCarState h Brake = Ok brake -> percent brake = Raise e -> derivation_fails h.

(** The host [h] with the channel [c] reading [v]. *)
Definition with_channel (c : CS) (v : value) (h : host) : host :=
  {| time_time := time_time h;
     getTrackName := getTrackName h;
     getDriverName := getDriverName h;
     getCarName := getCarName h;
     getCarState := fun c' => if cs_eqb c c' then Ok v else getCarState h c';
     json_dumps := json_dumps h;
     sendto := sendto h;
     setText := setText h |}.

(** A host on which nothing about the car is available yet: every scalar
    channel reads [None], the position is the vector [pos]. *)
Definition idle_host (now : F64.float) (pos : list num) : host :=
  {| time_time := now;
     getTrackName := Ok "Monza";
     getDriverName := Ok "Ayrton";
     getCarName := Ok "F1_2020";
     getCarState := fun c => match c with WorldPosition => Ok (VVec pos) | _ => Ok VNone end;
     json_dumps := sample_dumps;
     sendto := fun _ => Ok tt;
     setText := fun _ _ => Ok tt |}.

(** [c.isupper()] for one character of the model. *)
Definition is_upper (c : ascii) : bool := upper_code (nat_of_ascii c).

(** A track name with a letter outside ASCII: U+00C9 (E with acute), then
    [toile Circuit]; in lower case it starts with U+00E9. *)
Definition latin_track : string := String (ascii_of_nat 201) "toile Circuit".

Definition latin_host : host :=
  {| time_time := F64.lit 15 1;
     getTrackName := Ok latin_track;
     getDriverName := Ok "Ayrton";
     getCarName := Ok "F1_2020";
     getCarState := fun c => Ok (scenario_state c);
     json_dumps := sample_dumps;
     sendto := fun _ => Ok tt;
     setText := fun _ _ => Ok tt |}.

Definition latin_record : Payload.t :=
  {| Payload.track := String (ascii_of_nat 233) "toile circuit";
     Payload.driver := "Ayrton";
     Payload.car := "F1_2020";
     Payload.lap := 3;
     Payload.lastLap := "1:31.123";
     Payload.delta := "";
     Payload.speed := 210;
     Payload.throttle := 80;
     Payload.brake := 0;
     Payload.x := Float (F64.of_Z 10);
     Payload.y := Float (F64.of_Z 20) |}.

(** The integer part of a fraction, toward zero. *)
Definition Qtrunc (q : Q) : Z := if Qle_bool 0 q then Qfloor q else Qceiling q.

(** The record of the scenario with a lap count of -2.5 from the host. *)
Definition reversing_record : Payload.t :=
  {| Payload.track := "monza";
     Payload.driver := "Ayrton";
     Payload.car := "F1_2020";
     Payload.lap := -2;
     Payload.lastLap := "1:31.123";
     Payload.delta := "";
     Payload.speed := 210;
     Payload.throttle := 80;
     Payload.brake := 0;
     Payload.x := Float (F64.of_Z 10);
     Payload.y := Float (F64.of_Z 20) |}.

(** A lap time that is positive. *)
Definition positive_lap (v : value) : Prop :=
  match v with
  | VNum (Int z) => 0 < z
  | VNum (Float f) => (0 < F2Q f)%Q
  | _ => False
  end.

(** ** [acMain] and the window of the app *)

(** The calls of [ac] that build the window, with their arguments. *)
Inductive ui_call : Type :=
| NewApp (name : string)
| SetTitle (app : Z) (title : string)
| SetSize (app : Z) (width height : Z)
| DrawBorder (app : Z) (on : Z)
| SetIconPosition (app : Z) (x y : Z)
| AddLabel (app : Z) (text : string)
| SetPosition (control : Z) (x y : Z).

(** What the host does for each of these calls while [acMain] runs: the
    value it returns (for [newApp] and [addLabel] the id of the new control)
    or the exception it raises. *)
Definition ui_host : Type := ui_call -> result Z.

(** Code that reads and writes the globals and calls the host: from the
    globals and the calls made so far, the globals and calls after it and
    what it returned or raised. *)
Definition UI (A : Type) : Type :=
  state -> list ui_call -> state * list ui_call * result A.

Definition ui_ret {A : Type} (a : A) : UI A := fun st log => (st, log, Ok a).

Definition ui_bind {A B : Type} (m : UI A) (k : A -> UI B) : UI B :=
  fun st log =>
    match m st log with
    | (st', log', Ok a) => k a st' log'
    | (st', log', Raise e) => (st', log', Raise e)
    end.

(** One call of the host; it is recorded when it returns. *)
Definition ui_do (ui : ui_host) (c : ui_call) : UI Z :=
  fun st log =>
    match ui c with
    | Ok z => (st, (log ++ [c])%list, Ok z)
    | Raise e => (st, log, Raise e)
    end.

(** [_label = z]. *)
Definition set_label (z : Z) : UI unit :=
  fun st log => ({| _last_send := _last_send st; _label := Some z |}, log, Ok tt).

Declare Scope ui_scope.
Delimit Scope ui_scope with ui.
Notation "x <- m ;; k" := (ui_bind m (fun x => k))
  (at level 100, m at next level, right associativity) : ui_scope.
Notation "m ;;; k" := (ui_bind m (fun _ => k))
  (at level 100, right associativity) : ui_scope.

(** The text of the label: ["Sending telemetry to %s:%s" % (UDP_HOST, UDP_PORT)]. *)
Definition label_text : string :=
  "Sending telemetry to " ++ UDP_HOST ++ ":" ++ format_d UDP_PORT.

Module Main.
Local Open Scope ui_scope.

(** [acMain], call by call. *)
Definition acMain (ui : ui_host) (ac_version : Z) : UI string :=
  app <- ui_do ui (NewApp APP_NAME) ;;
  ui_do ui (SetTitle app APP_NAME) ;;;
  ui_do ui (SetSize app 320 80) ;;;
  ui_do ui (DrawBorder app 0) ;;;
  ui_do ui (SetIconPosition app 0 (-10000)) ;;;
  label <- ui_do ui (AddLabel app label_text) ;;
  set_label label ;;;
  ui_do ui (SetPosition label 12 32) ;;;
  ui_ret APP_NAME.

End Main.

(** The calls of a complete [acMain], for the ids the host gave. *)
Definition window_calls (app label : Z) : list ui_call :=
  [ NewApp "TelemetryRelay"; SetTitle app "TelemetryRelay"; SetSize app 320 80;
    DrawBorder app 0; SetIconPosition app 0 (-10000);
    AddLabel app "Sending telemetry to 127.0.0.1:41234"; SetPosition label 12 32 ].

(** A host that builds the window: the app gets the id 3, the label 7. *)
Definition working_ui : ui_host :=
  fun c =>
    match c with
    | NewApp _ => Ok 3
    | AddLabel _ _ => Ok 7
    | _ => Ok 1
    end.

(** A host on which the label cannot be placed. *)
Definition no_control : exn := Exn "Exception" "control not found".

Definition no_position_ui : ui_host :=
  fun c =>
    match c with
    | NewApp _ => Ok 3
    | AddLabel _ _ => Ok 7
    | SetPosition _ _ _ => Raise no_control
    | _ => Ok 1
    end.

(** * Properties *)

(** ** Comparison of doubles *)

Lemma SFcompare_antisym (a b : spec_float) :
  SFcompare b a = option_map CompOpp (SFcompare a b).
Proof.
  destruct a as [sa | sa | | sa ma ea], b as [sb | sb | | sb mb eb];
    try destruct sa; try destruct sb; try reflexivity.
  all: simpl; rewrite (Z.compare_antisym ea eb);
    destruct (ea ?= eb); simpl; try reflexivity;
    change (Pos.compare_cont Eq mb ma) with (mb ?= ma)%positive;
    change (Pos.compare_cont Eq ma mb) with (ma ?= mb)%positive;
    rewrite (Pos.compare_antisym ma mb); now rewrite ?CompOpp_involutive.
Qed.

(** [a <= b] excludes [b < a] (and a NaN on either side). *)
Lemma leb_not_ltb (a b : F64.float) :
  F64.leb a b = true -> F64.ltb b a = false.
Proof.
  unfold F64.leb, F64.ltb, SFleb, SFltb.
  rewrite (SFcompare_antisym a b).
  destruct (SFcompare a b) as [[ | | ] | ]; simpl; congruence.
Qed.

(** ** The gate of [acUpdate] *)

(** The two ways through [acUpdate]. *)
Lemma acUpdate_gated (h : host) (st : state) :
  F64.ltb (F64.sub (time_time h) (_last_send st)) SEND_INTERVAL = true ->
  acUpdate h st = {| globals := st; trace := []; returned := Ok tt |}.
Proof. intros G. unfold acUpdate. now rewrite G. Qed.

Lemma acUpdate_stamps (h : host) (st : state) :
  F64.ltb (F64.sub (time_time h) (_last_send st)) SEND_INTERVAL = false ->
  globals (acUpdate h st) = {| _last_send := time_time h; _label := _label st |}.
Proof.
  intros G. unfold acUpdate. rewrite G.
  destruct (publish h); [reflexivity | ].
  destruct (label_set _); [ | reflexivity].
  now destruct (setText h _ _).
Qed.

(** C5.  When less than [SEND_INTERVAL] has elapsed since the stored
    timestamp, [acUpdate] returns at once: the globals (timestamp and label)
    are as before, and there is no effect at all, neither a datagram nor a
    new label text. *)
Theorem gated_tick_has_no_effect (h : host) (st : state) :
  F64.ltb (F64.sub (time_time h) (_last_send st)) SEND_INTERVAL = true ->
  acUpdate h st = {| globals := st; trace := []; returned := Ok tt |}
  /\ _last_send (globals (acUpdate h st)) = _last_send st
  /\ sent (acUpdate h st) = false
  /\ (forall label text, ~ In (SetText label text) (trace (acUpdate h st))).
Proof.
  intros G. rewrite (acUpdate_gated h st G). simpl. auto.
Qed.

Lemma gated_tick_has_no_effect_witness :
  let h := scenario_host (F64.lit 105 2) in
  let st := {| _last_send := F64.of_Z 1; _label := Some 7 |} in
  acUpdate h st = {| globals := st; trace := []; returned := Ok tt |}
  /\ _last_send (globals (acUpdate h st)) = _last_send st
  /\ sent (acUpdate h st) = false
  /\ (forall label text, ~ In (SetText label text) (trace (acUpdate h st))).
Proof.
  apply (gated_tick_has_no_effect (scenario_host (F64.lit 105 2))
           {| _last_send := F64.of_Z 1; _label := Some 7 |}).
  vm_compute. reflexivity.
Defined.

(** C3.  When at least [SEND_INTERVAL] has elapsed, the timestamp becomes
    the current clock reading whatever the reads, the serializer, the socket
    and the label update do afterwards (the host [h] is arbitrary); so the
    next tick that comes less than an interval after this one is gated,
    also after a failed attempt. *)
Theorem timestamp_advances_before_publish (h : host) (st : state) :
  F64.leb SEND_INTERVAL (F64.sub (time_time h) (_last_send st)) = true ->
  let st' := globals (acUpdate h st) in
  _last_send st' = time_time h
  /\ forall h' : host,
       F64.ltb (F64.sub (time_time h') (time_time h)) SEND_INTERVAL = true ->
       acUpdate h' st' = {| globals := st'; trace := []; returned := Ok tt |}.
Proof.
  intros E st'. apply leb_not_ltb in E.
  assert (L : _last_send st' = time_time h).
  { unfold st'. now rewrite (acUpdate_stamps h st E). }
  split; [exact L | ].
  intros h' G. apply acUpdate_gated. now rewrite L.
Qed.

Lemma timestamp_advances_before_publish_witness :
  let h := fail_channel SpeedKMH host_down (scenario_host (F64.lit 15 1)) in
  let st' := globals (acUpdate h module_state) in
  _last_send st' = time_time h
  /\ forall h' : host,
       F64.ltb (F64.sub (time_time h') (time_time h)) SEND_INTERVAL = true ->
       acUpdate h' st' = {| globals := st'; trace := []; returned := Ok tt |}.
Proof.
  apply (timestamp_advances_before_publish
           (fail_channel SpeedKMH host_down (scenario_host (F64.lit 15 1))) module_state).
  vm_compute. reflexivity.
Defined.

(** ** Exceptions and the handler *)

(** As long as the label update returns, no exception leaves the handler:
    whatever the accessors, the serializer and the socket do (return
    anything or raise), [acUpdate] returns normally. *)
Lemma acUpdate_never_raises (h : host) (st : state) :
  (forall label text, is_ok (setText h label text) = true) ->
  returned (acUpdate h st) = Ok tt.
Proof.
  intros T. unfold acUpdate.
  destruct (F64.ltb _ _); [reflexivity | ].
  destruct (publish h) as [data | err]; [reflexivity | ].
  destruct (label_set _) as [label | ]; [ | reflexivity].
  specialize (T label ("Telemetry error: " ++ exn_str err)%string).
  destruct (setText h label _); [reflexivity | discriminate].
Qed.

Lemma acUpdate_never_raises_witness :
  returned (acUpdate (fail_channel LastLap host_down (scenario_host (F64.lit 15 1)))
              {| _last_send := F64.zero; _label := Some 7 |}) = Ok tt.
Proof.
  apply (acUpdate_never_raises
           (fail_channel LastLap host_down (scenario_host (F64.lit 15 1)))
           {| _last_send := F64.zero; _label := Some 7 |}).
  intros label text. reflexivity.
Defined.

(** The label update is the one call of the handler that is not inside a
    [try]: it is made in the [except] branch.  If it raises while an error
    is being reported, that exception does reach the host. *)
Lemma label_update_failure_escapes (h : host) (st : state) (label : Z) (e e' : exn) :
  F64.ltb (F64.sub (time_time h) (_last_send st)) SEND_INTERVAL = false ->
  publish h = Raise e ->
  label_set (_label st) = Some label ->
  setText h label ("Telemetry error: " ++ exn_str e) = Raise e' ->
  returned (acUpdate h st) = Raise e'.
Proof.
  intros G P L T. unfold acUpdate. rewrite G, P.
  cbn [_label]. rewrite L, T. reflexivity.
Qed.

(** That is the only way: [acUpdate] raises exactly when the tick passes
    the gate, the [try] body fails, a label is set and the label update
    itself raises; the exception is the one of the label update. *)
Lemma acUpdate_raises_only_from_setText (h : host) (st : state) (e' : exn) :
  returned (acUpdate h st) = Raise e'
  <-> exists (e : exn) (label : Z),
        F64.ltb (F64.sub (time_time h) (_last_send st)) SEND_INTERVAL = false
        /\ publish h = Raise e
        /\ label_set (_label st) = Some label
        /\ setText h label ("Telemetry error: " ++ exn_str e) = Raise e'.
Proof.
  split.
  - unfold acUpdate.
    destruct (F64.ltb _ _) eqn:G; cbn [returned]; [discriminate | ].
    destruct (publish h) as [data | e] eqn:P; cbn [returned]; [discriminate | ].
    cbn [_label].
    destruct (label_set (_label st)) as [label | ] eqn:L; cbn [returned]; [ | discriminate].
    destruct (setText h label _) as [u | e''] eqn:T; cbn [returned]; [discriminate | ].
    intros E. injection E as <-. exists e, label. repeat split; assumption.
  - intros (e & label & G & P & L & T).
    exact (label_update_failure_escapes h st label e e' G P L T).
Qed.

(** C1.  An exception can leave the handler.  With the label set by
    [acMain], a tick that passes the gate, a speed read that raises and an
    [ac.setText] that raises, the exception of [ac.setText] leaves [acUpdate]
    and reaches the host: nothing was sent, nothing was shown, the timestamp
    was stored. *)
Theorem setText_failure_reaches_host :
  let h := fail_channel SpeedKMH host_down (no_label_host (F64.lit 15 1)) in
  let st := {| _last_send := F64.zero; _label := Some 7 |} in
  publish h = Raise host_down
  /\ setText h 7 "Telemetry error: car state unavailable" = Raise label_gone
  /\ acUpdate h st =
       {| globals := {| _last_send := F64.lit 15 1; _label := Some 7 |};
          trace := [];
          returned := Raise label_gone |}.
Proof.
  cbv zeta. split; [reflexivity | ]. split; [reflexivity | ].
  assert (G : F64.ltb (F64.sub (F64.lit 15 1) F64.zero) SEND_INTERVAL = false)
    by (vm_compute; reflexivity).
  unfold acUpdate. cbn [time_time fail_channel no_label_host _last_send _label].
  rewrite G. reflexivity.
Qed.

(** ** The record *)

Lemma bind_Ok {A B : Type} (r : result A) (k : A -> result B) (b : B) :
  bind r k = Ok b -> exists a, r = Ok a /\ k a = Ok b.
Proof. destruct r as [a | e]; simpl; [eauto | discriminate]. Qed.

(** Splits the first read of a successful sequence. *)
Ltac bind_step H :=
  let a := fresh "a" in
  let E := fresh "E" in
  apply bind_Ok in H; destruct H as (a & E & H).

(** How every field of a record that was built comes from the reads. *)
Lemma read_payload_inv (h : host) (p : Payload.t) :
  read_payload h = Ok p ->
  exists speed throttle brake lap last_lap pos,
    (getCarState h SpeedKMH = Ok speed /\ getCarState h Gas = Ok throttle
     /\ getCarState h Brake = Ok brake /\ getCarState h LapCount = Ok lap
     /\ getCarState h LastLap = Ok last_lap /\ getCarState h WorldPosition = Ok pos)
    /\ (component pos 0 = Ok (Payload.x p) /\ component pos 2 = Ok (Payload.y p))
    /\ (Payload.track p = lower (name_or_blank (getTrackName h))
        /\ Payload.driver p = name_or_blank (getDriverName h)
        /\ Payload.car p = name_or_blank (getCarName h))
    /\ (int_or_0 lap = Ok (Payload.lap p)
        /\ _format_lap_time last_lap = Ok (Payload.lastLap p)
        /\ Payload.delta p = ""
        /\ int_or_0 speed = Ok (Payload.speed p)
        /\ percent throttle = Ok (Payload.throttle p)
        /\ percent brake = Ok (Payload.brake p)).
Proof.
  intros H. unfold read_payload in H.
  do 8 bind_step H.
  unfold _get_track_name, _get_driver_name, _get_car_name, try_except in H.
  do 3 bind_step H. do 5 bind_step H.
  injection H as <-. simpl.
  exists a, a0, a1, a2, a3, a4.
  repeat match goal with
         | E : match ?r with Ok _ => _ | Raise _ => _ end = Ok _ |- _ =>
             destruct r; simpl in E; injection E as <-
         end.
  all: repeat split; assumption || reflexivity.
Qed.

(** The other direction: reads that succeed build the record. *)
Lemma read_payload_intro (h : host) (speed throttle brake lap last_lap pos : value)
      (x y : num) (lap' speed' throttle' brake' : Z) (lastLap' : string) :
  getCarState h SpeedKMH = Ok speed -> getCarState h Gas = Ok throttle ->
  getCarState h Brake = Ok brake -> getCarState h LapCount = Ok lap ->
  getCarState h LastLap = Ok last_lap -> getCarState h WorldPosition = Ok pos ->
  component pos 0 = Ok x -> component pos 2 = Ok y ->
  int_or_0 lap = Ok lap' -> _format_lap_time last_lap = Ok lastLap' ->
  int_or_0 speed = Ok speed' -> percent throttle = Ok throttle' ->
  percent brake = Ok brake' ->
  read_payload h =
    Ok {| Payload.track := lower (name_or_blank (getTrackName h));
          Payload.driver := name_or_blank (getDriverName h);
          Payload.car := name_or_blank (getCarName h);
          Payload.lap := lap'; Payload.lastLap := lastLap'; Payload.delta := "";
          Payload.speed := speed'; Payload.throttle := throttle';
          Payload.brake := brake'; Payload.x := x; Payload.y := y |}.
Proof.
  intros R1 R2 R3 R4 R5 R6 X Y L LL S T B.
  unfold read_payload. rewrite R1, R2, R3, R4, R5, R6. simpl.
  rewrite X, Y. simpl.
  unfold _get_track_name, _get_driver_name, _get_car_name, try_except.
  destruct (getTrackName h), (getDriverName h), (getCarName h); simpl;
    rewrite L, LL, S, T, B; reflexivity.
Qed.

(** A failing car-state read fails the whole [try] body. *)
Lemma read_payload_channel_fails (c : CS) (e : exn) (h : host) :
  exists e', read_payload (fail_channel c e h) = Raise e'.
Proof.
  unfold read_payload.
  destruct c; simpl;
    repeat match goal with
           | |- exists e', Raise ?x = Raise e' => exists x; reflexivity
           | |- exists e', bind (getCarState h ?c) _ = _ =>
               destruct (getCarState h c); simpl
           end.
Qed.

(** A tick whose [try] body fails sends nothing. *)
Lemma failed_publish_sends_nothing (h : host) (st : state) (e : exn) :
  publish h = Raise e -> sent (acUpdate h st) = false.
Proof.
  intros P. unfold acUpdate.
  destruct (F64.ltb _ _); [reflexivity | ].
  rewrite P. destruct (label_set _); [ | reflexivity].
  now destruct (setText h _ _).
Qed.

(** The outcome of a tick that passes the gate and publishes. *)
Lemma acUpdate_publishes (h : host) (st : state) (p : Payload.t) (data : string) :
  F64.ltb (F64.sub (time_time h) (_last_send st)) SEND_INTERVAL = false ->
  read_payload h = Ok p -> json_dumps h p = Ok data -> sendto h data = Ok tt ->
  acUpdate h st =
    {| globals := {| _last_send := time_time h; _label := _label st |};
       trace := [Sendto data (UDP_HOST, UDP_PORT)];
       returned := Ok tt |}.
Proof.
  intros G R J S. unfold acUpdate, publish. rewrite G, R. simpl.
  rewrite J. simpl. rewrite S. reflexivity.
Qed.

(** ** Failing reads *)

(** C2, as the code has it.  On a tick that reaches the publish phase, a
    name accessor that raises is recovered locally: the record is the one of
    the same host with a working accessor, with that name empty, and its
    datagram is sent (for [n = Car]: the car name is [""]).  A car-state read
    that raises is not recovered field by field: the tick sends nothing. *)
Theorem name_read_failure_is_recovered
        (n : name_field) (e : exn) (h : host) (st : state) (p : Payload.t) (data : string) :
  F64.ltb (F64.sub (time_time h) (_last_send st)) SEND_INTERVAL = false ->
  read_payload h = Ok p ->
  json_dumps h (blank n p) = Ok data ->
  sendto h data = Ok tt ->
  read_payload (fail_name n e h) = Ok (blank n p)
  /\ Payload.car (blank Car p) = ""
  /\ acUpdate (fail_name n e h) st =
       {| globals := {| _last_send := time_time h; _label := _label st |};
          trace := [Sendto data (UDP_HOST, UDP_PORT)];
          returned := Ok tt |}
  /\ forall (c : CS) (e' : exn), sent (acUpdate (fail_channel c e' h) st) = false.
Proof.
  intros G R J S.
  assert (R' : read_payload (fail_name n e h) = Ok (blank n p)).
  { destruct (read_payload_inv h p R)
      as (speed & throttle & brake & lap & last_lap & pos
          & (R1 & R2 & R3 & R4 & R5 & R6) & (X & Y) & (T & D & C)
          & (L & LL & De & Sp & Th & Br)).
    rewrite (read_payload_intro (fail_name n e h) speed throttle brake lap last_lap pos
               _ _ _ _ _ _ _ R1 R2 R3 R4 R5 R6 X Y L LL Sp Th Br).
    destruct p; simpl in *; subst.
    destruct n; reflexivity. }
  repeat split.
  - exact R'.
  - apply (acUpdate_publishes (fail_name n e h) st (blank n p) data); assumption.
  - intros c e'.
    destruct (read_payload_channel_fails c e' h) as (e'' & F).
    apply (failed_publish_sends_nothing _ st e'').
    unfold publish. now rewrite F.
Qed.

Lemma name_read_failure_is_recovered_witness :
  let h := scenario_host (F64.lit 15 1) in
  read_payload (fail_name Car host_down h) = Ok (blank Car scenario_record)
  /\ Payload.car (blank Car scenario_record) = ""
  /\ acUpdate (fail_name Car host_down h) module_state =
       {| globals := {| _last_send := time_time h; _label := None |};
          trace := [Sendto "monza,Ayrton,,3,1:31.123,210,80,0" (UDP_HOST, UDP_PORT)];
          returned := Ok tt |}
  /\ forall (c : CS) (e' : exn),
       sent (acUpdate (fail_channel c e' h) module_state) = false.
Proof.
  apply (name_read_failure_is_recovered Car host_down (scenario_host (F64.lit 15 1))
           module_state scenario_record "monza,Ayrton,,3,1:31.123,210,80,0");
    vm_compute; reflexivity.
Defined.

(** C2 as written fails for the numeric fields: with the speed read raising
    and every other read working, the tick passes the gate and no datagram
    goes out (the claim has it sent, with speed 0). *)
Lemma speed_read_failure_drops_datagram :
  let h := fail_channel SpeedKMH host_down (scenario_host (F64.lit 15 1)) in
  F64.ltb (F64.sub (time_time h) (_last_send module_state)) SEND_INTERVAL = false
  /\ (forall c, c <> SpeedKMH -> is_ok (getCarState h c) = true)
  /\ is_ok (getTrackName h) = true /\ is_ok (getDriverName h) = true
  /\ is_ok (getCarName h) = true
  /\ sent (acUpdate h module_state) = false
  /\ trace (acUpdate h module_state) = [].
Proof.
  repeat split; try reflexivity.
  intros c N. destruct c; try reflexivity. now elim N.
Qed.

(** ** The end-to-end scenario *)

(** C6.  With the accessors returning the values of the scenario, a tick
    that passes the gate builds exactly the record of the specification and
    sends its serialization, once. *)
Theorem scenario_record_is_emitted (h : host) (st : state) (data : string) :
  getTrackName h = Ok "Monza" ->
  getDriverName h = Ok "Ayrton" ->
  getCarName h = Ok "F1_2020" ->
  (forall c, getCarState h c = Ok (scenario_state c)) ->
  F64.ltb (F64.sub (time_time h) (_last_send st)) SEND_INTERVAL = false ->
  json_dumps h scenario_record = Ok data ->
  sendto h data = Ok tt ->
  read_payload h = Ok scenario_record
  /\ acUpdate h st =
       {| globals := {| _last_send := time_time h; _label := _label st |};
          trace := [Sendto data (UDP_HOST, UDP_PORT)];
          returned := Ok tt |}.
Proof.
  intros T D C V G J S.
  assert (R : read_payload h = Ok scenario_record).
  { rewrite (read_payload_intro h _ _ _ _ _ _
               (Float (F64.of_Z 10)) (Float (F64.of_Z 20)) 3 210 80 0 "1:31.123"
               (V SpeedKMH) (V Gas) (V Brake) (V LapCount) (V LastLap) (V WorldPosition));
      try (vm_compute; reflexivity).
    rewrite T, D, C. reflexivity. }
  split; [exact R | ].
  apply (acUpdate_publishes h st scenario_record data); assumption.
Qed.

Lemma scenario_record_is_emitted_witness :
  let h := scenario_host (F64.lit 15 1) in
  read_payload h = Ok scenario_record
  /\ acUpdate h module_state =
       {| globals := {| _last_send := time_time h; _label := None |};
          trace := [Sendto "monza,Ayrton,F1_2020,3,1:31.123,210,80,0" (UDP_HOST, UDP_PORT)];
          returned := Ok tt |}.
Proof.
  apply (scenario_record_is_emitted (scenario_host (F64.lit 15 1)) module_state
           "monza,Ayrton,F1_2020,3,1:31.123,210,80,0");
    try intros c; reflexivity.
Defined.

(** ** The position *)

Lemma component_vector (l : list num) (i : nat) :
  component (VVec l) i = Ok (nth i l (Int 0)).
Proof.
  unfold component. simpl.
  destruct (Z.of_nat i <? Z.of_nat (List.length l)) eqn:C.
  - apply Z.ltb_lt in C. apply Nat2Z.inj_lt in C.
    destruct (nth_error l i) eqn:N.
    + now rewrite (nth_error_nth l i (Int 0) N).
    + apply nth_error_None in N. lia.
  - apply Z.ltb_ge in C. apply Nat2Z.inj_le in C.
    now rewrite nth_overflow.
Qed.

(** C9.  For every position vector, [x] is its first component (0 for the
    empty vector) and [y] its third (0 when there are fewer than three), and
    a short vector is no error: on a host whose record can be built, any
    vector in place of the position gives the same record with that [x] and
    [y].  So [[1.0, 99.0, 2.0]] gives 1.0 and 2.0, and [[5.0]] gives 5.0 and
    0. *)
Theorem position_components (h : host) (p : Payload.t) (l : list num) :
  read_payload h = Ok p ->
  let h' := with_channel WorldPosition (VVec l) h in
  read_payload h' = Ok (set_position (nth 0 l (Int 0)) (nth 2 l (Int 0)) p)
  /\ (l = [] -> read_payload h' = Ok (set_position (Int 0) (Int 0) p))
  /\ (l = [Float (F64.of_Z 1); Float (F64.of_Z 99); Float (F64.of_Z 2)] ->
      read_payload h' = Ok (set_position (Float (F64.of_Z 1)) (Float (F64.of_Z 2)) p))
  /\ (l = [Float (F64.of_Z 5)] ->
      read_payload h' = Ok (set_position (Float (F64.of_Z 5)) (Int 0) p)).
Proof.
  intros R h'.
  assert (G : read_payload h' = Ok (set_position (nth 0 l (Int 0)) (nth 2 l (Int 0)) p)).
  { destruct (read_payload_inv h p R)
      as (speed & throttle & brake & lap & last_lap & pos
          & (R1 & R2 & R3 & R4 & R5 & R6) & (X & Y) & (T & D & C)
          & (L & LL & De & Sp & Th & Br)).
    rewrite (read_payload_intro h' speed throttle brake lap last_lap (VVec l)
               (nth 0 l (Int 0)) (nth 2 l (Int 0))
               (Payload.lap p) (Payload.speed p) (Payload.throttle p) (Payload.brake p)
               (Payload.lastLap p));
      try assumption; try reflexivity; try apply component_vector.
    unfold set_position. cbn [h' with_channel getTrackName getDriverName getCarName].
    rewrite <- T, <- D, <- C, De. reflexivity. }
  split; [exact G | ].
  repeat split; intros ->; exact G.
Qed.

Lemma position_components_witness :
  let h' := with_channel WorldPosition (VVec [Float (F64.of_Z 5)])
              (scenario_host (F64.lit 15 1)) in
  read_payload h'
  = Ok (set_position (nth 0 [Float (F64.of_Z 5)] (Int 0)) (nth 2 [Float (F64.of_Z 5)] (Int 0))
          scenario_record)
  /\ ([Float (F64.of_Z 5)] = [] ->
      read_payload h' = Ok (set_position (Int 0) (Int 0) scenario_record))
  /\ ([Float (F64.of_Z 5)] = [Float (F64.of_Z 1); Float (F64.of_Z 99); Float (F64.of_Z 2)] ->
      read_payload h'
      = Ok (set_position (Float (F64.of_Z 1)) (Float (F64.of_Z 2)) scenario_record))
  /\ ([Float (F64.of_Z 5)] = [Float (F64.of_Z 5)] ->
      read_payload h' = Ok (set_position (Float (F64.of_Z 5)) (Int 0) scenario_record)).
Proof.
  apply (position_components (scenario_host (F64.lit 15 1)) scenario_record
           [Float (F64.of_Z 5)]).
  reflexivity.
Defined.

(** ** Lap times *)

(** C10 as written fails at its example: 59.9995 is the double just below
    the decimal, and its seconds render as 59.999. *)
Lemma lap_59_9995_renders_59_999 :
  _format_lap_time (VNum (Float (F64.lit 599995 4))) = Ok "0:59.999"
  /\ _format_lap_time (VNum (Float (F64.lit 599995 4))) <> Ok "0:60.000".
Proof.
  assert (E : _format_lap_time (VNum (Float (F64.lit 599995 4))) = Ok "0:59.999")
    by (vm_compute; reflexivity).
  split; [exact E | rewrite E; discriminate].
Qed.

(** C10, with an example that does it.  There are positive lap times below
    60 seconds, 59.9996 for one, that are formatted as ["0:60.000"]: the
    minutes are the floor, 0, and the remainder is rounded on its own to
    60000 thousandths, with no carry into the minutes. *)
Theorem seconds_field_can_render_60 :
  exists s : F64.float,
    s = F64.lit 599996 4
    /\ F64.ltb F64.zero s = true
    /\ F64.ltb s (F64.of_Z 60) = true
    /\ spec_minutes (F2Q s) = 0
    /\ _format_lap_time (VNum (Float s)) = Ok "0:60.000".
Proof.
  exists (F64.lit 599996 4). repeat split; vm_compute; reflexivity.
Qed.

(** ** Doubles in normal form *)

(** Powers become opaque numbers, for the linear steps. *)
Ltac hide_pow :=
  repeat match goal with
         | |- context [Z.pow ?a ?b] =>
             let p := fresh "p" in set (p := Z.pow a b) in *; clearbody p
         | H : context [Z.pow ?a ?b] |- _ =>
             let p := fresh "p" in set (p := Z.pow a b) in *; clearbody p
         end.

Lemma digits2_pos_bounds (m : positive) :
  2 ^ (Zpos (digits2_pos m) - 1) <= Zpos m < 2 ^ Zpos (digits2_pos m).
Proof.
  induction m as [m IH | m IH | ]; simpl digits2_pos.
  - rewrite Pos2Z.inj_succ. change (Zpos m~1) with (2 * Zpos m + 1).
    replace (Z.succ (Zpos (digits2_pos m)) - 1) with (Z.succ (Zpos (digits2_pos m) - 1)) by lia.
    rewrite !Z.pow_succ_r by lia. hide_pow. lia.
  - rewrite Pos2Z.inj_succ. change (Zpos m~0) with (2 * Zpos m).
    replace (Z.succ (Zpos (digits2_pos m)) - 1) with (Z.succ (Zpos (digits2_pos m) - 1)) by lia.
    rewrite !Z.pow_succ_r by lia. hide_pow. lia.
  - simpl. lia.
Qed.

(** The number of binary digits is fixed by the bounds. *)
Lemma digits2_pos_unique (m : positive) (d : Z) :
  2 ^ (d - 1) <= Zpos m < 2 ^ d -> Zpos (digits2_pos m) = d.
Proof.
  intros [L U]. pose proof (digits2_pos_bounds m) as [L' U'].
  assert (0 < d).
  { destruct (Z_lt_le_dec 0 d) as [ | N]; [assumption | ].
    assert (2 ^ d <= 2 ^ 0) by (destruct (Z_lt_le_dec d 0);
      [rewrite Z.pow_neg_r by assumption; simpl; lia | apply Z.pow_le_mono_r; lia]).
    simpl in *. lia. }
  destruct (Z_lt_le_dec (Zpos (digits2_pos m)) d) as [A | A].
  - assert (2 ^ Zpos (digits2_pos m) <= 2 ^ (d - 1)) by (apply Z.pow_le_mono_r; lia). lia.
  - destruct (Z_lt_le_dec d (Zpos (digits2_pos m))) as [B | B]; [ | lia].
    assert (2 ^ d <= 2 ^ (Zpos (digits2_pos m) - 1)) by (apply Z.pow_le_mono_r; lia). lia.
Qed.

Lemma digits2_pos_shift (m k : positive) :
  Zpos (digits2_pos (Pos.iter xO m k)) = Zpos (digits2_pos m) + Zpos k.
Proof.
  apply digits2_pos_unique.
  pose proof (digits2_pos_bounds m) as [L U].
  change (Pos.iter xO m k) with (shift_pos k m).
  rewrite shift_pos_correct, Z.pow_pos_fold.
  replace (Zpos (digits2_pos m) + Zpos k - 1) with (Zpos k + (Zpos (digits2_pos m) - 1)) by lia.
  pose proof (Pos2Z.is_pos (digits2_pos m)).
  rewrite (Z.add_comm (Zpos (digits2_pos m))), !Z.pow_add_r by lia.
  assert (0 < 2 ^ Zpos k) by (apply Z.pow_pos_nonneg; lia).
  nia.
Qed.

Lemma bounded_inv (m : positive) (e : Z) :
  bounded F64.prec F64.emax m e = true ->
  -1074 <= e <= 971 /\ Zpos m < 2 ^ 53 /\ (e = -1074 \/ 2 ^ 52 <= Zpos m).
Proof.
  unfold bounded, canonical_mantissa, fexp, emin, F64.prec, F64.emax.
  intros H. apply andb_true_iff in H. destruct H as [C B].
  apply Z.eqb_eq in C. apply Z.leb_le in B.
  pose proof (digits2_pos_bounds m) as [L U].
  assert (D : Zpos (digits2_pos m) <= 53) by lia.
  split; [lia | ]. split.
  - assert (2 ^ Zpos (digits2_pos m) <= 2 ^ 53) by (apply Z.pow_le_mono_r; lia). lia.
  - destruct (Z.eq_dec e (-1074)) as [ | N]; [now left | right].
    assert (Zpos (digits2_pos m) = 53) as E by lia.
    rewrite E in L. exact L.
Qed.

Lemma binary_round_aux_canonical (s : bool) (m : positive) (e : Z) :
  fexp F64.prec F64.emax (Zpos (digits2_pos m) + e) = e -> e <= 971 ->
  binary_round_aux F64.prec F64.emax s (Zpos m) e loc_Exact = S754_finite s m e.
Proof.
  intros C B.
  unfold binary_round_aux, shr_fexp. simpl Zdigits2. simpl shr_record_of_loc.
  rewrite C, Z.sub_diag. simpl shr. cbv beta iota.
  simpl round_nearest_even. simpl Zdigits2. simpl shr_record_of_loc.
  rewrite C, Z.sub_diag. simpl shr. cbv beta iota. simpl shr_m.
  change (F64.emax - F64.prec) with 971.
  assert (L : (e <=? 971) = true) by (apply Z.leb_le; lia).
  now rewrite L.
Qed.

Lemma shl_align_spec (m : positive) (e e' : Z) :
  e' <= e ->
  Zpos (fst (shl_align m e e')) = Zpos m * 2 ^ (e - e')
  /\ snd (shl_align m e e') = e'
  /\ Zpos (digits2_pos (fst (shl_align m e e'))) = Zpos (digits2_pos m) + (e - e').
Proof.
  intros L. unfold shl_align.
  destruct (e' - e) as [ | k | k] eqn:D.
  - assert (e' = e) as -> by lia. rewrite Z.sub_diag. simpl. lia.
  - lia.
  - assert (e - e' = Zpos k) as -> by lia. simpl fst. simpl snd.
    split; [ | split; [reflexivity | apply digits2_pos_shift]].
    change (Pos.iter xO m k) with (shift_pos k m).
    rewrite shift_pos_correct, Z.pow_pos_fold. lia.
Qed.

(** A positive integer of at most 53 bits at an exponent in range is a
    double: rounding it changes nothing. *)
Lemma binary_round_small (s : bool) (m : positive) (e : Z) :
  -1074 <= e <= 971 -> Zpos m < 2 ^ 53 ->
  exists m' e',
    binary_round F64.prec F64.emax s m e = S754_finite s m' e'
    /\ bounded F64.prec F64.emax m' e' = true
    /\ Zpos m' * 2 ^ (e' + 1074) = Zpos m * 2 ^ (e + 1074).
Proof.
  intros He Hm.
  pose proof (digits2_pos_bounds m) as [L U].
  assert (D : Zpos (digits2_pos m) <= 53).
  { destruct (Z_lt_le_dec 53 (Zpos (digits2_pos m))) as [A | A]; [ | assumption].
    assert (2 ^ 53 <= 2 ^ (Zpos (digits2_pos m) - 1)) by (apply Z.pow_le_mono_r; lia). lia. }
  unfold binary_round.
  set (e' := fexp F64.prec F64.emax (Zpos (digits2_pos m) + e)).
  assert (E' : e' = Z.max (Zpos (digits2_pos m) + e - 53) (-1074)) by reflexivity.
  clearbody e'.
  assert (Le : e' <= e) by lia.
  destruct (shl_align_spec m e e' Le) as (V & Sn & Dg).
  destruct (shl_align m e e') as [mz ez]. cbn [fst snd] in V, Sn, Dg. subst ez.
  assert (C : fexp F64.prec F64.emax (Zpos (digits2_pos mz) + e') = e').
  { unfold fexp, emin, F64.prec, F64.emax. rewrite Dg. lia. }
  rewrite (binary_round_aux_canonical s mz e' C) by lia.
  exists mz, e'. split; [reflexivity | ]. split.
  - unfold bounded, canonical_mantissa. rewrite C, Z.eqb_refl. simpl.
    apply Z.leb_le. unfold F64.emax, F64.prec. lia.
  - rewrite V. replace (e + 1074) with ((e - e') + (e' + 1074)) by lia.
    rewrite (Z.pow_add_r 2 (e - e') (e' + 1074)) by lia. ring.
Qed.

Lemma mul_lt_chain (a b q p p0 : Z) :
  0 < p -> 2 <= p0 -> 0 <= b -> a < 2 * q -> q <= b -> a * p < b * (p0 * p).
Proof.
  intros Hp Hp0 H0 Ha Hb.
  assert (a * p < 2 * q * p) by nia.
  assert (2 * q * p <= 2 * b * p) by nia.
  assert (0 <= b * p) by nia.
  assert (2 * (b * p) <= p0 * (b * p)) by nia.
  lia.
Qed.

(** Doubles that are not negative compare as their values do. *)
Lemma SFcompare_scaled (a b : F64.float) :
  nonneg_reading a -> nonneg_reading b ->
  SFcompare a b = Some (scaled a ?= scaled b).
Proof.
  intros (Fa & Va & Sa) (Fb & Vb & Sb).
  destruct a as [sa | sa | | sa ma ea]; try discriminate;
    destruct b as [sb | sb | | sb mb eb]; try discriminate;
    simpl in Sa, Sb; subst; unfold SFcompare, scaled, cond_Zopp.
  - reflexivity.
  - assert (0 < 2 ^ (eb + 1074)) by (apply Z.pow_pos_nonneg; [lia | apply bounded_inv in Vb; lia]).
    symmetry. f_equal. apply Z.compare_lt_iff. apply Z.mul_pos_pos; lia.
  - assert (0 < 2 ^ (ea + 1074)) by (apply Z.pow_pos_nonneg; [lia | apply bounded_inv in Va; lia]).
    symmetry. f_equal. apply Z.compare_gt_iff. apply Z.mul_pos_pos; lia.
  - apply bounded_inv in Va, Vb.
    destruct Va as (Ea & Ma & Ca), Vb as (Eb & Mb & Cb).
    f_equal. symmetry.
    destruct (Z.compare_spec ea eb) as [-> | Lt | Gt].
    + change (Pos.compare_cont Eq ma mb) with (Zpos ma ?= Zpos mb).
      assert (0 < 2 ^ (eb + 1074)) by (apply Z.pow_pos_nonneg; lia).
      destruct (Z.compare_spec (Zpos ma) (Zpos mb)) as [E | L | G];
        [apply Z.compare_eq_iff | apply Z.compare_lt_iff | apply Z.compare_gt_iff];
        hide_pow; nia.
    + apply Z.compare_lt_iff.
      replace (eb + 1074) with ((eb - ea) + (ea + 1074)) by lia.
      rewrite (Z.pow_add_r 2 (eb - ea) (ea + 1074)) by lia.
      assert (0 < 2 ^ (ea + 1074)) by (apply Z.pow_pos_nonneg; lia).
      assert (2 ^ 1 <= 2 ^ (eb - ea)) by (apply Z.pow_le_mono_r; lia).
      change (2 ^ 1) with 2 in *. change (2 ^ 53) with (2 * 2 ^ 52) in *.
      destruct Cb as [ | Cb]; [lia | ].
      hide_pow. apply (mul_lt_chain _ _ p1); assumption || lia.
    + apply Z.compare_gt_iff.
      replace (ea + 1074) with ((ea - eb) + (eb + 1074)) by lia.
      rewrite (Z.pow_add_r 2 (ea - eb) (eb + 1074)) by lia.
      assert (0 < 2 ^ (eb + 1074)) by (apply Z.pow_pos_nonneg; lia).
      assert (2 ^ 1 <= 2 ^ (ea - eb)) by (apply Z.pow_le_mono_r; lia).
      change (2 ^ 1) with 2 in *. change (2 ^ 53) with (2 * 2 ^ 52) in *.
      destruct Ca as [ | Ca]; [lia | ].
      hide_pow. apply (mul_lt_chain _ _ p1); assumption || lia.
Qed.

Lemma ltb_scaled (a b : F64.float) :
  nonneg_reading a -> nonneg_reading b ->
  F64.ltb a b = true <-> scaled a < scaled b.
Proof.
  intros A B. unfold F64.ltb, SFltb. rewrite (SFcompare_scaled a b A B).
  destruct (Z.compare_spec (scaled a) (scaled b)); split; intros; congruence || lia.
Qed.

Lemma scaled_split (m : positive) (e ez : Z) :
  -1074 <= ez <= e ->
  Zpos m * 2 ^ (e + 1074) = Zpos m * 2 ^ (e - ez) * 2 ^ (ez + 1074).
Proof.
  intros H. replace (e + 1074) with ((e - ez) + (ez + 1074)) by lia.
  rewrite (Z.pow_add_r 2 (e - ez) (ez + 1074)) by lia. ring.
Qed.

Lemma scaled_finite_pos (m : positive) (e : Z) :
  scaled (S754_finite false m e) = Zpos m * 2 ^ (e + 1074).
Proof. reflexivity. Qed.

(** A difference of two positive doubles that fits in 53 bits at the lower
    of the two exponents is computed without rounding. *)
Lemma sub_exact (ma mb : positive) (ea eb : Z) :
  bounded F64.prec F64.emax ma ea = true ->
  bounded F64.prec F64.emax mb eb = true ->
  let d := Zpos ma * 2 ^ (ea + 1074) - Zpos mb * 2 ^ (eb + 1074) in
  0 <= d -> d < 2 ^ 53 * 2 ^ (Z.min ea eb + 1074) ->
  nonneg_reading (F64.sub (S754_finite false ma ea) (S754_finite false mb eb))
  /\ scaled (F64.sub (S754_finite false ma ea) (S754_finite false mb eb)) = d.
Proof.
  intros Ba Bb d D0 D1.
  pose proof (bounded_inv _ _ Ba) as (Ea & _). pose proof (bounded_inv _ _ Bb) as (Eb & _).
  unfold F64.sub, SFsub, cond_Zopp.
  set (ez := Z.min ea eb) in *.
  assert (Hz : -1074 <= ez <= ea /\ ez <= eb /\ ez <= 971) by (unfold ez; lia).
  clearbody ez.
  destruct (shl_align_spec ma ea ez) as (A & _); [lia | ].
  destruct (shl_align_spec mb eb ez) as (B & _); [lia | ].
  rewrite A, B.
  assert (P : 0 < 2 ^ (ez + 1074)) by (apply Z.pow_pos_nonneg; lia).
  assert (Ds : d = (Zpos ma * 2 ^ (ea - ez) - Zpos mb * 2 ^ (eb - ez)) * 2 ^ (ez + 1074)).
  { unfold d. rewrite (scaled_split ma ea ez), (scaled_split mb eb ez) by lia. ring. }
  clearbody d.
  destruct (Zpos ma * 2 ^ (ea - ez) - Zpos mb * 2 ^ (eb - ez)) as [ | p | p].
  - simpl binary_normalize. split; [repeat split | ]. simpl. lia.
  - simpl binary_normalize.
    destruct (binary_round_small false p ez) as (m' & e' & R & Bd & V); [lia | nia | ].
    rewrite R. split; [repeat split; assumption | ].
    unfold scaled, cond_Zopp. lia.
  - exfalso. assert (Zneg p * 2 ^ (ez + 1074) < 0) by (apply Z.mul_neg_pos; lia). lia.
Qed.

Lemma SEND_INTERVAL_value : SEND_INTERVAL = S754_finite false 7205759403792794 (-56).
Proof. vm_compute. reflexivity. Qed.

Lemma SEND_INTERVAL_nonneg_reading : nonneg_reading SEND_INTERVAL.
Proof. rewrite SEND_INTERVAL_value. repeat split. Qed.

(** A double in normal form that is at least [SEND_INTERVAL] has an
    exponent of at least -56. *)
Lemma exponent_above_interval (m : positive) (e : Z) :
  bounded F64.prec F64.emax m e = true ->
  scaled SEND_INTERVAL <= Zpos m * 2 ^ (e + 1074) ->
  -56 <= e.
Proof.
  intros Bd H. apply bounded_inv in Bd. destruct Bd as (He & Hm & _).
  rewrite SEND_INTERVAL_value in H. unfold scaled, cond_Zopp in H.
  change (-56 + 1074) with 1018 in H.
  destruct (Z_lt_le_dec e (-56)) as [N | ]; [exfalso | assumption].
  assert (2 ^ (e + 1074) <= 2 ^ 1017) by (apply Z.pow_le_mono_r; lia).
  assert (0 < 2 ^ (e + 1074)) by (apply Z.pow_pos_nonneg; lia).
  assert (Zpos m * 2 ^ (e + 1074) < 2 ^ 53 * 2 ^ 1017) by nia.
  assert (2 ^ 53 * 2 ^ 1017 <= 7205759403792794 * 2 ^ 1018) by (vm_compute; discriminate).
  lia.
Qed.

(** The gate in exact terms: when it lets a tick through, the reading is at
    least one interval after the stored timestamp. *)
Lemma pow_units_pos (e : Z) : -1074 <= e -> 0 < 2 ^ (e + 1074).
Proof. intros. apply Z.pow_pos_nonneg; lia. Qed.

Lemma open_gate_is_an_interval_later (t last : F64.float) :
  reading t -> timer_ok last -> last = F64.zero \/ scaled last <= scaled t ->
  F64.ltb (F64.sub t last) SEND_INTERVAL = false ->
  nonneg_reading t /\ scaled SEND_INTERVAL <= scaled t - scaled last.
Proof.
  intros (Ft & Vt) T Mono G.
  assert (P : 0 < scaled SEND_INTERVAL) by (rewrite SEND_INTERVAL_value; reflexivity).
  pose proof G as G'. rewrite SEND_INTERVAL_value in G'.
  destruct T as [-> | (Rl & Il)].
  - destruct t as [s | s | | s m e]; try discriminate Ft.
    + destruct s; discriminate G'.
    + destruct s; [discriminate G' | ].
      change (F64.sub (S754_finite false m e) F64.zero) with (S754_finite false m e) in G.
      assert (R : nonneg_reading (S754_finite false m e)) by (repeat split; assumption).
      split; [exact R | ].
      destruct (Z_lt_le_dec (scaled (S754_finite false m e)) (scaled SEND_INTERVAL)) as [N | N].
      * apply (ltb_scaled _ _ R SEND_INTERVAL_nonneg_reading) in N. congruence.
      * change (scaled F64.zero) with 0. lia.
  - destruct Mono as [-> | Mono]; [change (scaled F64.zero) with 0 in Il; lia | ].
    destruct Rl as (Fl & Vl & Sl).
    destruct last as [sl | sl | | sl ml el]; try discriminate Fl.
    { change (scaled (S754_zero sl)) with 0 in Il. lia. }
    simpl in Sl. subst sl.
    rewrite (scaled_finite_pos ml el) in Il, Mono.
    pose proof (bounded_inv _ _ Vl) as (El0 & _).
    pose proof (pow_units_pos el ltac:(lia)) as Pl.
    destruct t as [s | s | | s m e]; try discriminate Ft.
    { change (scaled (S754_zero s)) with 0 in Mono. lia. }
    pose proof (bounded_inv _ _ Vt) as (Et0 & _).
    pose proof (pow_units_pos e ltac:(lia)) as Pt.
    destruct s.
    { exfalso. change (scaled (S754_finite true m e)) with (Zneg m * 2 ^ (e + 1074)) in Mono.
      assert (Zneg m * 2 ^ (e + 1074) < 0) by (apply Z.mul_neg_pos; lia). lia. }
    assert (R : nonneg_reading (S754_finite false m e)) by (repeat split; assumption).
    split; [exact R | ].
    rewrite (scaled_finite_pos m e) in *. rewrite (scaled_finite_pos ml el).
    destruct (Z_lt_le_dec (Zpos m * 2 ^ (e + 1074) - Zpos ml * 2 ^ (el + 1074))
                          (scaled SEND_INTERVAL)) as [N | N]; [exfalso | exact N].
    pose proof (exponent_above_interval ml el Vl Il) as El.
    assert (E : -56 <= e) by (apply (exponent_above_interval m e Vt); lia).
    destruct (sub_exact m ml e el Vt Vl) as (Rr & Vr); [lia | | ].
    + assert (2 ^ 1018 <= 2 ^ (Z.min e el + 1074)) by (apply Z.pow_le_mono_r; lia).
      assert (scaled SEND_INTERVAL < 2 ^ 53 * 2 ^ 1018)
        by (rewrite SEND_INTERVAL_value; reflexivity).
      assert (0 < 2 ^ 53) by reflexivity.
      hide_pow. nia.
    + rewrite <- Vr in N.
      apply (ltb_scaled _ _ Rr SEND_INTERVAL_nonneg_reading) in N. congruence.
Qed.

(** *** Values as fractions and as integers *)

Lemma Qle_same_den (a b : Z) (d : positive) : (a # d <= b # d)%Q <-> a <= b.
Proof.
  unfold Qle. cbn [Qnum Qden].
  split; intros H; [apply (Z.mul_le_mono_pos_r _ _ (Zpos d)) | apply Z.mul_le_mono_nonneg_r]; lia.
Qed.

Lemma Qminus_same_den (a b : Z) (d : positive) : ((b # d) - (a # d) == (b - a) # d)%Q.
Proof.
  unfold Qeq, Qminus, Qplus, Qopp. cbn [Qnum Qden].
  rewrite Pos2Z.inj_mul. ring.
Qed.

Lemma unit_den_value : Zpos unit_den = 2 ^ 1074.
Proof. unfold unit_den. now rewrite Pos2Z.inj_pow. Qed.

Lemma F2Q_scaled (x : F64.float) :
  F64.valid x = true -> (F2Q x == scaled x # unit_den)%Q.
Proof.
  destruct x as [s | s | | s m e]; try reflexivity.
  intros V. apply bounded_inv in V. destruct V as (He & _).
  unfold Qeq, scaled. 
  destruct e as [ | p | p]; unfold F2Q; cbn [Qnum Qden inject_Z].
  - rewrite unit_den_value. change (0 + 1074) with 1074. rewrite Z.pow_0_r. ring.
  - rewrite unit_den_value.
    rewrite (Z.pow_add_r 2 (Zpos p) 1074) by lia. ring.
  - rewrite unit_den_value, Pos2Z.inj_pow.
    replace 1074 with ((Zneg p + 1074) + Zpos p) at 1 by lia.
    rewrite (Z.pow_add_r 2 (Zneg p + 1074) (Zpos p)) by lia. ring.
Qed.

Lemma F2Q_le_scaled (a b : F64.float) :
  F64.valid a = true -> F64.valid b = true ->
  (F2Q a <= F2Q b)%Q <-> scaled a <= scaled b.
Proof.
  intros Va Vb. rewrite (F2Q_scaled a Va), (F2Q_scaled b Vb). apply Qle_same_den.
Qed.

Lemma F2Q_apart_scaled (c a b : F64.float) :
  F64.valid a = true -> F64.valid b = true -> F64.valid c = true ->
  (F2Q c <= F2Q b - F2Q a)%Q <-> scaled c <= scaled b - scaled a.
Proof.
  intros Va Vb Vc.
  rewrite (F2Q_scaled a Va), (F2Q_scaled b Vb), (F2Q_scaled c Vc), Qminus_same_den.
  apply Qle_same_den.
Qed.

(** *** The spacing of the sends *)

Lemma timer_ok_nonneg (last : F64.float) : timer_ok last -> 0 <= scaled last.
Proof.
  intros [-> | (_ & H)]; [change (scaled F64.zero) with 0; lia | ].
  assert (0 < scaled SEND_INTERVAL) by (rewrite SEND_INTERVAL_value; reflexivity). lia.
Qed.

Lemma send_times_spaced (ticks : list host) :
  forall st : state,
    timer_ok (_last_send st) ->
    Forall reading (map time_time ticks) ->
    StronglySorted not_before (map time_time ticks) ->
    Forall (fun t => _last_send st = F64.zero \/ not_before (_last_send st) t)
           (map time_time ticks) ->
    Forall (spaced (_last_send st)) (send_times st ticks)
    /\ Forall nonneg_reading (send_times st ticks)
    /\ StronglySorted spaced (send_times st ticks).
Proof.
  induction ticks as [ | h rest IH]; intros st T R M B.
  - cbn [send_times]. repeat constructor.
  - cbn [map] in R, M, B.
    inversion R as [ | ? ? Rh Rr]; subst.
    apply StronglySorted_inv in M. destruct M as (Mr & Mh).
    inversion B as [ | ? ? Bh Br]; subst.
    cbn [send_times].
    destruct (F64.ltb (F64.sub (time_time h) (_last_send st)) SEND_INTERVAL) eqn:G.
    + rewrite (acUpdate_gated h st G). cbn [sent trace globals existsb app].
      apply IH; assumption.
    + destruct (open_gate_is_an_interval_later _ _ Rh T Bh G) as (Nt & Sp).
      pose proof (timer_ok_nonneg _ T) as L0.
      assert (P : 0 < scaled SEND_INTERVAL) by (rewrite SEND_INTERVAL_value; reflexivity).
      rewrite (acUpdate_stamps h st G).
      destruct (IH {| _last_send := time_time h; _label := _label st |})
        as (F1 & F2 & F3); try assumption.
      { right. split; [exact Nt | ]. cbn [_last_send]. lia. }
      { cbn [_last_send]. apply Forall_impl with (2 := Mh). intros; now right. }
      cbn [_last_send] in F1.
      assert (F1' : Forall (spaced (_last_send st))
                      (send_times {| _last_send := time_time h; _label := _label st |} rest)).
      { apply Forall_impl with (2 := F1). unfold spaced. intros; lia. }
      destruct (sent (acUpdate h st)); cbn [app].
      * repeat split; constructor; assumption.
      * repeat split; assumption.
Qed.

Lemma StronglySorted_nth_error {A : Type} (R : A -> A -> Prop) (l : list A) :
  StronglySorted R l ->
  forall (i j : nat) (a b : A),
    (i < j)%nat -> nth_error l i = Some a -> nth_error l j = Some b -> R a b.
Proof.
  induction 1 as [ | x l S IH F]; intros i j a b L Ha Hb.
  - destruct i; discriminate.
  - destruct j as [ | j]; [lia | ]. simpl in Hb.
    destruct i as [ | i].
    + injection Ha as <-. rewrite Forall_forall in F. apply F.
      apply nth_error_In with (1 := Hb).
    + simpl in Ha. apply (IH i j); [lia | assumption | assumption].
Qed.

Lemma sorted_readings (ts : list F64.float) :
  Forall reading ts -> Sorted (fun a b => (F2Q a <= F2Q b)%Q) ts ->
  StronglySorted not_before ts.
Proof.
  intros R S.
  apply Sorted_StronglySorted; [intros a b c; unfold not_before; lia | ].
  induction S as [ | a l S IH H]; constructor.
  - apply IH. now inversion R.
  - inversion R as [ | ? ? (_ & Va) Rl]; subst.
    destruct H as [ | b l H]; constructor.
    inversion Rl as [ | ? ? (_ & Vb) _]; subst.
    now apply F2Q_le_scaled.
Qed.

Lemma interval_is_100ms : (1 # 10 <= F2Q SEND_INTERVAL)%Q.
Proof. vm_compute. discriminate. Qed.

(** C4.  From the start of the program (timestamp 0.0), over any sequence
    of ticks with any behaviour of the host, if the clock readings are
    finite and never go back, then any two datagrams are sent at readings
    that are at least [SEND_INTERVAL], hence at least 100 ms, apart. *)
Theorem sends_are_an_interval_apart
        (label : option Z) (ticks : list host) (i j : nat) (t1 t2 : F64.float) :
  Forall reading (map time_time ticks) ->
  monotone (map time_time ticks) ->
  (i < j)%nat ->
  nth_error (send_times {| _last_send := F64.zero; _label := label |} ticks) i = Some t1 ->
  nth_error (send_times {| _last_send := F64.zero; _label := label |} ticks) j = Some t2 ->
  (F2Q SEND_INTERVAL <= F2Q t2 - F2Q t1)%Q /\ (1 # 10 <= F2Q t2 - F2Q t1)%Q.
Proof.
  intros R M L H1 H2.
  destruct (send_times_spaced ticks {| _last_send := F64.zero; _label := label |})
    as (_ & N & S).
  - now left.
  - exact R.
  - apply sorted_readings; assumption.
  - apply Forall_forall. intros; now left.
  - pose proof (StronglySorted_nth_error spaced _ S i j t1 t2 L H1 H2) as Sp.
    rewrite Forall_forall in N.
    destruct (N t1 (nth_error_In _ _ H1)) as (_ & V1 & _).
    destruct (N t2 (nth_error_In _ _ H2)) as (_ & V2 & _).
    assert (Q : (F2Q SEND_INTERVAL <= F2Q t2 - F2Q t1)%Q).
    { apply F2Q_apart_scaled; try assumption.
      rewrite SEND_INTERVAL_value. reflexivity. }
    split; [exact Q | ].
    apply Qle_trans with (2 := Q). exact interval_is_100ms.
Qed.

Lemma sends_are_an_interval_apart_witness :
  (F2Q SEND_INTERVAL <= F2Q (F64.lit 2 1) - F2Q (F64.lit 1 1))%Q
  /\ (1 # 10 <= F2Q (F64.lit 2 1) - F2Q (F64.lit 1 1))%Q.
Proof.
  apply (sends_are_an_interval_apart (Some 7)
           (scenario_host (F64.lit 5 2)
            :: scenario_host (F64.lit 1 1)
            :: fail_channel Gas host_down (scenario_host (F64.lit 15 2))
            :: scenario_host (F64.lit 2 1)
            :: scenario_host (F64.lit 25 2) :: nil)
           0%nat 1%nat).
  - repeat constructor.
  - repeat constructor; vm_compute; discriminate.
  - lia.
  - vm_compute. reflexivity.
  - vm_compute. reflexivity.
Defined.

(** *** Rounding of values that are doubles *)

(** Shifting out zero bits leaves no round or sticky bit. *)
Lemma iter_shr_1_zeros (k : positive) :
  forall m : positive,
    iter_pos shr_1 k {| shr_m := Zpos (Pos.iter xO m k); shr_r := false; shr_s := false |}
    = {| shr_m := Zpos m; shr_r := false; shr_s := false |}.
Proof.
  induction k as [k IH | k IH | ]; intros m; simpl.
  - rewrite IH, IH. reflexivity.
  - rewrite IH, IH. reflexivity.
  - reflexivity.
Qed.

(** An integer whose low bits are zero, at an exponent below the normal
    form of its value, is rounded to that normal form. *)
Lemma binary_round_aux_exact (s : bool) (m' : positive) (e e' : Z) :
  bounded F64.prec F64.emax m' e' = true -> e <= e' ->
  binary_round_aux F64.prec F64.emax s (Zpos m' * 2 ^ (e' - e)) e loc_Exact
  = S754_finite s m' e'.
Proof.
  intros Bd Le.
  pose proof Bd as Bd'. unfold bounded, canonical_mantissa in Bd'.
  apply andb_true_iff in Bd'. destruct Bd' as [C B].
  apply Z.eqb_eq in C. apply Z.leb_le in B. change (F64.emax - F64.prec) with 971 in B.
  destruct (Z.eq_dec e e') as [-> | N].
  - rewrite Z.sub_diag, Z.pow_0_r, Z.mul_1_r.
    apply binary_round_aux_canonical; assumption.
  - assert (K : exists k, e' - e = Zpos k).
    { destruct (e' - e) as [ | k | k] eqn:D; try lia. now exists k. }
    destruct K as (k & K). rewrite K.
    assert (M : Zpos m' * 2 ^ Zpos k = Zpos (Pos.iter xO m' k)).
    { change (Pos.iter xO m' k) with (shift_pos k m').
      rewrite shift_pos_correct, Z.pow_pos_fold. ring. }
    rewrite M.
    unfold binary_round_aux, shr_fexp. simpl Zdigits2. simpl shr_record_of_loc.
    rewrite digits2_pos_shift.
    replace (Zpos (digits2_pos m') + Zpos k + e) with (Zpos (digits2_pos m') + e') by lia.
    rewrite C, K. simpl shr. rewrite iter_shr_1_zeros. cbv beta iota.
    simpl round_nearest_even. simpl Zdigits2. simpl shr_record_of_loc.
    replace (e + Zpos k) with e' by lia.
    rewrite C, Z.sub_diag. simpl shr. cbv beta iota. simpl shr_m.
    change (F64.emax - F64.prec) with 971.
    assert (L : (e' <=? 971) = true) by (apply Z.leb_le; lia).
    now rewrite L.
Qed.

(** Rounding depends on the value alone: an integer at any exponent whose
    value is that of a double in normal form is rounded to that double. *)
Lemma binary_round_value (s : bool) (m m' : positive) (e e' : Z) :
  bounded F64.prec F64.emax m' e' = true -> -1074 <= e ->
  Zpos m * 2 ^ (e + 1074) = Zpos m' * 2 ^ (e' + 1074) ->
  binary_round F64.prec F64.emax s m e = S754_finite s m' e'.
Proof.
  intros Bd He V.
  pose proof Bd as Bd'. unfold bounded, canonical_mantissa in Bd'.
  apply andb_true_iff in Bd'. destruct Bd' as [C B].
  apply Z.eqb_eq in C. apply Z.leb_le in B. change (F64.emax - F64.prec) with 971 in B.
  pose proof (bounded_inv _ _ Bd) as (He' & _).
  unfold binary_round.
  destruct (Z_le_gt_dec e' e) as [Le | Gt].
  - (* the normal form is a left shift of the input *)
    assert (M : Zpos m' = Zpos m * 2 ^ (e - e')).
    { rewrite (scaled_split m e e') in V by lia.
      apply Z.mul_cancel_r in V; [lia | ].
      apply Z.pow_nonzero; lia. }
    destruct (shl_align_spec m e e' Le) as (V' & Sn & Dg).
    assert (D : Zpos (digits2_pos m) + e = Zpos (digits2_pos m') + e').
    { rewrite <- M in V'. injection V' as V'. rewrite <- V' in *. lia. }
    rewrite D, C.
    destruct (shl_align m e e') as [mz ez]. cbn [fst snd] in V', Sn, Dg. subst ez.
    rewrite <- M in V'. injection V' as ->.
    apply binary_round_aux_canonical; assumption.
  - (* the input is a left shift of the normal form *)
    assert (M : Zpos m = Zpos m' * 2 ^ (e' - e)).
    { rewrite (scaled_split m' e' e) in V by lia.
      apply Z.mul_cancel_r in V; [lia | ].
      apply Z.pow_nonzero; lia. }
    assert (D : Zpos (digits2_pos m) + e = Zpos (digits2_pos m') + e').
    { assert (K : exists k, e' - e = Zpos k).
      { destruct (e' - e) as [ | k | k] eqn:D; try lia. now exists k. }
      destruct K as (k & K). rewrite K in M.
      assert (m = Pos.iter xO m' k) as ->.
      { apply Pos2Z.inj. rewrite M. change (Pos.iter xO m' k) with (shift_pos k m').
        rewrite shift_pos_correct, Z.pow_pos_fold. ring. }
      rewrite digits2_pos_shift. lia. }
    rewrite D, C.
    unfold shl_align.
    destruct (e' - e) as [ | k | k] eqn:K; try lia.
    rewrite M, <- K. apply binary_round_aux_exact; [assumption | lia].
Qed.

(** A double in normal form is the rounding of itself. *)
Lemma binary_round_bounded (s : bool) (m : positive) (e : Z) :
  bounded F64.prec F64.emax m e = true ->
  binary_round F64.prec F64.emax s m e = S754_finite s m e.
Proof.
  intros Bd. apply binary_round_value; [assumption | | reflexivity].
  apply bounded_inv in Bd. lia.
Qed.

(** The normal form of a value is unique. *)
Lemma bounded_unique (m1 m2 : positive) (e1 e2 : Z) :
  bounded F64.prec F64.emax m1 e1 = true -> bounded F64.prec F64.emax m2 e2 = true ->
  Zpos m1 * 2 ^ (e1 + 1074) = Zpos m2 * 2 ^ (e2 + 1074) ->
  m1 = m2 /\ e1 = e2.
Proof.
  intros B1 B2 V.
  pose proof (binary_round_bounded false m1 e1 B1) as R1.
  rewrite (binary_round_value false m1 m2 e1 e2 B2) in R1; [ | apply bounded_inv in B1; lia | exact V].
  injection R1 as -> ->. split; reflexivity.
Qed.

(** A positive integer of at most 53 bits at an exponent in range has a
    normal form, and any other way of writing its value rounds to it. *)
Lemma binary_round_fits (s : bool) (m J : positive) (e a : Z) :
  -1074 <= e -> -1074 <= a <= 971 -> Zpos J < 2 ^ 53 ->
  Zpos m * 2 ^ (e + 1074) = Zpos J * 2 ^ (a + 1074) ->
  exists m' e',
    binary_round F64.prec F64.emax s m e = S754_finite s m' e'
    /\ bounded F64.prec F64.emax m' e' = true
    /\ Zpos m' * 2 ^ (e' + 1074) = Zpos m * 2 ^ (e + 1074).
Proof.
  intros He Ha HJ V.
  destruct (binary_round_small s J a Ha HJ) as (m' & e' & _ & Bd & V').
  exists m', e'. split; [ | split; [exact Bd | lia]].
  apply binary_round_value; [assumption | assumption | lia].
Qed.

(** *** Doubles that stand for a given value *)

Lemma represents_zero : represents F64.zero 0.
Proof. repeat split. Qed.

Lemma represents_finite (m : positive) (e : Z) :
  bounded F64.prec F64.emax m e = true ->
  represents (S754_finite false m e) (Zpos m * 2 ^ (e + 1074)).
Proof. intros Bd. repeat split. exact Bd. Qed.

Lemma represents_nonneg (x : F64.float) (N : Z) : represents x N -> 0 <= N.
Proof.
  intros ((F & V & S) & <-).
  destruct x as [s | s | | s m e]; try discriminate F; cbn [F64.signbit] in S; subst s.
  - change (scaled (S754_zero false)) with 0. lia.
  - apply bounded_inv in V. pose proof (pow_units_pos e ltac:(lia)).
    rewrite scaled_finite_pos. nia.
Qed.

Lemma represents_zero_inv (x : F64.float) : represents x 0 -> x = F64.zero.
Proof.
  intros ((F & V & S) & E).
  destruct x as [s | s | | s m e]; try discriminate F; cbn [F64.signbit] in S; subst s.
  - reflexivity.
  - exfalso. apply bounded_inv in V. pose proof (pow_units_pos e ltac:(lia)).
    rewrite scaled_finite_pos in E. nia.
Qed.

Lemma represents_pos_inv (x : F64.float) (N : Z) :
  represents x N -> 0 < N ->
  exists m e, x = S754_finite false m e
              /\ bounded F64.prec F64.emax m e = true
              /\ Zpos m * 2 ^ (e + 1074) = N.
Proof.
  intros ((F & V & S) & E) P.
  destruct x as [s | s | | s m e]; try discriminate F; cbn [F64.signbit] in S; subst s.
  - change (scaled (S754_zero false)) with 0 in E. lia.
  - exists m, e. repeat split; assumption.
Qed.

Lemma represents_unique (x y : F64.float) (N : Z) :
  represents x N -> represents y N -> x = y.
Proof.
  intros X Y. pose proof (represents_nonneg x N X) as P.
  destruct (Z.eq_dec N 0) as [-> | NZ].
  - now rewrite (represents_zero_inv x X), (represents_zero_inv y Y).
  - destruct (represents_pos_inv x N X) as (m1 & e1 & -> & B1 & V1); [lia | ].
    destruct (represents_pos_inv y N Y) as (m2 & e2 & -> & B2 & V2); [lia | ].
    destruct (bounded_unique m1 m2 e1 e2 B1 B2) as (-> & ->); [lia | reflexivity].
Qed.

(** Normalizing an integer at an exponent gives the double of its value,
    when the value is one. *)
Lemma normalize_represents (z e : Z) :
  -1074 <= e -> 0 <= z -> fits (z * 2 ^ (e + 1074)) ->
  represents (binary_normalize F64.prec F64.emax z e false) (z * 2 ^ (e + 1074)).
Proof.
  intros He Hz F. pose proof (pow_units_pos e He) as P.
  destruct z as [ | p | p]; [exact represents_zero | | lia].
  destruct F as [F | (J & c & F & HJ & Hc)]; [nia | ].
  simpl binary_normalize.
  destruct (binary_round_fits false p J e c He Hc HJ F) as (m' & e' & R & Bd & V).
  rewrite R, <- V. now apply represents_finite.
Qed.

(** [float(z)] is exact when [z] is a double. *)
Lemma of_Z_represents (z : Z) :
  0 <= z -> fits (z * 2 ^ 1074) -> represents (F64.of_Z z) (z * 2 ^ 1074).
Proof. intros Hz F. apply (normalize_represents z 0); [lia | assumption | exact F]. Qed.

(** A difference that is a double is computed exactly. *)
Lemma sub_represents (a b : F64.float) (Na Nb : Z) :
  represents a Na -> represents b Nb -> Nb <= Na -> fits (Na - Nb) ->
  represents (F64.sub a b) (Na - Nb).
Proof.
  intros A B L F.
  pose proof (represents_nonneg b Nb B) as Pb.
  destruct (Z.eq_dec Nb 0) as [-> | NZb].
  - rewrite (represents_zero_inv b B), Z.sub_0_r.
    destruct A as ((Fa & Va & Sa) & Ea).
    destruct a as [s | s | | s m e]; try discriminate Fa; cbn [F64.signbit] in Sa; subst s.
    + exact (conj (conj Fa (conj Va eq_refl)) Ea).
    + exact (conj (conj Fa (conj Va eq_refl)) Ea).
  - destruct (represents_pos_inv b Nb B) as (mb & eb & -> & Bb & Vb); [lia | ].
    destruct (represents_pos_inv a Na A) as (ma & ea & -> & Ba & Va); [lia | ].
    pose proof (bounded_inv _ _ Ba) as (Ea & _). pose proof (bounded_inv _ _ Bb) as (Eb & _).
    unfold F64.sub, SFsub, cond_Zopp.
    set (ez := Z.min ea eb).
    assert (Hz : -1074 <= ez <= ea /\ ez <= eb) by (unfold ez; lia).
    clearbody ez.
    destruct (shl_align_spec ma ea ez) as (A' & _); [lia | ].
    destruct (shl_align_spec mb eb ez) as (B' & _); [lia | ].
    rewrite A', B'.
    pose proof (pow_units_pos ez) as P.
    assert (Ds : Na - Nb = (Zpos ma * 2 ^ (ea - ez) - Zpos mb * 2 ^ (eb - ez)) * 2 ^ (ez + 1074)).
    { rewrite <- Va, <- Vb, (scaled_split ma ea ez), (scaled_split mb eb ez) by lia. ring. }
    rewrite Ds in *.
    apply normalize_represents; [lia | nia | exact F].
Qed.

(** *** Division by 60 *)

Lemma of_Z_60 : F64.of_Z 60 = S754_finite false 8444249301319680 (-47).
Proof. vm_compute. reflexivity. Qed.

Lemma sixty_units : 8444249301319680 * 2 ^ (-47 + 1074) = 60 * 2 ^ 1074.
Proof. vm_compute. reflexivity. Qed.

Lemma sixty_bounded : bounded F64.prec F64.emax 8444249301319680 (-47) = true.
Proof. vm_compute. reflexivity. Qed.

(** [fmod(f, 60.0)] is the exact remainder. *)
Lemma fmod60_represents (m : positive) (e : Z) :
  bounded F64.prec F64.emax m e = true -> e <= 0 ->
  represents (F64.fmod (S754_finite false m e) (S754_finite false 8444249301319680 (-47)))
             ((Zpos m * 2 ^ (e + 1074)) mod (60 * 2 ^ 1074)).
Proof.
  intros Bd He. pose proof (bounded_inv _ _ Bd) as (Er & Hm & _).
  unfold F64.fmod, cond_Zopp.
  set (e0 := Z.min e (-47)).
  assert (H0 : -1074 <= e0 <= e /\ e0 <= -47) by (unfold e0; lia).
  assert (Hc : e0 = e \/ e0 = -47) by (unfold e0; lia).
  clearbody e0.
  pose proof (pow_units_pos e0) as P.
  set (X := Zpos m * 2 ^ (e - e0)).
  set (Y := 8444249301319680 * 2 ^ (-47 - e0)).
  assert (PY : 0 < Y).
  { unfold Y. apply Z.mul_pos_pos; [lia | apply Z.pow_pos_nonneg; lia]. }
  assert (EX : Zpos m * 2 ^ (e + 1074) = X * 2 ^ (e0 + 1074)).
  { unfold X. apply scaled_split. lia. }
  assert (EY : 60 * 2 ^ 1074 = Y * 2 ^ (e0 + 1074)).
  { unfold Y. rewrite <- sixty_units.
    rewrite (scaled_split 8444249301319680 (-47) e0) by lia. reflexivity. }
  rewrite EX, EY, Z.mul_mod_distr_r by lia.
  pose proof (Z.mod_pos_bound X Y PY) as Rb.
  apply normalize_represents; [lia | lia | ].
  destruct (X mod Y) as [ | r | r] eqn:R; [now left | right | lia].
  exists r, e0. split; [reflexivity | ]. split; [ | lia].
  destruct Hc as [-> | ->].
  - assert (X mod Y <= X) by (apply Z.mod_le; unfold X; [ | lia];
      apply Z.mul_nonneg_nonneg; [lia | apply Z.pow_nonneg; lia]).
    unfold X in *. rewrite Z.sub_diag, Z.pow_0_r, Z.mul_1_r in *. lia.
  - unfold Y in Rb. change (-47 - -47) with 0 in Rb. rewrite Z.pow_0_r in Rb.
    assert (8444249301319680 * 1 < 2 ^ 53) by reflexivity. lia.
Qed.

(** The sign of a rounded result is the sign that was asked for. *)
Lemma binary_round_aux_signbit (m e : Z) (l : location) :
  F64.signbit (binary_round_aux F64.prec F64.emax false m e l) = false.
Proof.
  unfold binary_round_aux.
  destruct (shr_fexp F64.prec F64.emax m e l) as [mrs' e'].
  destruct (shr_fexp F64.prec F64.emax _ e' loc_Exact) as [mrs'' e''].
  destruct (shr_m mrs''); [reflexivity | | reflexivity].
  destruct (e'' <=? F64.emax - F64.prec); reflexivity.
Qed.

Lemma div_signbit (ma mb : positive) (ea eb : Z) :
  F64.signbit (F64.div (S754_finite false ma ea) (S754_finite false mb eb)) = false.
Proof.
  unfold F64.div, SFdiv.
  destruct (SFdiv_core_binary F64.prec F64.emax (Zpos ma) ea (Zpos mb) eb) as [[mz ez] lz].
  apply binary_round_aux_signbit.
Qed.

(** The number of digits of a value bounds it. *)
Lemma units_lt_pow (m : positive) (e : Z) :
  -1074 <= e -> Zpos m * 2 ^ (e + 1074) < 2 ^ (Zpos (digits2_pos m) + e + 1074).
Proof.
  intros He. pose proof (digits2_pos_bounds m) as [_ U].
  pose proof (pow_units_pos e He).
  replace (Zpos (digits2_pos m) + e + 1074) with (Zpos (digits2_pos m) + (e + 1074)) by lia.
  rewrite (Z.pow_add_r 2 (Zpos (digits2_pos m)) (e + 1074)) by lia. hide_pow. nia.
Qed.

Lemma pow_le_units (m : positive) (e : Z) :
  -1074 <= e -> 2 ^ (Zpos (digits2_pos m) - 1 + e + 1074) <= Zpos m * 2 ^ (e + 1074).
Proof.
  intros He. pose proof (digits2_pos_bounds m) as [L _].
  pose proof (pow_units_pos e He).
  replace (Zpos (digits2_pos m) - 1 + e + 1074)
    with ((Zpos (digits2_pos m) - 1) + (e + 1074)) by lia.
  rewrite (Z.pow_add_r 2 (Zpos (digits2_pos m) - 1) (e + 1074)) by lia. hide_pow. nia.
Qed.

(** A multiple of 60 that is a double, divided by 60.0, gives the quotient
    exactly. *)
Lemma div60_represents (a : F64.float) (k : Z) :
  represents a (k * (60 * 2 ^ 1074)) -> 0 <= k < 2 ^ 53 ->
  represents (F64.div a (S754_finite false 8444249301319680 (-47))) (k * 2 ^ 1074).
Proof.
  intros A Hk.
  assert (U : 0 < 2 ^ 1074) by (apply Z.pow_pos_nonneg; lia).
  destruct (Z.eq_dec k 0) as [-> | NZ].
  - rewrite Z.mul_0_l in *. rewrite (represents_zero_inv a A). exact represents_zero.
  - destruct (represents_pos_inv a _ A) as (m1 & e1 & -> & B1 & V1); [nia | ].
    pose proof (bounded_inv _ _ B1) as (E1 & _).
    (* the normal form of the quotient *)
    destruct k as [ | kp | kp]; try lia.
    destruct (binary_round_small false kp 0) as (mk & ek & _ & Bk & Vk); [lia | lia | ].
    change (0 + 1074) with 1074 in Vk.
    pose proof Bk as Bk'. unfold bounded, canonical_mantissa in Bk'.
    apply andb_true_iff in Bk'. destruct Bk' as [Ck _]. apply Z.eqb_eq in Ck.
    pose proof (bounded_inv _ _ Bk) as (Ek & _).
    rewrite <- Vk.
    assert (G : F64.div (S754_finite false m1 e1) (S754_finite false 8444249301319680 (-47))
                = S754_finite false mk ek); [ | rewrite G; now apply represents_finite].
    unfold F64.div, SFdiv, SFdiv_core_binary. cbn [xorb Zdigits2].
    change (Zpos (digits2_pos 8444249301319680) + -47) with 6.
    set (e' := Z.min (fexp F64.prec F64.emax (Zpos (digits2_pos m1) + e1 - 6)) (e1 - -47)).
    (* the exponent of the division is not above that of the quotient *)
    assert (Mg : Zpos (digits2_pos m1) + e1 - 6 <= Zpos (digits2_pos mk) + ek).
    { pose proof (pow_le_units m1 e1 ltac:(lia)) as L1.
      pose proof (units_lt_pow mk ek ltac:(lia)) as Uk.
      rewrite V1 in L1. rewrite Vk in Uk.
      assert (2 ^ (Zpos (digits2_pos m1) - 1 + e1 + 1074)
              < 2 ^ (Zpos (digits2_pos mk) + ek + 1074 + 6)).
      { rewrite (Z.pow_add_r 2 (Zpos (digits2_pos mk) + ek + 1074) 6) by lia.
        change (2 ^ 6) with 64. nia. }
      apply Z.pow_lt_mono_r_iff in H; lia. }
    assert (He' : -1074 <= e' <= ek /\ e' <= e1 + 47).
    { unfold e', fexp, emin, F64.prec, F64.emax in *. lia. }
    clearbody e'.
    replace (e1 - -47 - e') with (e1 + 47 - e') by lia.
    assert (Q : match e1 + 47 - e' with
                | Zpos _ => Z.shiftl (Zpos m1) (e1 + 47 - e')
                | 0 => Zpos m1
                | Zneg _ => 0
                end = Zpos mk * 2 ^ (ek - e') * 8444249301319680).
    { assert (S : Zpos m1 * 2 ^ (e1 + 47 - e') = Zpos mk * 2 ^ (ek - e') * 8444249301319680).
      { pose proof (pow_units_pos e' ltac:(lia)) as P.
        apply (Z.mul_cancel_r _ _ (2 ^ (e' + 1074))); [lia | ].
        transitivity (Zpos m1 * 2 ^ (e1 + 1074) * 2 ^ 47).
        - rewrite <- !Z.mul_assoc, <- !Z.pow_add_r by lia. do 2 f_equal. lia.
        - rewrite V1.
          transitivity (Zpos mk * 2 ^ (ek + 1074) * (60 * 2 ^ 47)).
          + rewrite Vk. ring.
          + rewrite (scaled_split mk ek e') by lia.
            change (60 * 2 ^ 47) with 8444249301319680. ring. }
      rewrite <- S.
      destruct (e1 + 47 - e') as [ | s | s] eqn:Es; try lia.
      apply Z.shiftl_mul_pow2. lia. }
    rewrite Q.
    assert (DE : Z.div_eucl (Zpos mk * 2 ^ (ek - e') * 8444249301319680) 8444249301319680
                 = (Zpos mk * 2 ^ (ek - e'), 0)).
    { pose proof (Z.div_mul (Zpos mk * 2 ^ (ek - e')) 8444249301319680 ltac:(lia)) as Dv.
      pose proof (Z.mod_mul (Zpos mk * 2 ^ (ek - e')) 8444249301319680 ltac:(lia)) as Md.
      unfold Z.div in Dv. unfold Z.modulo in Md.
      destruct (Z.div_eucl _ _) as [q r]. cbn [fst snd] in *. now subst. }
    rewrite DE. cbv beta iota.
    change (new_location 8444249301319680 0) with loc_Exact.
    apply binary_round_aux_exact; [assumption | lia].
Qed.

(** *** Integral doubles *)

Lemma units_integral (m : positive) (p : positive) (k : Z) :
  Zpos p <= 1074 ->
  Zpos m * 2 ^ (Zneg p + 1074) = k * 2 ^ 1074 -> Zpos m = k * 2 ^ Zpos p.
Proof.
  intros Hp V.
  assert (S : 2 ^ 1074 = 2 ^ Zpos p * 2 ^ (Zneg p + 1074)).
  { rewrite <- Z.pow_add_r by lia. f_equal. lia. }
  rewrite S in V.
  apply (Z.mul_cancel_r _ _ (2 ^ (Zneg p + 1074))).
  - apply Z.pow_nonzero; lia.
  - rewrite V. ring.
Qed.

Lemma floor_integral (x : F64.float) (k : Z) :
  represents x (k * 2 ^ 1074) -> F64.floor x = x.
Proof.
  intros X.
  assert (U : 0 < 2 ^ 1074) by (apply Z.pow_pos_nonneg; lia).
  pose proof (represents_nonneg _ _ X) as P.
  destruct (Z.eq_dec k 0) as [-> | NZ].
  - rewrite Z.mul_0_l in X. now rewrite (represents_zero_inv x X).
  - destruct (represents_pos_inv x _ X) as (m & e & -> & Bd & V); [nia | ].
    pose proof (bounded_inv _ _ Bd) as (He & _).
    destruct e as [ | p | p]; try reflexivity.
    change (F64.floor (S754_finite false m (Zneg p)))
      with (binary_normalize F64.prec F64.emax (Zpos m / 2 ^ Zpos p) 0 false).
    pose proof (units_integral m p k ltac:(lia) V) as M.
    rewrite M, Z.div_mul by (apply Z.pow_nonzero; lia).
    destruct k as [ | kp | kp]; try lia.
    change (binary_normalize F64.prec F64.emax (Zpos kp) 0 false)
      with (binary_round F64.prec F64.emax false kp 0).
    apply binary_round_value; [assumption | lia | ].
    change (0 + 1074) with 1074. lia.
Qed.

Lemma trunc_integral (x : F64.float) (k : Z) :
  represents x (k * 2 ^ 1074) -> F64.trunc x = Some k.
Proof.
  intros X.
  assert (U : 0 < 2 ^ 1074) by (apply Z.pow_pos_nonneg; lia).
  pose proof (represents_nonneg _ _ X) as P.
  destruct (Z.eq_dec k 0) as [-> | NZ].
  - rewrite Z.mul_0_l in X. now rewrite (represents_zero_inv x X).
  - destruct (represents_pos_inv x _ X) as (m & e & -> & Bd & V); [nia | ].
    pose proof (bounded_inv _ _ Bd) as (He & _).
    unfold F64.trunc, cond_Zopp. f_equal.
    destruct e as [ | p | p].
    + change (0 + 1074) with 1074 in V. rewrite Z.pow_0_r. nia.
    + rewrite (Z.pow_add_r 2 (Zpos p) 1074) in V by lia. nia.
    + rewrite (units_integral m p k ltac:(lia) V).
      apply Z.div_mul. apply Z.pow_nonzero; lia.
Qed.

Lemma ltb_zero_nonneg (x : F64.float) : nonneg_reading x -> F64.ltb x F64.zero = false.
Proof.
  intros (F & V & S).
  destruct x as [s | s | | s m e]; try discriminate F; cbn [F64.signbit] in S; subst s;
    reflexivity.
Qed.

(** *** The quotient of a lap time by 60 *)

(** The whole minutes and the rest of a positive double below [2^53], in
    units of [2^-1074]. *)
Lemma minutes_fit (m : positive) (e : Z) :
  bounded F64.prec F64.emax m e = true -> e <= 0 ->
  let V := Zpos m * 2 ^ (e + 1074) in
  let W := 60 * 2 ^ 1074 in
  0 <= V / W < 2 ^ 53
  /\ fits (V / W * 2 ^ 1074) /\ fits (V / W * W) /\ fits (V mod W)
  /\ V = V / W * W + V mod W /\ 0 <= V mod W.
Proof.
  intros Bd He V W.
  pose proof (bounded_inv _ _ Bd) as (Er & Hm & _).
  pose proof (pow_units_pos e ltac:(lia)) as P.
  assert (U : 0 < 2 ^ 1074) by (apply Z.pow_pos_nonneg; lia).
  assert (PW : 0 < W) by (unfold W; lia).
  assert (N : 0 < 2 ^ (- e)) by (apply Z.pow_pos_nonneg; lia).
  assert (SU : 2 ^ 1074 = 2 ^ (- e) * 2 ^ (e + 1074)).
  { rewrite <- Z.pow_add_r by lia. f_equal. lia. }
  assert (PV : 0 <= V) by (unfold V; nia).
  pose proof (Z.div_mod V W ltac:(lia)) as DM.
  pose proof (Z.mod_pos_bound V W PW) as MB.
  assert (K0 : 0 <= V / W) by (apply Z.div_pos; lia).
  set (k := V / W) in *. set (r := V mod W) in *.
  (* the minutes, in the unit of the mantissa *)
  assert (KJ : k * (60 * 2 ^ (- e)) <= Zpos m).
  { apply (Z.mul_le_mono_pos_r _ _ (2 ^ (e + 1074))); [lia | ].
    replace (k * (60 * 2 ^ (- e)) * 2 ^ (e + 1074)) with (W * k)
      by (unfold W; rewrite SU; ring).
    fold V. lia. }
  assert (K53 : k < 2 ^ 53) by nia.
  assert (F1 : fits (k * 2 ^ 1074)).
  { destruct k as [ | kp | kp]; [now left | right | lia].
    exists kp, 0. repeat split; try lia. }
  assert (F2 : fits (k * W)).
  { destruct (k * (60 * 2 ^ (- e))) as [ | J | J] eqn:EJ; [left | right | nia].
    - unfold W. rewrite SU. nia.
    - exists J, e. repeat split; try lia.
      rewrite <- EJ. unfold W. rewrite SU. ring. }
  assert (F3 : fits r).
  { assert (RJ : r = (Zpos m - k * (60 * 2 ^ (- e))) * 2 ^ (e + 1074)).
    { replace ((Zpos m - k * (60 * 2 ^ (- e))) * 2 ^ (e + 1074)) with (V - W * k)
        by (unfold V, W; rewrite SU; ring).
      lia. }
    destruct (Zpos m - k * (60 * 2 ^ (- e))) as [ | J | J] eqn:EJ; [left; lia | right | nia].
    exists J, e. repeat split; try lia. }
  repeat split; try assumption; try lia.
Qed.

(** The floor division of the interpreter is exact for a positive double
    below [2^53] divided by 60. *)
Lemma floordiv60_represents (m : positive) (e : Z) :
  bounded F64.prec F64.emax m e = true -> e <= 0 ->
  represents (fst (Py.float_div_mod (S754_finite false m e)
                                    (S754_finite false 8444249301319680 (-47))))
             (Zpos m * 2 ^ (e + 1074) / (60 * 2 ^ 1074) * 2 ^ 1074).
Proof.
  intros Bd He.
  destruct (minutes_fit m e Bd He) as (Hk & F1 & F2 & F3 & DM & R0).
  pose proof (fmod60_represents m e Bd He) as M.
  set (V := Zpos m * 2 ^ (e + 1074)) in *. set (W := 60 * 2 ^ 1074) in *.
  set (k := V / W) in *. set (r := V mod W) in *.
  set (f := S754_finite false m e). set (w := S754_finite false 8444249301319680 (-47)).
  fold f w in M.
  assert (Fr : represents f V) by (apply represents_finite; assumption).
  assert (S : represents (F64.sub f (F64.fmod f w)) (k * W)).
  { replace (k * W) with (V - r) by lia.
    apply sub_represents; [assumption | assumption | lia | ].
    replace (V - r) with (k * W) by lia. exact F2. }
  assert (D : represents (F64.div (F64.sub f (F64.fmod f w)) w) (k * 2 ^ 1074)).
  { apply div60_represents; assumption. }
  unfold Py.float_div_mod.
  set (mod_ := F64.fmod f w) in *.
  set (div_ := F64.div (F64.sub f mod_) w) in *.
  assert (E1 : (if negb (F64.is_zero mod_)
                then if xorb (F64.ltb w F64.zero) (F64.ltb mod_ F64.zero)
                     then (F64.sub div_ (F64.of_Z 1), F64.add mod_ w)
                     else (div_, mod_)
                else (div_, F64.zero_with_sign_of w))
               = (div_, if negb (F64.is_zero mod_) then mod_ else F64.zero_with_sign_of w)).
  { destruct (negb (F64.is_zero mod_)); [ | reflexivity].
    rewrite (ltb_zero_nonneg mod_) by apply M.
    reflexivity. }
  rewrite E1. cbv beta iota. cbn [fst].
  destruct (F64.is_zero div_) eqn:Z; cbn [negb].
  - assert (Sg : F64.signbit (F64.div f w) = false) by apply div_signbit.
    unfold F64.zero_with_sign_of. rewrite Sg.
    destruct D as ((Fd & Vd & Sd) & Ed).
    destruct div_ as [s | s | | s md ed]; try discriminate Z.
    cbn [F64.signbit] in Sd. subst s. exact (conj (conj Fd (conj Vd eq_refl)) Ed).
  - rewrite (floor_integral div_ k D).
    assert (Z0 : F64.sub div_ div_ = F64.zero).
    { apply represents_zero_inv. replace 0 with (k * 2 ^ 1074 - k * 2 ^ 1074) by lia.
      apply sub_represents; [assumption | assumption | lia | ].
      rewrite Z.sub_diag. now left. }
    rewrite Z0.
    assert (H5 : F64.ltb (F64.lit 5 1) F64.zero = false) by (vm_compute; reflexivity).
    rewrite H5. exact D.
Qed.

(** *** The decimal rounding *)

Lemma round_half_even_scale (a b c : Z) :
  0 < b -> 0 < c -> round_half_even (a * c) (b * c) = round_half_even a b.
Proof.
  intros Hb Hc. unfold round_half_even.
  rewrite Z.div_mul_cancel_r, Z.mul_mod_distr_r by lia.
  replace (2 * (a mod b * c)) with (2 * (a mod b) * c) by ring.
  rewrite <- (Zmult_compare_compat_r (2 * (a mod b)) b c) by lia.
  reflexivity.
Qed.

Lemma round_half_even_exact (x d : Z) : 0 < d -> round_half_even (x * d) d = x.
Proof.
  intros Hd. unfold round_half_even.
  rewrite Z.div_mul, Z.mod_mul by lia.
  assert (C : (2 * 0 ?= d) = Lt) by (apply Z.compare_lt_iff; lia).
  now rewrite C.
Qed.

(** The rounding is a function of the fraction, not of how it is written. *)
Lemma round_half_even_fraction (n1 d1 n2 d2 : Z) :
  0 < d1 -> 0 < d2 -> n1 * d2 = n2 * d1 ->
  round_half_even (n1 * 1000) d1 = round_half_even (n2 * 1000) d2.
Proof.
  intros H1 H2 E.
  rewrite <- (round_half_even_scale (n1 * 1000) d1 d2) by assumption.
  rewrite <- (round_half_even_scale (n2 * 1000) d2 d1) by assumption.
  f_equal; [ | ring].
  replace (n1 * 1000 * d2) with (n1 * d2 * 1000) by ring. rewrite E. ring.
Qed.

(** ["%06.3f"] of a double that is not negative, from its value. *)
Lemma format_represents (x : F64.float) (N : Z) :
  represents x N ->
  format_06_3f x = zero_pad 6 "" (text3 (round_half_even (N * 1000) (2 ^ 1074))).
Proof.
  intros X.
  assert (U : 0 < 2 ^ 1074) by (apply Z.pow_pos_nonneg; lia).
  pose proof (represents_nonneg _ _ X) as P.
  destruct (Z.eq_dec N 0) as [-> | NZ].
  - rewrite (represents_zero_inv x X).
    change (0 * 1000) with (0 * 2 ^ 1074). rewrite round_half_even_exact by assumption.
    reflexivity.
  - destruct (represents_pos_inv x _ X) as (m & e & -> & Bd & V); [lia | ].
    pose proof (bounded_inv _ _ Bd) as (He & _).
    unfold format_06_3f.
    change (sign_text false) with "". do 2 f_equal.
    rewrite <- V. unfold thousandths.
    destruct e as [ | p | p].
    + change (0 + 1074) with 1074.
      replace (Zpos m * 2 ^ 1074 * 1000) with (Zpos m * 2 ^ 0 * 1000 * 2 ^ 1074) by (rewrite Z.pow_0_r; ring).
      now rewrite round_half_even_exact.
    + rewrite (Z.pow_add_r 2 (Zpos p) 1074) by lia.
      replace (Zpos m * (2 ^ Zpos p * 2 ^ 1074) * 1000)
        with (Zpos m * 2 ^ Zpos p * 1000 * 2 ^ 1074) by ring.
      now rewrite round_half_even_exact.
    + assert (Pp : 0 < 2 ^ Zpos p) by (apply Z.pow_pos_nonneg; lia).
      pose proof (pow_units_pos (Zneg p) ltac:(lia)) as Pc.
      apply round_half_even_fraction; try lia.
      rewrite <- !Z.mul_assoc, <- Z.pow_add_r by lia. do 2 f_equal. lia.
Qed.

(** *** The text of the specification, in units *)

Lemma spec_seconds_text_Qeq (q1 q2 : Q) :
  (q1 == q2)%Q -> spec_seconds_text q1 = spec_seconds_text q2.
Proof.
  intros E. unfold spec_seconds_text.
  rewrite (round_half_even_fraction (Qnum q1) (Zpos (Qden q1)) (Qnum q2) (Zpos (Qden q2)));
    [reflexivity | lia | lia | exact E].
Qed.

Lemma spec_seconds_text_units (r : Z) :
  spec_seconds_text (r # unit_den)
  = zero_pad 6 "" (text3 (round_half_even (r * 1000) (2 ^ 1074))).
Proof.
  unfold spec_seconds_text. cbn [Qnum Qden]. rewrite unit_den_value. reflexivity.
Qed.

Lemma inject_Z_units (z : Z) : (inject_Z z == (z * 2 ^ 1074) # unit_den)%Q.
Proof.
  unfold Qeq, inject_Z. cbn [Qnum Qden]. rewrite unit_den_value. ring.
Qed.

Lemma spec_minutes_units (q : Q) (V : Z) :
  (q == V # unit_den)%Q -> spec_minutes q = V / (60 * 2 ^ 1074).
Proof.
  intros E. unfold spec_minutes. rewrite E.
  unfold Qdiv, Qmult, Qinv, Qfloor. cbn [Qnum Qden].
  rewrite Pos2Z.inj_mul, unit_den_value, Z.mul_1_r.
  now rewrite (Z.mul_comm (2 ^ 1074) 60).
Qed.

Lemma spec_lap_text_units (q : Q) (V : Z) :
  (q == V # unit_den)%Q ->
  spec_lap_text q
  = format_d (V / (60 * 2 ^ 1074)) ++ ":"
    ++ zero_pad 6 "" (text3 (round_half_even (V mod (60 * 2 ^ 1074) * 1000) (2 ^ 1074))).
Proof.
  intros E. unfold spec_lap_text.
  rewrite (spec_minutes_units q V E).
  set (k := V / (60 * 2 ^ 1074)).
  assert (U : 0 < 2 ^ 1074) by (apply Z.pow_pos_nonneg; lia).
  pose proof (Z.div_mod V (60 * 2 ^ 1074) ltac:(lia)) as DM. fold k in DM.
  rewrite (spec_seconds_text_Qeq _ ((V mod (60 * 2 ^ 1074)) # unit_den)).
  - now rewrite spec_seconds_text_units.
  - rewrite E, (inject_Z_units (60 * k)), Qminus_same_den.
    unfold Qeq. cbn [Qnum Qden]. f_equal. lia.
Qed.

(** *** The formatter on a positive double *)

Lemma float_of_int_represents (z : Z) :
  0 <= z -> fits (z * 2 ^ 1074) ->
  Py.float_of_int z = Ok (F64.of_Z z) /\ represents (F64.of_Z z) (z * 2 ^ 1074).
Proof.
  intros Hz F. pose proof (of_Z_represents z Hz F) as R.
  split; [ | exact R].
  unfold Py.float_of_int. destruct R as ((Fi & _) & _). now rewrite Fi.
Qed.

Lemma format_lap_time_float (m : positive) (e : Z) :
  bounded F64.prec F64.emax m e = true -> e <= 0 ->
  let V := Zpos m * 2 ^ (e + 1074) in
  let W := 60 * 2 ^ 1074 in
  _format_lap_time (VNum (Float (S754_finite false m e)))
  = Ok (format_d (V / W) ++ ":"
        ++ zero_pad 6 "" (text3 (round_half_even (V mod W * 1000) (2 ^ 1074)))).
Proof.
  intros Bd He V W.
  destruct (minutes_fit m e Bd He) as (Hk & F1 & F2 & F3 & DM & R0).
  pose proof (floordiv60_represents m e Bd He) as Q.
  fold V W in Hk, F1, F2, F3, DM, R0, Q.
  set (k := V / W) in *. set (r := V mod W) in *.
  set (f := S754_finite false m e) in *.
  assert (Fr : represents f V) by (apply represents_finite; assumption).
  unfold _format_lap_time.
  change (Py.le_int (VNum (Float f)) 0) with (@Ok bool false). cbn [bind].
  (* seconds // 60 *)
  unfold Py.floordiv_int.
  assert (S60 : Py.float_of_int 60 = Ok (S754_finite false 8444249301319680 (-47)))
    by (vm_compute; reflexivity).
  rewrite S60. cbn [bind F64.is_zero].
  (* int(...) *)
  unfold Py.int. rewrite (trunc_integral _ k Q).
  (* seconds - minutes * 60 *)
  cbn [bind]. unfold Py.sub_int.
  destruct (float_of_int_represents (k * 60)) as (Fi & Ri); [lia | | ].
  { replace (k * 60 * 2 ^ 1074) with (k * W) by (unfold W; ring). exact F2. }
  rewrite Fi. cbn [bind].
  assert (Rm : represents (F64.sub f (F64.of_Z (k * 60))) r).
  { replace r with (V - k * 60 * 2 ^ 1074) by (unfold W in DM; lia).
    apply sub_represents; [assumption | assumption | unfold W in DM; lia | ].
    replace (V - k * 60 * 2 ^ 1074) with r by (unfold W in DM; lia). exact F3. }
  (* "%d:%06.3f" *)
  unfold Py.format_f. cbn [bind].
  now rewrite (format_represents _ r Rm).
Qed.

(** The formatter on an [int]. *)
Lemma format_lap_time_int (z : Z) :
  0 < z ->
  _format_lap_time (VNum (Int z))
  = Ok (format_d (z / 60) ++ ":" ++ zero_pad 6 "" (text3 (z mod 60 * 1000))).
Proof.
  intros Hz.
  assert (U : 0 < 2 ^ 1074) by (apply Z.pow_pos_nonneg; lia).
  unfold _format_lap_time, Py.le_int.
  assert (L : (z <=? 0) = false) by (apply Z.leb_gt; lia).
  rewrite L. cbn [bind].
  unfold Py.floordiv_int. change (60 =? 0) with false. cbv beta iota. cbn [bind].
  unfold Py.int. cbn [bind]. unfold Py.sub_int. cbn [bind].
  pose proof (Z.div_mod z 60 ltac:(lia)) as DM.
  pose proof (Z.mod_pos_bound z 60 ltac:(lia)) as MB.
  replace (z - z / 60 * 60) with (z mod 60) by lia.
  unfold Py.format_f.
  destruct (float_of_int_represents (z mod 60)) as (Fi & Ri); [lia | | ].
  { destruct (z mod 60) as [ | J | J] eqn:EJ; [now left | right | lia].
    exists J, 0. repeat split; try lia. }
  rewrite Fi. cbn [bind].
  rewrite (format_represents _ _ Ri).
  replace (z mod 60 * 2 ^ 1074 * 1000) with (z mod 60 * 1000 * 2 ^ 1074) by ring.
  now rewrite round_half_even_exact.
Qed.

Lemma spec_lap_text_int (z : Z) :
  spec_lap_text (inject_Z z)
  = format_d (z / 60) ++ ":" ++ zero_pad 6 "" (text3 (z mod 60 * 1000)).
Proof.
  assert (U : 0 < 2 ^ 1074) by (apply Z.pow_pos_nonneg; lia).
  rewrite (spec_lap_text_units _ (z * 2 ^ 1074) (inject_Z_units z)).
  rewrite Z.div_mul_cancel_r by lia.
  rewrite Z.mul_mod_distr_r by lia.
  replace (z mod 60 * 2 ^ 1074 * 1000) with (z mod 60 * 1000 * 2 ^ 1074) by ring.
  now rewrite round_half_even_exact.
Qed.

(** A positive double below [2^53] has no positive exponent. *)
Lemma below_2_53 (m : positive) (e : Z) :
  bounded F64.prec F64.emax m e = true ->
  (F2Q (S754_finite false m e) < inject_Z (2 ^ 53))%Q -> e <= 0.
Proof.
  intros Bd L. pose proof (bounded_inv _ _ Bd) as (He & Hm & Hc).
  destruct e as [ | p | p]; try lia.
  exfalso. unfold F2Q, cond_Zopp, Qlt, inject_Z in L. cbn [Qnum Qden] in L.
  rewrite !Z.mul_1_r in L.
  assert (2 ^ 1 <= 2 ^ Zpos p) by (apply Z.pow_le_mono_r; lia).
  change (2 ^ 1) with 2 in *. change (2 ^ 53) with (2 * 2 ^ 52) in *.
  destruct Hc as [ | Hc]; [lia | ]. hide_pow. nia.
Qed.

(** C7, within the range where the float arithmetic of the formatter is
    exact.  For an absent or non-positive input the formatter gives the empty
    string; for a positive [int], or a positive finite double below [2^53],
    it gives the minutes [floor (s / 60)], a colon, and the remainder
    [s - 60 * M] to three decimals, zero-padded to six characters, both taken
    in exact arithmetic.  65.25 gives ["1:05.250"] and 125.4 gives
    ["2:05.400"]. *)
Theorem lap_time_formatting (v : value) :
  lap_input v ->
  _format_lap_time v = Ok (lap_time_spec v)
  /\ _format_lap_time (VNum (Float (F64.lit 6525 2))) = Ok "1:05.250"
  /\ _format_lap_time (VNum (Float (F64.lit 1254 1))) = Ok "2:05.400".
Proof.
  intros I. split; [ | split; vm_compute; reflexivity].
  destruct I as [ | z | f (Ff & Vf) B].
  - reflexivity.
  - unfold lap_time_spec. destruct (z <=? 0) eqn:L.
    + unfold _format_lap_time, Py.le_int. now rewrite L.
    + apply Z.leb_gt in L. rewrite spec_lap_text_int. now apply format_lap_time_int.
  - destruct f as [s | s | | s m e]; try discriminate Ff.
    + destruct s; reflexivity.
    + destruct s.
      * assert (N : Qle_bool (F2Q (S754_finite true m e)) 0 = true).
        { apply Qle_bool_iff. apply bounded_inv in Vf. destruct Vf as (He & _).
          unfold Qle, F2Q, cond_Zopp.
          destruct e as [ | p | p]; cbn [Qnum Qden inject_Z]; lia. }
        unfold lap_time_spec. rewrite N. reflexivity.
      * pose proof (below_2_53 m e Vf B) as He.
        assert (P : Qle_bool (F2Q (S754_finite false m e)) 0 = false).
        { apply not_true_is_false. intros N. apply Qle_bool_iff in N.
          apply bounded_inv in Vf. destruct Vf as (Er & _).
          unfold Qle, F2Q, cond_Zopp in N.
          destruct e as [ | p | p]; cbn [Qnum Qden inject_Z] in N; lia. }
        unfold lap_time_spec. rewrite P.
        rewrite (spec_lap_text_units _ _ (F2Q_scaled _ Vf)).
        rewrite scaled_finite_pos. now apply format_lap_time_float.
Qed.

Lemma lap_time_formatting_witness :
  _format_lap_time (VNum (Float (F64.lit 6525 2)))
  = Ok (lap_time_spec (VNum (Float (F64.lit 6525 2))))
  /\ _format_lap_time (VNum (Float (F64.lit 6525 2))) = Ok "1:05.250"
  /\ _format_lap_time (VNum (Float (F64.lit 1254 1))) = Ok "2:05.400".
Proof.
  apply (lap_time_formatting (VNum (Float (F64.lit 6525 2)))).
  apply lap_float.
  - split; vm_compute; reflexivity.
  - vm_compute. reflexivity.
Defined.

(** C7 as written fails for large inputs.  The largest finite double is a
    positive input for which the formatter raises instead of returning a
    text; and for [1e17] the float subtraction is no longer exact: the
    remainder of the specification is 40 seconds, the formatter prints 32. *)
Lemma lap_time_beyond_2_53_diverges :
  F64.ltb F64.zero max_float = true
  /\ _format_lap_time (VNum (Float max_float))
     = Raise (OverflowError "int too large to convert to float")
  /\ _format_lap_time (VNum (Float (F64.of_Z (10 ^ 17)))) = Ok "1666666666666666:32.000"
  /\ spec_lap_text (F2Q (F64.of_Z (10 ^ 17))) = "1666666666666666:40.000".
Proof. repeat split; vm_compute; reflexivity. Qed.


(** * Further properties of the handler *)

(** ** What one tick can do *)

Lemma publish_inv (h : host) (data : string) :
  publish h = Ok data ->
  exists p, read_payload h = Ok p /\ json_dumps h p = Ok data /\ sendto h data = Ok tt.
Proof.
  unfold publish. intros H.
  bind_step H. bind_step H. bind_step H.
  injection H as <-. destruct a1. eauto.
Qed.

(** X1.  A tick has at most one effect.  It is the one datagram, which is
    the serialization of the record just read, handed to a [sendto] that
    returned, for the fixed address; or it is one label update with the text
    of the error that ended the [try] body; or there is none.  Effects only
    come from a tick that passed the gate, and the label global is never
    written. *)
Theorem tick_has_at_most_one_effect (h : host) (st : state) :
  _label (globals (acUpdate h st)) = _label st
  /\ (trace (acUpdate h st) <> [] -> gate_open h st = true)
  /\ (trace (acUpdate h st) = []
      \/ (exists p data,
             read_payload h = Ok p /\ json_dumps h p = Ok data /\ sendto h data = Ok tt
             /\ trace (acUpdate h st) = [Sendto data ("127.0.0.1", 41234)]
             /\ returned (acUpdate h st) = Ok tt)
      \/ (exists e label,
             publish h = Raise e /\ label_set (_label st) = Some label
             /\ trace (acUpdate h st) = [SetText label ("Telemetry error: " ++ exn_str e)]
             /\ returned (acUpdate h st) = Ok tt)).
Proof.
  unfold gate_open, acUpdate.
  destruct (F64.ltb _ _); cbn [globals trace returned negb].
  - repeat split; [congruence | now left].
  - destruct (publish h) as [data | e] eqn:P; cbn [globals trace returned _label].
    + repeat split. right; left.
      destruct (publish_inv h data P) as (p & R & J & S).
      exists p, data. repeat split; assumption.
    + destruct (label_set (_label st)) as [label | ] eqn:L;
        cbn [globals trace returned _label].
      * destruct (setText h label _) eqn:T; cbn [globals trace returned _label].
        -- repeat split. right; right. exists e, label. repeat split.
        -- repeat split. now left.
      * repeat split. now left.
Qed.

(** X2.  A failure of the serializer or of the socket, after a record was
    built, is reported on the label with the text of its exception; nothing
    is sent, the timestamp is the reading of this tick, and a tick less than
    an interval later does nothing: the failed send is not retried. *)
Theorem send_failure_is_reported
        (h : host) (st : state) (p : Payload.t) (e : exn) (label : Z) :
  gate_open h st = true ->
  read_payload h = Ok p ->
  (json_dumps h p = Raise e
   \/ exists data, json_dumps h p = Ok data /\ sendto h data = Raise e) ->
  label_set (_label st) = Some label ->
  setText h label ("Telemetry error: " ++ exn_str e) = Ok tt ->
  acUpdate h st =
    {| globals := {| _last_send := time_time h; _label := _label st |};
       trace := [SetText label ("Telemetry error: " ++ exn_str e)];
       returned := Ok tt |}
  /\ forall h' : host,
       F64.ltb (F64.sub (time_time h') (time_time h)) SEND_INTERVAL = true ->
       trace (acUpdate h' (globals (acUpdate h st))) = [].
Proof.
  intros G R F L T.
  assert (P : publish h = Raise e).
  { unfold publish. rewrite R. cbn [bind].
    destruct F as [J | (data & J & S)]; rewrite J; cbn [bind]; [reflexivity | ].
    rewrite S. reflexivity. }
  assert (A : acUpdate h st =
              {| globals := {| _last_send := time_time h; _label := _label st |};
                 trace := [SetText label ("Telemetry error: " ++ exn_str e)];
                 returned := Ok tt |}).
  { unfold gate_open in G. apply negb_true_iff in G.
    unfold acUpdate. rewrite G, P. cbn [_label]. rewrite L, T. reflexivity. }
  split; [exact A | ].
  intros h' G'. rewrite A. cbn [globals].
  rewrite acUpdate_gated by exact G'. reflexivity.
Qed.

Lemma send_failure_is_reported_witness :
  let h := unreachable_host (F64.lit 15 1) in
  let st := {| _last_send := F64.zero; _label := Some 7 |} in
  acUpdate h st =
    {| globals := {| _last_send := time_time h; _label := Some 7 |};
       trace := [SetText 7 "Telemetry error: [Errno 101] Network is unreachable"];
       returned := Ok tt |}
  /\ forall h' : host,
       F64.ltb (F64.sub (time_time h') (time_time h)) SEND_INTERVAL = true ->
       trace (acUpdate h' (globals (acUpdate h st))) = [].
Proof.
  apply (send_failure_is_reported (unreachable_host (F64.lit 15 1))
           {| _last_send := F64.zero; _label := Some 7 |} scenario_record socket_down 7).
  - vm_compute. reflexivity.
  - vm_compute. reflexivity.
  - right. exists "monza,Ayrton,F1_2020,3,1:31.123,210,80,0". split; reflexivity.
  - reflexivity.
  - reflexivity.
Defined.


(** ** The gate at the edges *)

Lemma sub_zero_r (t : F64.float) : F64.sub t F64.zero = t.
Proof. destruct t as [[ | ] | [ | ] | | s m e]; reflexivity. Qed.

(** X3.  The timestamp starts at 0.0, so the first tick whose clock reads at
    least one interval passes the gate at once: it stamps its reading, and
    with a working host the datagram goes out. *)
Theorem first_tick_publishes (h : host) (label : option Z) (data : string) :
  F64.leb SEND_INTERVAL (time_time h) = true ->
  publish h = Ok data ->
  acUpdate h {| _last_send := F64.zero; _label := label |} =
    {| globals := {| _last_send := time_time h; _label := label |};
       trace := [Sendto data (UDP_HOST, UDP_PORT)];
       returned := Ok tt |}.
Proof.
  intros L P. apply leb_not_ltb in L.
  unfold acUpdate. cbn [_last_send _label]. rewrite sub_zero_r, L, P. reflexivity.
Qed.

Lemma first_tick_publishes_witness :
  acUpdate (scenario_host (F64.of_Z 1762000000)) {| _last_send := F64.zero; _label := Some 7 |} =
    {| globals := {| _last_send := F64.of_Z 1762000000; _label := Some 7 |};
       trace := [Sendto "monza,Ayrton,F1_2020,3,1:31.123,210,80,0" (UDP_HOST, UDP_PORT)];
       returned := Ok tt |}.
Proof.
  apply (first_tick_publishes (scenario_host (F64.of_Z 1762000000)) (Some 7)
           "monza,Ayrton,F1_2020,3,1:31.123,210,80,0");
    vm_compute; reflexivity.
Defined.

(** *** Differences that are not positive *)

Lemma shr_1_nonneg (mrs : shr_record) : 0 <= shr_m mrs -> 0 <= shr_m (shr_1 mrs).
Proof.
  destruct mrs as [m r s]. cbn [shr_m].
  destruct m as [ | [p | p | ] | p]; cbn [shr_1 shr_m]; lia.
Qed.

Lemma iter_pos_invariant {A : Type} (f : A -> A) (P : A -> Prop) :
  (forall x, P x -> P (f x)) -> forall (n : positive) (x : A), P x -> P (iter_pos f n x).
Proof.
  intros Hf. induction n as [n IH | n IH | ]; intros x Hx; cbn [iter_pos]; auto.
Qed.

Lemma shr_nonneg (mrs : shr_record) (e n : Z) :
  0 <= shr_m mrs -> 0 <= shr_m (fst (shr mrs e n)).
Proof.
  intros H. unfold shr. destruct n; cbn [fst]; try assumption.
  apply (iter_pos_invariant shr_1 (fun r => 0 <= shr_m r)); [exact shr_1_nonneg | exact H].
Qed.

Lemma shr_fexp_nonneg (m e : Z) (l : location) :
  0 <= m -> 0 <= shr_m (fst (shr_fexp F64.prec F64.emax m e l)).
Proof.
  intros H. unfold shr_fexp. apply shr_nonneg.
  destruct l as [ | [ | | ]]; exact H.
Qed.

Lemma round_nearest_even_nonneg (m : Z) (l : location) :
  0 <= m -> 0 <= round_nearest_even m l.
Proof.
  intros H. destruct l as [ | [ | | ]]; cbn [round_nearest_even]; try lia.
  destruct (Z.even m); lia.
Qed.

Lemma binary_round_aux_negative (m : positive) (e : Z) (l : location) :
  negative_result (binary_round_aux F64.prec F64.emax true (Zpos m) e l).
Proof.
  unfold binary_round_aux.
  pose proof (shr_fexp_nonneg (Zpos m) e l ltac:(lia)) as H1.
  destruct (shr_fexp F64.prec F64.emax (Zpos m) e l) as [mrs' e']. cbn [fst] in H1.
  pose proof (shr_fexp_nonneg (round_nearest_even (shr_m mrs') (loc_of_shr_record mrs')) e'
                loc_Exact (round_nearest_even_nonneg _ _ H1)) as H2.
  destruct (shr_fexp F64.prec F64.emax _ e' loc_Exact) as [mrs'' e'']. cbn [fst] in H2.
  destruct (shr_m mrs'') as [ | p | p]; [exact I | | lia].
  destruct (e'' <=? F64.emax - F64.prec); exact I.
Qed.

Lemma binary_normalize_nonpos (z e : Z) :
  z <= 0 ->
  let x := binary_normalize F64.prec F64.emax z e false in
  x = S754_zero false \/ negative_result x.
Proof.
  intros Hz. destruct z as [ | p | p]; [now left | lia | right].
  cbn [binary_normalize]. unfold binary_round.
  destruct (shl_align p e _) as [mz ez]. apply binary_round_aux_negative.
Qed.

Lemma nonpos_below_interval (x : F64.float) :
  x = S754_zero false \/ negative_result x -> F64.ltb x SEND_INTERVAL = true.
Proof.
  rewrite SEND_INTERVAL_value.
  intros [-> | N]; [reflexivity | ].
  destruct x as [[ | ] | [ | ] | | [ | ] m e]; try contradiction; reflexivity.
Qed.

(** A reading that is not after the stored timestamp gives a difference
    that is not positive, whatever the signs: the gate is closed. *)
Lemma not_after_is_gated (t last : F64.float) :
  reading t -> reading last -> scaled t <= scaled last ->
  F64.ltb (F64.sub t last) SEND_INTERVAL = true.
Proof.
  intros (Ft & Vt) (Fl & Vl) L.
  apply nonpos_below_interval.
  destruct t as [st | st | | st mt et]; try discriminate Ft;
    destruct last as [sl | sl | | sl ml el]; try discriminate Fl.
  - destruct st, sl; cbn; auto.
  - pose proof (bounded_inv _ _ Vl) as (El & _).
    pose proof (pow_units_pos el ltac:(lia)) as P.
    destruct sl.
    + exfalso. change (scaled (S754_zero st)) with 0 in L.
      change (scaled (S754_finite true ml el)) with (Zneg ml * 2 ^ (el + 1074)) in L.
      assert (Zneg ml * 2 ^ (el + 1074) < 0) by (apply Z.mul_neg_pos; lia). lia.
    + right. exact I.
  - pose proof (bounded_inv _ _ Vt) as (Et & _).
    pose proof (pow_units_pos et ltac:(lia)) as P.
    destruct st.
    + right. exact I.
    + exfalso. change (scaled (S754_zero sl)) with 0 in L.
      rewrite scaled_finite_pos in L.
      assert (0 < Zpos mt * 2 ^ (et + 1074)) by (apply Z.mul_pos_pos; lia). lia.
  - pose proof (bounded_inv _ _ Vt) as (Et & _). pose proof (bounded_inv _ _ Vl) as (El & _).
    unfold F64.sub, SFsub.
    set (ez := Z.min et el).
    assert (Hz : -1074 <= ez <= et /\ ez <= el) by (unfold ez; lia).
    clearbody ez.
    destruct (shl_align_spec mt et ez) as (A & _); [lia | ].
    destruct (shl_align_spec ml el ez) as (B & _); [lia | ].
    rewrite A, B.
    apply binary_normalize_nonpos.
    pose proof (pow_units_pos ez ltac:(lia)) as P.
    apply (Z.mul_le_mono_pos_r _ _ (2 ^ (ez + 1074))); [exact P | ].
    rewrite Z.mul_0_l, Z.mul_sub_distr_r.
    assert (Tt : cond_Zopp st (Zpos mt * 2 ^ (et - ez)) * 2 ^ (ez + 1074)
                 = scaled (S754_finite st mt et)).
    { unfold scaled. destruct st; cbn [cond_Zopp].
      - change (Zneg mt) with (- Zpos mt).
        rewrite (Z.mul_opp_l (Zpos mt) (2 ^ (et + 1074))), (scaled_split mt et ez) by lia. ring.
      - rewrite (scaled_split mt et ez) by lia. ring. }
    assert (Tl : cond_Zopp sl (Zpos ml * 2 ^ (el - ez)) * 2 ^ (ez + 1074)
                 = scaled (S754_finite sl ml el)).
    { unfold scaled. destruct sl; cbn [cond_Zopp].
      - change (Zneg ml) with (- Zpos ml).
        rewrite (Z.mul_opp_l (Zpos ml) (2 ^ (el + 1074))), (scaled_split ml el ez) by lia. ring.
      - rewrite (scaled_split ml el ez) by lia. ring. }
    rewrite Tt, Tl. lia.
Qed.

(** X4.  When the clock has not advanced past the stored timestamp, because
    it stood still or was set back, the tick is gated: nothing is sent and
    nothing changes, whatever the host would have returned. *)
Theorem clock_step_back_is_gated (h : host) (st : state) :
  reading (time_time h) -> reading (_last_send st) ->
  (F2Q (time_time h) <= F2Q (_last_send st))%Q ->
  acUpdate h st = {| globals := st; trace := []; returned := Ok tt |}.
Proof.
  intros Rt Rl L. apply acUpdate_gated.
  apply not_after_is_gated; try assumption.
  apply F2Q_le_scaled; [apply Rt | apply Rl | exact L].
Qed.

Lemma clock_step_back_is_gated_witness :
  acUpdate (scenario_host (F64.of_Z 1762000000))
           {| _last_send := F64.of_Z 1762003600; _label := Some 7 |}
  = {| globals := {| _last_send := F64.of_Z 1762003600; _label := Some 7 |};
       trace := []; returned := Ok tt |}.
Proof.
  apply (clock_step_back_is_gated (scenario_host (F64.of_Z 1762000000))
           {| _last_send := F64.of_Z 1762003600; _label := Some 7 |}).
  - split; vm_compute; reflexivity.
  - split; vm_compute; reflexivity.
  - vm_compute. discriminate.
Defined.


(** ** Attempts on any clock *)

Lemma attempt_times_where (ticks : list host) :
  forall st, attempt_times st ticks = times_where gate_open st ticks.
Proof. induction ticks as [ | h rest IH]; intros st; cbn; [ | rewrite IH]; reflexivity. Qed.

Lemma send_times_where (ticks : list host) :
  forall st, send_times st ticks = times_where (fun h st => sent (acUpdate h st)) st ticks.
Proof. induction ticks as [ | h rest IH]; intros st; cbn; [ | rewrite IH]; reflexivity. Qed.

Section Picked.

Variable pick : host -> state -> bool.
Hypothesis pick_attempt : forall h st, pick h st = true -> gate_open h st = true.

(** The picked ticks of a run, for readings in any order: they are an
    interval after the stored timestamp and after one another. *)
Lemma times_where_spaced (ticks : list host) :
  forall st : state,
    timer_ok (_last_send st) ->
    Forall reading (map time_time ticks) ->
    Forall (spaced (_last_send st)) (times_where pick st ticks)
    /\ Forall nonneg_reading (times_where pick st ticks)
    /\ StronglySorted spaced (times_where pick st ticks).
Proof.
  induction ticks as [ | h rest IH]; intros st T R.
  - cbn [times_where]. repeat constructor.
  - cbn [map] in R. inversion R as [ | ? ? Rh Rr]; subst.
    cbn [times_where].
    destruct (F64.ltb (F64.sub (time_time h) (_last_send st)) SEND_INTERVAL) eqn:G.
    + assert (N : pick h st = false).
      { destruct (pick h st) eqn:Pk; [ | reflexivity].
        apply pick_attempt in Pk. unfold gate_open in Pk. rewrite G in Pk. discriminate. }
      rewrite N, (acUpdate_gated h st G). cbn [globals app]. apply IH; assumption.
    + assert (B : _last_send st = F64.zero \/ scaled (_last_send st) <= scaled (time_time h)).
      { destruct T as [Z | ((Fl & Vl & _) & _)]; [now left | right].
        destruct (Z_le_gt_dec (scaled (time_time h)) (scaled (_last_send st))) as [Le | Gt];
          [ | lia].
        rewrite (not_after_is_gated _ _ Rh (conj Fl Vl) Le) in G. discriminate. }
      destruct (open_gate_is_an_interval_later _ _ Rh T B G) as (Nt & Sp).
      pose proof (timer_ok_nonneg _ T) as L0.
      assert (P : 0 < scaled SEND_INTERVAL) by (rewrite SEND_INTERVAL_value; reflexivity).
      rewrite (acUpdate_stamps h st G).
      destruct (IH {| _last_send := time_time h; _label := _label st |})
        as (F1 & F2 & F3); try assumption.
      { right. split; [exact Nt | ]. cbn [_last_send]. lia. }
      cbn [_last_send] in F1.
      assert (F1' : Forall (spaced (_last_send st))
                      (times_where pick {| _last_send := time_time h; _label := _label st |}
                         rest)).
      { apply Forall_impl with (2 := F1). unfold spaced. intros; lia. }
      destruct (pick h st); cbn [app].
      * repeat split; constructor; assumption.
      * repeat split; assumption.
Qed.

Lemma times_where_apart (label : option Z) (ticks : list host) :
  Forall reading (map time_time ticks) ->
  StronglySorted apart (times_where pick {| _last_send := F64.zero; _label := label |} ticks).
Proof.
  intros R.
  destruct (times_where_spaced ticks {| _last_send := F64.zero; _label := label |})
    as (_ & N & S); [now left | exact R | ].
  induction S as [ | a l S IH F]; constructor.
  - apply IH. now inversion N.
  - inversion N as [ | ? ? (_ & Va & _) Nl]; subst.
    rewrite Forall_forall in *. intros b Hb.
    destruct (Nl b Hb) as (_ & Vb & _).
    apply F2Q_apart_scaled; try assumption.
    + rewrite SEND_INTERVAL_value. reflexivity.
    + apply F. exact Hb.
Qed.

End Picked.

(** X5.  On any clock with finite readings, also one that jumps back and
    forth, the ticks that pass the gate are at readings that are pairwise at
    least [SEND_INTERVAL] apart and increasing; so are the ticks that send a
    datagram, which are among them. *)
Theorem attempts_are_spaced_on_any_clock (label : option Z) (ticks : list host) :
  Forall reading (map time_time ticks) ->
  StronglySorted apart (attempt_times {| _last_send := F64.zero; _label := label |} ticks)
  /\ StronglySorted apart (send_times {| _last_send := F64.zero; _label := label |} ticks).
Proof.
  intros R. rewrite attempt_times_where, send_times_where. split.
  - apply times_where_apart; [auto | exact R].
  - apply times_where_apart; [ | exact R].
    intros h st S. unfold gate_open.
    destruct (F64.ltb _ _) eqn:G; [ | reflexivity].
    rewrite (acUpdate_gated h st G) in S. discriminate.
Qed.

Lemma attempts_are_spaced_on_any_clock_witness :
  let ticks := [ scenario_host (F64.lit 3 1);
                 fail_channel Gas host_down (scenario_host (F64.lit 1 1));
                 unreachable_host (F64.lit 5 1);
                 scenario_host (F64.lit 2 1);
                 scenario_host (F64.lit 7 1) ] in
  StronglySorted apart (attempt_times {| _last_send := F64.zero; _label := Some 7 |} ticks)
  /\ StronglySorted apart (send_times {| _last_send := F64.zero; _label := Some 7 |} ticks).
Proof.
  apply (attempts_are_spaced_on_any_clock (Some 7)
           [ scenario_host (F64.lit 3 1);
             fail_channel Gas host_down (scenario_host (F64.lit 1 1));
             unreachable_host (F64.lit 5 1);
             scenario_host (F64.lit 2 1);
             scenario_host (F64.lit 7 1) ]).
  repeat constructor.
Defined.


(** ** The record at the edges *)

(** X6.  Absent values are not errors.  When every scalar channel reads
    [None] and the position is a vector, the record is built with lap 0, an
    empty lap time, speed, throttle and brake 0, and it is sent. *)
Theorem absent_values_default (h : host) (st : state) (pos : list num) (data : string) :
  (forall c, c <> WorldPosition -> getCarState h c = Ok VNone) ->
  getCarState h WorldPosition = Ok (VVec pos) ->
  gate_open h st = true ->
  let p := {| Payload.track := lower (name_or_blank (getTrackName h));
              Payload.driver := name_or_blank (getDriverName h);
              Payload.car := name_or_blank (getCarName h);
              Payload.lap := 0; Payload.lastLap := ""; Payload.delta := "";
              Payload.speed := 0; Payload.throttle := 0; Payload.brake := 0;
              Payload.x := nth 0 pos (Int 0); Payload.y := nth 2 pos (Int 0) |} in
  json_dumps h p = Ok data -> sendto h data = Ok tt ->
  read_payload h = Ok p
  /\ trace (acUpdate h st) = [Sendto data (UDP_HOST, UDP_PORT)].
Proof.
  intros N W G p J S.
  assert (R : read_payload h = Ok p).
  { apply (read_payload_intro h VNone VNone VNone VNone VNone (VVec pos));
      try (apply N; discriminate); try reflexivity; try exact W;
      apply component_vector. }
  split; [exact R | ].
  unfold gate_open in G. apply negb_true_iff in G.
  now rewrite (acUpdate_publishes h st p data G R J S).
Qed.

Lemma absent_values_default_witness :
  let h := idle_host (F64.lit 15 1) [Float (F64.of_Z 5)] in
  let p := {| Payload.track := "monza"; Payload.driver := "Ayrton"; Payload.car := "F1_2020";
              Payload.lap := 0; Payload.lastLap := ""; Payload.delta := "";
              Payload.speed := 0; Payload.throttle := 0; Payload.brake := 0;
              Payload.x := Float (F64.of_Z 5); Payload.y := Int 0 |} in
  read_payload h = Ok p
  /\ trace (acUpdate h module_state) = [Sendto "monza,Ayrton,F1_2020,0,,0,0,0" (UDP_HOST, UDP_PORT)].
Proof.
  apply (absent_values_default (idle_host (F64.lit 15 1) [Float (F64.of_Z 5)]) module_state
           [Float (F64.of_Z 5)] "monza,Ayrton,F1_2020,0,,0,0,0").
  - intros c Hc. destruct c; try reflexivity. now elim Hc.
  - reflexivity.
  - vm_compute. reflexivity.
  - reflexivity.
  - reflexivity.
Defined.

Lemma component_needs_len (pos : value) (i : nat) (x : num) :
  component pos i = Ok x -> exists n, Py.len pos = Ok n.
Proof. unfold component. destruct (Py.len pos); [eauto | discriminate]. Qed.

(** X7.  The record is all or nothing.  When the derivation of any one
    field raises on the value the host gave (a position without a length, a
    number that cannot be converted, a lap time that cannot be formatted),
    no record is built and the tick sends no datagram, even though every
    other value is fine. *)
Theorem failing_field_drops_datagram (h : host) (st : state) :
  derivation_fails h ->
  (exists e, read_payload h = Raise e) /\ sent (acUpdate h st) = false.
Proof.
  intros F.
  assert (R : exists e, read_payload h = Raise e).
  { destruct (read_payload h) as [p | e] eqn:R; [exfalso | eauto].
    destruct (read_payload_inv h p R)
      as (speed & throttle & brake & lap & last_lap & pos
          & (R1 & R2 & R3 & R4 & R5 & R6) & (X & _) & _ & (L & LL & _ & Sp & Th & Br)).
    destruct F as [v e E1 E2 | v e E1 E2 | v e E1 E2 | v e E1 E2 | v e E1 E2 | v e E1 E2].
    - rewrite R6 in E1. injection E1 as <-.
      destruct (component_needs_len _ _ _ X) as (n & Hn). congruence.
    - rewrite R4 in E1. injection E1 as <-. congruence.
    - rewrite R5 in E1. injection E1 as <-. congruence.
    - rewrite R1 in E1. injection E1 as <-. congruence.
    - rewrite R2 in E1. injection E1 as <-. congruence.
    - rewrite R3 in E1. injection E1 as <-. congruence. }
  split; [exact R | ].
  destruct R as (e & R). apply (failed_publish_sends_nothing h st e).
  unfold publish. now rewrite R.
Qed.

Lemma failing_field_drops_datagram_witness :
  (exists e, read_payload (with_channel WorldPosition VNone (scenario_host (F64.lit 15 1)))
             = Raise e)
  /\ sent (acUpdate (with_channel WorldPosition VNone (scenario_host (F64.lit 15 1)))
                    module_state) = false.
Proof.
  apply (failing_field_drops_datagram
           (with_channel WorldPosition VNone (scenario_host (F64.lit 15 1))) module_state).
  apply (position_fails _ VNone (TypeError "object of type 'NoneType' has no len()"));
    reflexivity.
Defined.

(** X8.  Numbers that are not finite cannot be turned into a field: [int]
    raises on a NaN or an infinity, and so does the percentage of a pedal;
    the lap-time formatter raises on a NaN and on plus infinity (minus
    infinity is not positive and gives the empty text). *)
Theorem non_finite_numbers_are_rejected (f : F64.float) :
  F64.is_finite f = false ->
  is_ok (int_or_0 (VNum (Float f))) = false
  /\ is_ok (percent (VNum (Float f))) = false
  /\ _format_lap_time (VNum (Float f))
     = if F64.leb f F64.zero then Ok ""
       else Raise (ValueError "cannot convert float NaN to integer").
Proof.
  intros F. destruct f as [s | [ | ] | | s m e]; try discriminate F;
    repeat split; vm_compute; reflexivity.
Qed.

Lemma non_finite_numbers_are_rejected_witness :
  is_ok (int_or_0 (VNum (Float F64.nan))) = false
  /\ is_ok (percent (VNum (Float F64.nan))) = false
  /\ _format_lap_time (VNum (Float F64.nan))
     = if F64.leb F64.nan F64.zero then Ok ""
       else Raise (ValueError "cannot convert float NaN to integer").
Proof. apply (non_finite_numbers_are_rejected F64.nan). reflexivity. Defined.


(** ** Names and integers in the record *)

Lemma lower_char_not_upper (c : ascii) : is_upper (lower_char c) = false.
Proof. destruct c as [[ | ] [ | ] [ | ] [ | ] [ | ] [ | ] [ | ] [ | ]]; reflexivity. Qed.

Lemma lower_char_fixes (c : ascii) : is_upper c = false -> lower_char c = c.
Proof. unfold lower_char, is_upper. intros ->. reflexivity. Qed.

(** The code point of the lower case: 32 later for an upper-case letter,
    the same otherwise. *)
Lemma lower_char_code (c : ascii) :
  nat_of_ascii (lower_char c)
  = if is_upper c then (nat_of_ascii c + 32)%nat else nat_of_ascii c.
Proof. destruct c as [[ | ] [ | ] [ | ] [ | ] [ | ] [ | ] [ | ] [ | ]]; reflexivity. Qed.

Lemma lower_codes (s : string) :
  Forall2 (fun a b => nat_of_ascii b
                      = if is_upper a then (nat_of_ascii a + 32)%nat else nat_of_ascii a)
          (list_ascii_of_string s) (list_ascii_of_string (lower s)).
Proof.
  induction s as [ | c s IH]; cbn [lower list_ascii_of_string]; constructor;
    [apply lower_char_code | exact IH].
Qed.

Lemma lower_no_upper (s : string) :
  Forall (fun c => is_upper c = false) (list_ascii_of_string (lower s)).
Proof.
  induction s as [ | c s IH]; cbn [lower list_ascii_of_string]; constructor;
    [apply lower_char_not_upper | exact IH].
Qed.

Lemma lower_length (s : string) : String.length (lower s) = String.length s.
Proof. induction s as [ | c s IH]; cbn [lower String.length]; congruence. Qed.

Lemma lower_idempotent (s : string) : lower (lower s) = lower s.
Proof.
  induction s as [ | c s IH]; cbn [lower]; [reflexivity | ].
  now rewrite IH, (lower_char_fixes _ (lower_char_not_upper c)).
Qed.

(** X9.  The track name goes out in lower case, whatever name of code
    points below 256 the host returned: character by character, an
    upper-case letter ([A] to [Z], U+00C0 to U+00DE without U+00D7) is
    replaced by the code point 32 later and every other character is kept;
    so the field has no upper-case letter, has the length of the name, and
    lowering it again changes nothing.  The driver and car names go out as
    they were returned. *)
Theorem names_in_the_record (h : host) (p : Payload.t) (track driver car : string) :
  read_payload h = Ok p ->
  getTrackName h = Ok track -> getDriverName h = Ok driver -> getCarName h = Ok car ->
  Forall2 (fun a b => nat_of_ascii b
                      = if is_upper a then (nat_of_ascii a + 32)%nat else nat_of_ascii a)
          (list_ascii_of_string track) (list_ascii_of_string (Payload.track p))
  /\ Forall (fun c => is_upper c = false) (list_ascii_of_string (Payload.track p))
  /\ String.length (Payload.track p) = String.length track
  /\ lower (Payload.track p) = Payload.track p
  /\ Payload.driver p = driver /\ Payload.car p = car.
Proof.
  intros R T D C.
  destruct (read_payload_inv h p R) as (_ & _ & _ & _ & _ & _ & _ & _ & (Tp & Dp & Cp) & _).
  rewrite T in Tp. rewrite D in Dp. rewrite C in Cp. cbn [name_or_blank] in *.
  rewrite Tp, Dp, Cp.
  repeat split;
    [apply lower_codes | apply lower_no_upper | apply lower_length | apply lower_idempotent].
Qed.

Lemma names_in_the_record_witness :
  Forall2 (fun a b => nat_of_ascii b
                      = if is_upper a then (nat_of_ascii a + 32)%nat else nat_of_ascii a)
          (list_ascii_of_string latin_track)
          (list_ascii_of_string (Payload.track latin_record))
  /\ Forall (fun c => is_upper c = false) (list_ascii_of_string (Payload.track latin_record))
  /\ String.length (Payload.track latin_record) = String.length latin_track
  /\ lower (Payload.track latin_record) = Payload.track latin_record
  /\ Payload.driver latin_record = "Ayrton" /\ Payload.car latin_record = "F1_2020".
Proof.
  apply (names_in_the_record latin_host latin_record latin_track "Ayrton" "F1_2020");
    reflexivity.
Defined.

Lemma Qfloor_Qmake (n : Z) (d : positive) : Qfloor (n # d) = n / Zpos d.
Proof. reflexivity. Qed.

Lemma Qtrunc_Z (z : Z) : Qtrunc (inject_Z z) = z.
Proof. unfold Qtrunc. destruct (Qle_bool 0 (inject_Z z)); [apply Qfloor_Z | apply Qceiling_Z]. Qed.

Lemma cond_Zopp_mul (s : bool) (a b : Z) : cond_Zopp s (a * b) = cond_Zopp s a * b.
Proof. destruct s; cbn [cond_Zopp]; [now rewrite Z.mul_opp_l | reflexivity]. Qed.

(** [int] of a finite double is the integer part of its exact value. *)
Lemma trunc_exact (f : F64.float) :
  F64.is_finite f = true -> F64.trunc f = Some (Qtrunc (F2Q f)).
Proof.
  intros F. destruct f as [s | s | | s m e]; try discriminate F.
  - reflexivity.
  - unfold F64.trunc. f_equal.
    destruct e as [ | p | p].
    + unfold F2Q. now rewrite Qtrunc_Z, cond_Zopp_mul.
    + unfold F2Q. now rewrite Qtrunc_Z, cond_Zopp_mul.
    + assert (D : Zpos (2 ^ p) = 2 ^ Zpos p) by apply Pos2Z.inj_pow.
      unfold F2Q, Qtrunc. destruct s; cbn [cond_Zopp].
      * change (- Zpos m) with (Zneg m).
        assert (N : Qle_bool 0 (Zneg m # 2 ^ p) = false) by reflexivity.
        rewrite N. unfold Qceiling, Qopp. cbn [Qnum Qden].
        rewrite Qfloor_Qmake, D. reflexivity.
      * assert (N : Qle_bool 0 (Zpos m # 2 ^ p) = true) by reflexivity.
        rewrite N, Qfloor_Qmake, D. reflexivity.
Qed.

(** X10.  The speed and lap fields of a record are integers by truncation:
    for a finite float from the host, the field is the integer part, toward
    zero, of the exact value of the float. *)
Theorem speed_and_lap_are_truncated (h : host) (p : Payload.t) (speed lap : F64.float) :
  read_payload h = Ok p ->
  getCarState h SpeedKMH = Ok (VNum (Float speed)) ->
  getCarState h LapCount = Ok (VNum (Float lap)) ->
  Payload.speed p = Qtrunc (F2Q speed) /\ Payload.lap p = Qtrunc (F2Q lap)
  /\ F64.is_finite speed = true /\ F64.is_finite lap = true.
Proof.
  intros R S L.
  destruct (read_payload_inv h p R)
    as (speed' & _ & _ & lap' & _ & _ & (R1 & _ & _ & R4 & _) & _ & _ & (Lp & _ & _ & Sp & _)).
  rewrite S in R1. rewrite L in R4. injection R1 as <-. injection R4 as <-.
  cbn [int_or_0 Py.int] in Lp, Sp.
  assert (Fs : F64.is_finite speed = true).
  { destruct speed; try reflexivity; cbn in Sp; discriminate. }
  assert (Fl : F64.is_finite lap = true).
  { destruct lap; try reflexivity; cbn in Lp; discriminate. }
  rewrite (trunc_exact speed Fs) in Sp. rewrite (trunc_exact lap Fl) in Lp.
  repeat split; congruence.
Qed.

Lemma speed_and_lap_are_truncated_witness :
  Payload.speed reversing_record = Qtrunc (F2Q (F64.lit 2107 1))
  /\ Payload.lap reversing_record = Qtrunc (F2Q (F64.lit (-25) 1))
  /\ F64.is_finite (F64.lit 2107 1) = true /\ F64.is_finite (F64.lit (-25) 1) = true.
Proof.
  apply (speed_and_lap_are_truncated
           (with_channel LapCount (VNum (Float (F64.lit (-25) 1))) (scenario_host (F64.lit 15 1)))
           reversing_record (F64.lit 2107 1) (F64.lit (-25) 1));
    vm_compute; reflexivity.
Defined.


(** ** The shape of a lap time *)

Lemma length_append (a b : string) :
  String.length (a ++ b) = (String.length a + String.length b)%nat.
Proof. induction a as [ | c a IH]; cbn [append String.length]; [reflexivity | now rewrite IH]. Qed.

Lemma length_zeros (n : nat) : String.length (zeros n) = n.
Proof. induction n as [ | n IH]; cbn [zeros String.length]; [reflexivity | now rewrite IH]. Qed.

Lemma format_d_two_digits (q : Z) :
  0 <= q <= 60 -> (String.length (format_d q) <= 2)%nat.
Proof.
  intros H.
  assert (C : forallb (fun n => Nat.leb (String.length (format_d (Z.of_nat n))) 2) (seq 0 61)
              = true) by (vm_compute; reflexivity).
  rewrite forallb_forall in C.
  specialize (C (Z.to_nat q)). rewrite Z2Nat.id in C by lia.
  apply Nat.leb_le, C, in_seq. lia.
Qed.

(** The seconds of a lap time are six characters. *)
Lemma seconds_text_length (n : Z) :
  0 <= n <= 60000 -> String.length (zero_pad 6 "" (text3 n)) = 6%nat.
Proof.
  intros H. unfold zero_pad, text3.
  assert (Q : 0 <= n / 1000 <= 60).
  { split; [apply Z.div_pos; lia | apply Z.div_le_upper_bound; lia]. }
  pose proof (format_d_two_digits _ Q) as L.
  rewrite !length_append, length_zeros. cbn [String.length digits3]. lia.
Qed.

Lemma round_half_even_bounds (a d : Z) :
  0 <= a -> 0 < d -> a / d <= round_half_even a d <= a / d + 1.
Proof.
  intros Ha Hd. unfold round_half_even.
  destruct (2 * (a mod d) ?= d); [destruct (Z.even (a / d)) | | ]; lia.
Qed.

(** X11.  A positive lap time (an [int], or a finite float below [2^53])
    is always rendered as whole minutes that are not negative, a colon, and
    a seconds field of exactly six characters, between 00.000 and 60.000. *)
Theorem lap_text_shape (v : value) :
  lap_input v -> positive_lap v ->
  exists (M n : Z),
    _format_lap_time v = Ok (format_d M ++ ":" ++ zero_pad 6 "" (text3 n))
    /\ 0 <= M /\ 0 <= n <= 60000
    /\ String.length (zero_pad 6 "" (text3 n)) = 6%nat.
Proof.
  intros I P.
  assert (U : 0 < 2 ^ 1074) by (apply Z.pow_pos_nonneg; lia).
  destruct I as [ | z | f (Ff & Vf) B]; cbn [positive_lap] in P; [contradiction | | ].
  - exists (z / 60), (z mod 60 * 1000).
    pose proof (Z.mod_pos_bound z 60 ltac:(lia)) as MB.
    assert (N : 0 <= z mod 60 * 1000 <= 60000) by lia.
    repeat split; try lia.
    + now apply format_lap_time_int.
    + apply Z.div_pos; lia.
    + now apply seconds_text_length.
  - destruct f as [s | s | | s m e]; try discriminate Ff.
    + exfalso. unfold Qlt, F2Q in P. cbn [Qnum Qden] in P. lia.
    + destruct s.
      * exfalso. apply bounded_inv in Vf. destruct Vf as (He & _).
        unfold Qlt, F2Q, cond_Zopp in P.
        destruct e as [ | p | p]; cbn [Qnum Qden inject_Z] in P; lia.
      * pose proof (below_2_53 m e Vf B) as He.
        destruct (minutes_fit m e Vf He) as (Hk & _ & _ & _ & DM & R0).
        set (V := Zpos m * 2 ^ (e + 1074)) in *. set (W := 60 * 2 ^ 1074) in *.
        assert (EW : W = 60 * 2 ^ 1074) by reflexivity.
        assert (EV : V = Zpos m * 2 ^ (e + 1074)) by reflexivity.
        clearbody V W.
        pose proof (Z.mod_pos_bound V W ltac:(lia)) as MB.
        pose proof (round_half_even_bounds (V mod W * 1000) (2 ^ 1074) ltac:(lia) U) as RB.
        assert (Q : 0 <= V mod W * 1000 / 2 ^ 1074 < 60000).
        { split; [apply Z.div_pos; lia | ].
          apply Z.div_lt_upper_bound; lia. }
        exists (V / W), (round_half_even (V mod W * 1000) (2 ^ 1074)).
        assert (N : 0 <= round_half_even (V mod W * 1000) (2 ^ 1074) <= 60000) by lia.
        repeat split; try lia.
        -- rewrite EV, EW. now apply format_lap_time_float.
        -- now apply seconds_text_length.
Qed.

Lemma lap_text_shape_witness :
  exists (M n : Z),
    _format_lap_time (VNum (Float (F64.lit 35999999 4)))
    = Ok (format_d M ++ ":" ++ zero_pad 6 "" (text3 n))
    /\ 0 <= M /\ 0 <= n <= 60000
    /\ String.length (zero_pad 6 "" (text3 n)) = 6%nat.
Proof.
  apply (lap_text_shape (VNum (Float (F64.lit 35999999 4)))).
  - apply lap_float; [split | ]; vm_compute; reflexivity.
  - vm_compute. reflexivity.
Defined.


(** ** [acMain] *)

Lemma ui_bind_inv {A B : Type} (m : UI A) (k : A -> UI B) (st st' : state)
      (log log' : list ui_call) (r : result B) :
  ui_bind m k st log = (st', log', r) ->
  (exists e, m st log = (st', log', Raise e) /\ r = Raise e)
  \/ (exists st1 log1 a, m st log = (st1, log1, Ok a) /\ k a st1 log1 = (st', log', r)).
Proof.
  unfold ui_bind. destruct (m st log) as [[st1 log1] [a | e]]; intros H.
  - right. eauto.
  - left. injection H as <- <- <-. eauto.
Qed.

Lemma ui_do_returns (ui : ui_host) (c : ui_call) (st st' : state)
      (log log' : list ui_call) (z : Z) :
  ui_do ui c st log = (st', log', Ok z) ->
  st' = st /\ ui c = Ok z /\ log' = (log ++ [c])%list.
Proof.
  unfold ui_do. destruct (ui c); intros H; [ | discriminate H].
  injection H as <- <- <-; auto.
Qed.

Lemma ui_do_raises (ui : ui_host) (c : ui_call) (st st' : state)
      (log log' : list ui_call) (e : exn) :
  ui_do ui c st log = (st', log', Raise e) ->
  st' = st /\ ui c = Raise e /\ log' = log.
Proof.
  unfold ui_do. destruct (ui c); intros H; [discriminate H | ].
  injection H as <- <- <-; auto.
Qed.

(** Splits the first call of [acMain] that is left in [H]: it raised, or it
    returned and [H] is about the rest. *)
Ltac ui_step H :=
  let e := fresh "e" in
  let st1 := fresh "st" in
  let log1 := fresh "log" in
  let a := fresh "a" in
  let C := fresh "C" in
  let D := fresh "D" in
  apply ui_bind_inv in H;
  destruct H as [(e & C & H) | (st1 & log1 & a & C & H)];
  [ apply ui_do_raises in C; destruct C as (-> & D & ->)
  | apply ui_do_returns in C; destruct C as (-> & D & ->) ].

(** X12.  When [acMain] returns, it returns the name of the app, the window
    was built by exactly the seven calls of the source in their order (with
    the label text naming the UDP destination), the label global is the id
    that [addLabel] gave, and the timestamp is untouched. *)
Theorem acMain_builds_the_window
        (ui : ui_host) (ac_version : Z) (st st' : state) (log : list ui_call) (name : string) :
  Main.acMain ui ac_version st [] = (st', log, Ok name) ->
  name = "TelemetryRelay"
  /\ exists app label,
       ui (NewApp "TelemetryRelay") = Ok app
       /\ ui (AddLabel app "Sending telemetry to 127.0.0.1:41234") = Ok label
       /\ log = window_calls app label
       /\ st' = fst (acMain label st)
       /\ _last_send st' = _last_send st.
Proof.
  intros H. unfold Main.acMain in H.
  ui_step H; [discriminate H | ]. rename a into app.
  do 4 (ui_step H; [discriminate H | ]).
  ui_step H; [discriminate H | ]. rename a3 into label.
  apply ui_bind_inv in H.
  destruct H as [(e & C & H) | (st1 & log1 & u & C & H)]; [discriminate C | ].
  unfold set_label in C. injection C as <- <- _.
  ui_step H; [discriminate H | ].
  unfold ui_ret in H. injection H as <- <- <-.
  split; [reflexivity | ].
  exists app, label. repeat split; assumption.
Qed.

Lemma acMain_builds_the_window_witness :
  "TelemetryRelay" = "TelemetryRelay"
  /\ exists app label,
       working_ui (NewApp "TelemetryRelay") = Ok app
       /\ working_ui (AddLabel app "Sending telemetry to 127.0.0.1:41234") = Ok label
       /\ window_calls 3 7 = window_calls app label
       /\ {| _last_send := F64.zero; _label := Some 7 |} = fst (acMain label module_state)
       /\ _last_send {| _last_send := F64.zero; _label := Some 7 |} = _last_send module_state.
Proof.
  apply (acMain_builds_the_window working_ui 0 module_state
           {| _last_send := F64.zero; _label := Some 7 |} (window_calls 3 7) "TelemetryRelay").
  reflexivity.
Defined.

(** Closes one part of the description of a failing [acMain]. *)
Ltac window_case :=
  first [ reflexivity | assumption | lia | intros _; assumption | intros; lia ].

(** X13.  [acMain] has no handler: the exception of the first window call
    that fails escapes, after exactly the calls before it and with none
    after it.  The label global is assigned only when [addLabel] had
    returned, that is when the failing call is the last one, [setPosition];
    then the label stays in the global although [acMain] raised.  The
    timestamp is untouched. *)
Theorem acMain_failure_escapes
        (ui : ui_host) (ac_version : Z) (st st' : state) (log : list ui_call) (e : exn) :
  Main.acMain ui ac_version st [] = (st', log, Raise e) ->
  exists (app label : Z) (n : nat) (c : ui_call),
    (n < 7)%nat
    /\ log = firstn n (window_calls app label)
    /\ nth_error (window_calls app label) n = Some c
    /\ ui c = Raise e
    /\ ((1 <= n)%nat -> ui (NewApp "TelemetryRelay") = Ok app)
    /\ ((6 <= n)%nat -> ui (AddLabel app "Sending telemetry to 127.0.0.1:41234") = Ok label)
    /\ _last_send st' = _last_send st
    /\ _label st' = if Nat.eqb n 6 then Some label else _label st.
Proof.
  intros H. unfold Main.acMain in H.
  ui_step H.
  { injection H as <-. exists 0, 0, 0%nat, (NewApp "TelemetryRelay").
    repeat split; window_case. }
  rename a into app.
  ui_step H.
  { injection H as <-. exists app, 0, 1%nat, (SetTitle app "TelemetryRelay").
    repeat split; window_case. }
  ui_step H.
  { injection H as <-. exists app, 0, 2%nat, (SetSize app 320 80).
    repeat split; window_case. }
  ui_step H.
  { injection H as <-. exists app, 0, 3%nat, (DrawBorder app 0).
    repeat split; window_case. }
  ui_step H.
  { injection H as <-. exists app, 0, 4%nat, (SetIconPosition app 0 (-10000)).
    repeat split; window_case. }
  ui_step H.
  { injection H as <-. exists app, 0, 5%nat, (AddLabel app "Sending telemetry to 127.0.0.1:41234").
    repeat split; window_case. }
  rename a3 into label.
  apply ui_bind_inv in H.
  destruct H as [(e' & C & H) | (st1 & log1 & u & C & H)]; [discriminate C | ].
  unfold set_label in C. injection C as <- <- _.
  ui_step H.
  { injection H as <-. exists app, label, 6%nat, (SetPosition label 12 32).
    repeat split; window_case. }
  discriminate H.
Qed.

Lemma acMain_failure_escapes_witness :
  exists (app label : Z) (n : nat) (c : ui_call),
    (n < 7)%nat
    /\ firstn 6 (window_calls 3 7) = firstn n (window_calls app label)
    /\ nth_error (window_calls app label) n = Some c
    /\ no_position_ui c = Raise no_control
    /\ ((1 <= n)%nat -> no_position_ui (NewApp "TelemetryRelay") = Ok app)
    /\ ((6 <= n)%nat ->
        no_position_ui (AddLabel app "Sending telemetry to 127.0.0.1:41234") = Ok label)
    /\ _last_send {| _last_send := F64.zero; _label := Some 7 |} = _last_send module_state
    /\ _label {| _last_send := F64.zero; _label := Some 7 |} =
       if Nat.eqb n 6 then Some label else _label module_state.
Proof.
  apply (acMain_failure_escapes no_position_ui 0 module_state
           {| _last_send := F64.zero; _label := Some 7 |}
           (firstn 6 (window_calls 3 7)) no_control).
  reflexivity.
Defined.

(** X14.  The window and the handler together.  After a complete [acMain]
    on the freshly loaded module, the first tick whose clock reads at least
    one interval passes the gate (the timestamp is still 0.0); when its
    publish fails, the error text goes to the label that [addLabel] gave to
    [acMain], unless that id is 0, which [if _label:] takes for no label:
    then the error is dropped in silence. *)
Theorem error_goes_to_the_window_label
        (ui : ui_host) (ac_version : Z) (st' : state) (log : list ui_call) (name : string)
        (h : host) (e : exn) :
  Main.acMain ui ac_version module_state [] = (st', log, Ok name) ->
  F64.leb SEND_INTERVAL (time_time h) = true ->
  publish h = Raise e ->
  (forall label, setText h label ("Telemetry error: " ++ exn_str e) = Ok tt) ->
  exists app label,
    ui (NewApp "TelemetryRelay") = Ok app
    /\ ui (AddLabel app "Sending telemetry to 127.0.0.1:41234") = Ok label
    /\ acUpdate h st' =
         {| globals := {| _last_send := time_time h; _label := Some label |};
            trace := if label =? 0 then []
                     else [SetText label ("Telemetry error: " ++ exn_str e)];
            returned := Ok tt |}.
Proof.
  intros H L P T. unfold Main.acMain in H.
  ui_step H; [discriminate H | ]. rename a into app.
  do 4 (ui_step H; [discriminate H | ]).
  ui_step H; [discriminate H | ]. rename a3 into label.
  apply ui_bind_inv in H.
  destruct H as [(e' & C & H) | (st1 & log1 & u & C & H)]; [discriminate C | ].
  unfold set_label in C. injection C as <- <- _.
  ui_step H; [discriminate H | ].
  unfold ui_ret in H. injection H as <- <- <-.
  exists app, label. split; [assumption | ]. split; [assumption | ].
  apply leb_not_ltb in L.
  unfold acUpdate, module_state. cbn [_last_send _label].
  rewrite sub_zero_r, L, P. unfold label_set.
  destruct (label =? 0); [reflexivity | ].
  rewrite T. reflexivity.
Qed.

Lemma error_goes_to_the_window_label_witness :
  exists app label,
    working_ui (NewApp "TelemetryRelay") = Ok app
    /\ working_ui (AddLabel app "Sending telemetry to 127.0.0.1:41234") = Ok label
    /\ acUpdate (unreachable_host (F64.lit 15 1)) {| _last_send := F64.zero; _label := Some 7 |} =
         {| globals := {| _last_send := F64.lit 15 1; _label := Some label |};
            trace := if label =? 0 then []
                     else [SetText label ("Telemetry error: " ++ exn_str socket_down)];
            returned := Ok tt |}.
Proof.
  apply (error_goes_to_the_window_label working_ui 0
           {| _last_send := F64.zero; _label := Some 7 |} (window_calls 3 7) "TelemetryRelay"
           (unreachable_host (F64.lit 15 1)) socket_down).
  - reflexivity.
  - vm_compute. reflexivity.
  - vm_compute. reflexivity.
  - intros label. reflexivity.
Defined.

(** * The pedals *)

(** ** Rounding of values that are not doubles *)

(** A property that counts the applications of [f] holds after [iter_pos]. *)
Lemma iter_pos_count {A : Type} (f : A -> A) (P : Z -> A -> Prop) :
  (forall k x, 0 <= k -> P k x -> P (k + 1) (f x)) ->
  forall (p : positive) (k : Z) (x : A), 0 <= k -> P k x -> P (k + Zpos p) (iter_pos f p x).
Proof.
  intros Hf. induction p as [p IH | p IH | ]; intros k x Hk Hx; cbn [iter_pos].
  - replace (k + Zpos p~1) with (k + 1 + Zpos p + Zpos p) by lia.
    apply IH; [lia | ]. apply IH; [lia | ]. now apply Hf.
  - replace (k + Zpos p~0) with (k + Zpos p + Zpos p) by lia.
    apply IH; [lia | ]. now apply IH.
  - now apply Hf.
Qed.

(** One shift to the right: the mantissa is halved, the bit that leaves is
    the round bit, and the sticky bit collects the earlier ones. *)
Lemma shr_1_spec (m : Z) (r s : bool) :
  0 <= m ->
  shr_1 {| shr_m := m; shr_r := r; shr_s := s |}
  = {| shr_m := m / 2; shr_r := Z.odd m; shr_s := orb r s |}.
Proof.
  intros H. destruct m as [ | [p | p | ] | p]; try lia; cbn [shr_1].
  - reflexivity.
  - f_equal. apply (Z.div_unique _ _ _ 1); lia.
  - f_equal. apply (Z.div_unique _ _ _ 0); lia.
  - reflexivity.
Qed.

(** [p] shifts give the quotient by [2^p], and no round or sticky bit when
    the division is exact. *)
Lemma iter_shr_1_spec (M : Z) (p : positive) :
  0 <= M ->
  shr_m (iter_pos shr_1 p {| shr_m := M; shr_r := false; shr_s := false |}) = M / 2 ^ Zpos p
  /\ (M mod 2 ^ Zpos p = 0 ->
      loc_of_shr_record (iter_pos shr_1 p {| shr_m := M; shr_r := false; shr_s := false |})
      = loc_Exact).
Proof.
  intros HM.
  assert (Step : forall k x, 0 <= k ->
            (shr_m x = M / 2 ^ k /\ (M mod 2 ^ k = 0 -> shr_r x = false /\ shr_s x = false)) ->
            shr_m (shr_1 x) = M / 2 ^ (k + 1)
            /\ (M mod 2 ^ (k + 1) = 0 -> shr_r (shr_1 x) = false /\ shr_s (shr_1 x) = false)).
  { intros k [m r s] Hk (Em & Ez). cbn [shr_m shr_r shr_s] in Em, Ez.
    assert (P : 0 < 2 ^ k) by (apply Z.pow_pos_nonneg; lia).
    assert (Pm : 0 <= m) by (rewrite Em; apply Z.div_pos; lia).
    rewrite (shr_1_spec m r s Pm). cbn [shr_m shr_r shr_s].
    rewrite Z.pow_add_r, Z.pow_1_r by lia.
    split.
    - rewrite Em, Z.div_div by lia. reflexivity.
    - intros Z0.
      assert (EM : M = 2 * (M / (2 ^ k * 2)) * 2 ^ k).
      { pose proof (Z.div_mod M (2 ^ k * 2) ltac:(lia)) as DM. rewrite Z0 in DM. lia. }
      assert (Zk : M mod 2 ^ k = 0) by (rewrite EM; apply Z.mod_mul; lia).
      destruct (Ez Zk) as (-> & ->).
      split; [ | reflexivity].
      rewrite Em, EM, Z.div_mul by lia.
      rewrite Z.odd_mul. reflexivity. }
  destruct (iter_pos_count shr_1
              (fun k x => shr_m x = M / 2 ^ k
                          /\ (M mod 2 ^ k = 0 -> shr_r x = false /\ shr_s x = false))
              Step p 0 {| shr_m := M; shr_r := false; shr_s := false |}) as (Hm & Hl).
  - lia.
  - cbn [shr_m shr_r shr_s]. rewrite Z.pow_0_r, Z.div_1_r. split; [reflexivity | now split].
  - rewrite Z.add_0_l in Hm, Hl. split; [exact Hm | ].
    intros Z0. destruct (Hl Z0) as (Er & Es).
    destruct (iter_pos shr_1 p _) as [m r s]. cbn [shr_r shr_s] in Er, Es. subst. reflexivity.
Qed.

Lemma shr_no_shift (x : shr_record) (e n : Z) : n <= 0 -> shr x e n = (x, e).
Proof. intros H. destruct n; [reflexivity | lia | reflexivity]. Qed.

(** Shifting an exact mantissa to a higher exponent. *)
Lemma shr_spec (m e n : Z) :
  0 <= m -> 0 <= n ->
  exists x, shr {| shr_m := m; shr_r := false; shr_s := false |} e n = (x, e + n)
            /\ shr_m x = m / 2 ^ n
            /\ (m mod 2 ^ n = 0 -> loc_of_shr_record x = loc_Exact).
Proof.
  intros Hm Hn. destruct n as [ | p | p]; [ | | lia].
  - exists {| shr_m := m; shr_r := false; shr_s := false |}.
    rewrite Z.add_0_r, Z.pow_0_r, Z.div_1_r. repeat split.
  - exists (iter_pos shr_1 p {| shr_m := m; shr_r := false; shr_s := false |}).
    destruct (iter_shr_1_spec m p Hm) as (A & B). repeat split; assumption.
Qed.

(** Rounding to nearest keeps the mantissa or adds one, and keeps it when
    nothing was lost. *)
Lemma round_nearest_even_bounds (m : Z) (l : location) :
  m <= round_nearest_even m l <= m + 1.
Proof.
  destruct l as [ | [ | | ]]; cbn [round_nearest_even]; try lia.
  destruct (Z.even m); lia.
Qed.

Lemma digits2_pos_le_53 (q : positive) : Zpos q < 2 ^ 53 -> Zpos (digits2_pos q) <= 53.
Proof.
  intros H. pose proof (digits2_pos_bounds q) as [L _].
  assert (2 ^ (Zpos (digits2_pos q) - 1) < 2 ^ 53) by lia.
  apply Z.pow_lt_mono_r_iff in H0; lia.
Qed.

(** The result of rounding a positive integer of at least 53 bits at the
    exponent [E], when the value is below [2^1023]: with [fe] the exponent
    of the format for this value, it is [m1 * 2^fe], where [m1] is the
    quotient of the integer by [2^(fe - E)] or one more, and the quotient
    itself when the division is exact. *)
Lemma binary_round_aux_shape (s : bool) (M : positive) (E : Z) :
  2 ^ 52 <= Zpos M -> Zpos (digits2_pos M) + E <= 1023 ->
  let fe := fexp F64.prec F64.emax (Zpos (digits2_pos M) + E) in
  let R := binary_round_aux F64.prec F64.emax s (Zpos M) E loc_Exact in
  E <= fe /\ -1074 <= fe
  /\ fe = Z.max (Zpos (digits2_pos M) + E - 53) (-1074)
  /\ exists m1 : Z,
       Zpos M / 2 ^ (fe - E) <= m1 <= Zpos M / 2 ^ (fe - E) + 1
       /\ (Zpos M mod 2 ^ (fe - E) = 0 -> m1 = Zpos M / 2 ^ (fe - E))
       /\ ((m1 = 0 /\ R = S754_zero s)
           \/ (exists q, m1 = Zpos q /\ Zpos q < 2 ^ 53 /\ R = S754_finite s q fe)
           \/ (m1 = 2 ^ 53 /\ R = S754_finite s 4503599627370496 (fe + 1))).
Proof.
  intros HM HD fe R.
  pose proof (digits2_pos_bounds M) as [L U].
  assert (Efe : fe = Z.max (Zpos (digits2_pos M) + E - 53) (-1074)) by reflexivity.
  assert (D53 : 53 <= Zpos (digits2_pos M)).
  { destruct (Z_lt_le_dec (Zpos (digits2_pos M)) 53) as [A | A]; [ | exact A].
    assert (2 ^ Zpos (digits2_pos M) <= 2 ^ 52) by (apply Z.pow_le_mono_r; lia). lia. }
  split; [lia | ]. split; [lia | ]. split; [exact Efe | ].
  assert (Hsh : 0 <= fe - E) by lia.
  destruct (shr_spec (Zpos M) E (fe - E) ltac:(lia) Hsh) as (x & Hs & Hm & Hl).
  assert (P : 0 < 2 ^ (fe - E)) by (apply Z.pow_pos_nonneg; lia).
  assert (B0 : 0 <= Zpos M / 2 ^ (fe - E)) by (apply Z.div_pos; lia).
  assert (B1 : Zpos M / 2 ^ (fe - E) < 2 ^ 53).
  { apply Z.div_lt_upper_bound; [lia | ].
    assert (2 ^ Zpos (digits2_pos M) <= 2 ^ (fe - E + 53)) by (apply Z.pow_le_mono_r; lia).
    rewrite Z.pow_add_r in H by lia. lia. }
  exists (round_nearest_even (shr_m x) (loc_of_shr_record x)).
  assert (Rb : Zpos M / 2 ^ (fe - E)
               <= round_nearest_even (shr_m x) (loc_of_shr_record x)
               <= Zpos M / 2 ^ (fe - E) + 1)
    by (rewrite <- Hm; apply round_nearest_even_bounds).
  assert (Rx : Zpos M mod 2 ^ (fe - E) = 0 ->
               round_nearest_even (shr_m x) (loc_of_shr_record x) = Zpos M / 2 ^ (fe - E)).
  { intros Z0. rewrite (Hl Z0), Hm. reflexivity. }
  split; [exact Rb | ]. split; [exact Rx | ].
  unfold R, binary_round_aux, shr_fexp. cbn [Zdigits2 shr_record_of_loc].
  fold fe. rewrite Hs. replace (E + (fe - E)) with fe by lia.
  set (m1 := round_nearest_even (shr_m x) (loc_of_shr_record x)) in *.
  clearbody m1.
  destruct m1 as [ | q | q]; [ | | lia].
  - left. split; [reflexivity | ].
    cbn [Zdigits2 shr_record_of_loc].
    rewrite shr_no_shift by (unfold fexp, emin, F64.prec, F64.emax; lia).
    reflexivity.
  - right.
    destruct (Z_lt_le_dec (Zpos q) (2 ^ 53)) as [Lt | Ge].
    + left. exists q. split; [reflexivity | ]. split; [exact Lt | ].
      pose proof (digits2_pos_le_53 q Lt) as Dq.
      cbn [Zdigits2 shr_record_of_loc].
      rewrite shr_no_shift by (unfold fexp, emin, F64.prec, F64.emax; lia).
      cbn [shr_m]. change (F64.emax - F64.prec) with 971.
      assert (Lf : (fe <=? 971) = true) by (apply Z.leb_le; lia).
      rewrite Lf. reflexivity.
    + right. assert (Eq : Zpos q = 2 ^ 53) by lia.
      split; [exact Eq | ].
      assert (q = 9007199254740992%positive) as -> by (apply Pos2Z.inj; rewrite Eq; reflexivity).
      cbn [Zdigits2 shr_record_of_loc].
      change (Zpos (digits2_pos 9007199254740992)) with 54.
      assert (N2 : fexp F64.prec F64.emax (54 + fe) - fe = 1)
        by (unfold fexp, emin, F64.prec, F64.emax; lia).
      rewrite N2. cbn [shr iter_pos shr_1 shr_m].
      change (F64.emax - F64.prec) with 971.
      assert (Lf : (fe + 1 <=? 971) = true) by (apply Z.leb_le; lia).
      rewrite Lf. reflexivity.
Qed.


(** ** The product by 100 *)

Lemma of_Z_100 : F64.of_Z 100 = S754_finite false 7036874417766400 (-46).
Proof. vm_compute. reflexivity. Qed.

(** The integer part of a double at an exponent that is not positive lies
    between two integers that enclose its value. *)
Lemma trunc_between (s : bool) (q : positive) (e kf kc : Z) :
  e <= 0 ->
  kf * 2 ^ (- e) <= Zpos q <= kc * 2 ^ (- e) ->
  exists a, F64.trunc (S754_finite s q e) = Some (cond_Zopp s a) /\ kf <= a <= kc.
Proof.
  intros He (Lo & Hi). unfold F64.trunc.
  destruct e as [ | p | p]; [ | lia | ].
  - exists (Zpos q * 2 ^ 0). split; [reflexivity | ].
    change (- 0) with 0 in *. rewrite Z.pow_0_r in *. lia.
  - exists (Zpos q / 2 ^ Zpos p). split; [reflexivity | ].
    change (- Zneg p) with (Zpos p) in *.
    assert (P : 0 < 2 ^ Zpos p) by (apply Z.pow_pos_nonneg; lia).
    split.
    + apply Z.div_le_lower_bound; lia.
    + apply Z.div_le_upper_bound; lia.
Qed.

(** The integer part of the double product of a double by 100.0 lies
    between the floor and the ceiling of the exact product, when that is
    below [2^53] in size. *)
Lemma mul_100_between (s : bool) (m p : positive) :
  100 * Zpos m < 2 ^ 53 * 2 ^ Zpos p ->
  exists a,
    F64.trunc (F64.mul (S754_finite s m (Zneg p)) (F64.of_Z 100)) = Some (cond_Zopp s a)
    /\ 100 * Zpos m / 2 ^ Zpos p <= a <= - (- (100 * Zpos m) / 2 ^ Zpos p).
Proof.
  intros Hb.
  rewrite of_Z_100. unfold F64.mul, SFmul. rewrite xorb_false_r.
  set (X := 100 * Zpos m) in *.
  set (M := (m * 7036874417766400)%positive).
  set (E := Zneg p + -46).
  assert (PX : 0 < X) by (unfold X; lia).
  assert (P2 : 0 < 2 ^ Zpos p) by (apply Z.pow_pos_nonneg; lia).
  assert (EM : Zpos M = X * 2 ^ 46).
  { unfold M, X. rewrite Pos2Z.inj_mul. change (2 ^ 46) with 70368744177664. lia. }
  assert (HM : 2 ^ 52 <= Zpos M).
  { rewrite EM. change (2 ^ 52) with 4503599627370496.
    change (2 ^ 46) with 70368744177664. lia. }
  pose proof (digits2_pos_bounds M) as [L U].
  assert (HD : Zpos (digits2_pos M) + E <= 53).
  { assert (B : 2 ^ (Zpos (digits2_pos M) - 1) < 2 ^ (99 + Zpos p)).
    { rewrite (Z.pow_add_r 2 99 (Zpos p)) by lia.
      change (2 ^ 99) with (2 ^ 53 * 2 ^ 46).
      assert (0 < 2 ^ 46) by reflexivity. rewrite EM in L. nia. }
    apply Z.pow_lt_mono_r_iff in B; unfold E; lia. }
  destruct (binary_round_aux_shape s M E HM ltac:(lia))
    as (Le & Lf & Efe & m1 & Rb & Rx & Cases).
  set (fe := fexp F64.prec F64.emax (Zpos (digits2_pos M) + E)) in *.
  set (R := binary_round_aux F64.prec F64.emax s (Zpos M) E loc_Exact) in *.
  clearbody fe R.
  assert (F0 : fe <= 0) by lia.
  set (kf := X / 2 ^ Zpos p). set (kc := - (- X / 2 ^ Zpos p)).
  assert (Kf : kf * 2 ^ Zpos p <= X).
  { unfold kf. pose proof (Z.mul_div_le X (2 ^ Zpos p) P2). lia. }
  assert (Kc : X <= kc * 2 ^ Zpos p).
  { unfold kc. pose proof (Z.mul_div_le (- X) (2 ^ Zpos p) P2). lia. }
  clearbody kf kc.
  (* the unit of the result and the unit of the integers *)
  assert (Psh : 0 < 2 ^ (fe - E)) by (apply Z.pow_pos_nonneg; lia).
  assert (Pt : 0 < 2 ^ (- fe)) by (apply Z.pow_pos_nonneg; lia).
  assert (Split : 2 ^ Zpos p * 2 ^ 46 = 2 ^ (fe - E) * 2 ^ (- fe)).
  { rewrite <- !Z.pow_add_r by lia. f_equal. unfold E. lia. }
  assert (Lo : kf * 2 ^ (- fe) <= m1).
  { apply Z.le_trans with (Zpos M / 2 ^ (fe - E)); [ | lia].
    apply Z.div_le_lower_bound; [lia | ].
    rewrite EM. assert (0 < 2 ^ 46) by reflexivity. nia. }
  assert (Hi : m1 <= kc * 2 ^ (- fe)).
  { assert (Up : Zpos M <= kc * 2 ^ (- fe) * 2 ^ (fe - E)).
    { rewrite EM. assert (0 < 2 ^ 46) by reflexivity. nia. }
    pose proof (Z.div_mod (Zpos M) (2 ^ (fe - E)) ltac:(lia)) as DM.
    pose proof (Z.mod_pos_bound (Zpos M) (2 ^ (fe - E)) Psh) as MB.
    destruct (Z.eq_dec (Zpos M mod 2 ^ (fe - E)) 0) as [Z0 | NZ].
    - rewrite (Rx Z0). apply Z.div_le_upper_bound; lia.
    - assert (Zpos M / 2 ^ (fe - E) < kc * 2 ^ (- fe)) by nia. lia. }
  destruct Cases as [(Z1 & ->) | [(q & Eq & Lq & ->) | (E53 & ->)]].
  - exists 0. split; [destruct s; reflexivity | ]. subst m1. nia.
  - subst m1. apply trunc_between; [exact F0 | lia].
  - subst m1.
    destruct (Z.eq_dec fe 0) as [-> | NZ].
    + exists (4503599627370496 * 2 ^ 1). split; [reflexivity | ].
      change (- 0) with 0 in *. rewrite Z.pow_0_r in *.
      change (4503599627370496 * 2 ^ 1) with (2 ^ 53). lia.
    + apply trunc_between; [lia | ].
      assert (S2 : 2 ^ (- fe) = 2 * 2 ^ (- (fe + 1))).
      { replace (- fe) with (1 + - (fe + 1)) by lia.
        rewrite Z.pow_add_r by lia. reflexivity. }
      rewrite S2 in Lo, Hi. change (2 ^ 53) with (2 * 4503599627370496) in Lo, Hi.
      lia.
Qed.


(** ** Percentages *)

Lemma Qfloor_100 (a : Z) (d : positive) : Qfloor (100 * (a # d)) = 100 * a / Zpos d.
Proof. reflexivity. Qed.

Lemma Qceiling_100 (a : Z) (d : positive) :
  Qceiling (100 * (a # d)) = - (- (100 * a) / Zpos d).
Proof. reflexivity. Qed.

(** [int((v or 0) * 100)] for a double that is not zero. *)
Lemma percent_float (s : bool) (m : positive) (e : Z) :
  percent (VNum (Float (S754_finite s m e)))
  = Py.int (VNum (Float (F64.mul (S754_finite s m e) (F64.of_Z 100)))).
Proof. reflexivity. Qed.

(** A double in normal form at an exponent that is not negative is at
    least [2^52] in size. *)
Lemma bounded_nonneg_exponent (m : positive) (e : Z) :
  bounded F64.prec F64.emax m e = true -> 0 <= e -> 2 ^ 52 <= Zpos m * 2 ^ e.
Proof.
  intros Bd He. apply bounded_inv in Bd. destruct Bd as (_ & _ & [C | C]); [lia | ].
  assert (1 <= 2 ^ e) by (apply (Z.pow_le_mono_r 2 0 e); lia). nia.
Qed.

(** C8.  The throttle and brake fields are integer percentages of what the
    accessor gave, with an absent value counting as 0.  For [None], an [int]
    or a finite double whose hundredfold is below [2^53] in size, the
    derivation never raises, and the field lies between the floor and the
    ceiling of the exact hundredfold: it is the hundredfold when that is a
    whole number, and otherwise its integer part or, when the double product
    rounds up to the next whole number, that number.  For a value from 0 to
    1 the field is from 0 to 100.  In particular [None] gives 0, 0.5 gives 50
    and 1.0 gives 100. *)
Theorem pedals_are_percentages (v : value) (q : Q) :
  pedal_input v q ->
  (- inject_Z (2 ^ 53) < 100 * q /\ 100 * q < inject_Z (2 ^ 53))%Q ->
  exists n : Z,
    percent v = Ok n
    /\ Qfloor (100 * q) <= n <= Qceiling (100 * q)
    /\ ((0 <= q /\ q <= 1)%Q -> 0 <= n <= 100)
    /\ (forall (h : host) (p : Payload.t),
          read_payload h = Ok p ->
          (getCarState h Gas = Ok v -> Payload.throttle p = n)
          /\ (getCarState h Brake = Ok v -> Payload.brake p = n))
    /\ (v = VNone -> n = 0)
    /\ (v = VNum (Float (F64.lit 5 1)) -> n = 50)
    /\ (v = VNum (Float (F64.lit 10 1)) -> n = 100).
Proof.
  intros I (Blo & Bhi).
  assert (Core : exists n, percent v = Ok n /\ Qfloor (100 * q) <= n <= Qceiling (100 * q)).
  { destruct I as [ | z | f (Ff & Vf)].
    - exists 0. split; [reflexivity | ]. split; discriminate.
    - exists (z * 100). split.
      + unfold percent, Py.or_, Py.truthy.
        destruct (z =? 0) eqn:Z0; cbn [negb Py.mul_int bind Py.int]; [ | reflexivity].
        apply Z.eqb_eq in Z0. now subst z.
      + unfold inject_Z. rewrite Qfloor_100, Qceiling_100.
        rewrite !Z.div_1_r. lia.
    - destruct f as [s | s | | s m e]; try discriminate Ff.
      + exists 0. split; [reflexivity | ]. split; discriminate.
      + change (F64.valid (S754_finite s m e)) with (bounded F64.prec F64.emax m e) in Vf.
        destruct e as [ | p | p].
        * exfalso. pose proof (bounded_nonneg_exponent m 0 Vf ltac:(lia)) as B.
          unfold F2Q in Blo, Bhi. rewrite Z.pow_0_r, Z.mul_1_r in *.
          unfold inject_Z in Blo, Bhi. unfold Qlt in Blo, Bhi.
          cbn [Qnum Qden Qmult Qopp] in Blo, Bhi.
          change (2 ^ 52) with 4503599627370496 in B.
          change (2 ^ 53) with 9007199254740992 in Blo, Bhi.
          destruct s; cbn [cond_Zopp] in Blo, Bhi; lia.
        * exfalso. pose proof (bounded_nonneg_exponent m (Zpos p) Vf ltac:(lia)) as B.
          unfold F2Q in Blo, Bhi.
          unfold inject_Z in Blo, Bhi. unfold Qlt in Blo, Bhi.
          cbn [Qnum Qden Qmult Qopp] in Blo, Bhi.
          change (2 ^ 52) with 4503599627370496 in B.
          change (2 ^ 53) with 9007199254740992 in Blo, Bhi.
          set (w := 2 ^ Zpos p) in *. clearbody w.
          destruct s; cbn [cond_Zopp] in Blo, Bhi; lia.
        * assert (D : Zpos (2 ^ p) = 2 ^ Zpos p) by apply Pos2Z.inj_pow.
          assert (Hb : 100 * Zpos m < 2 ^ 53 * 2 ^ Zpos p).
          { unfold F2Q in Blo, Bhi. unfold inject_Z, Qlt in Blo, Bhi.
            cbn [Qnum Qden Qmult Qopp Pos.mul] in Blo, Bhi.
            rewrite D in Blo, Bhi.
            set (w := 2 ^ Zpos p) in *. clearbody w.
            change (2 ^ 53) with 9007199254740992 in *.
            destruct s; cbn [cond_Zopp] in Blo, Bhi; lia. }
          destruct (mul_100_between s m p Hb) as (a & Ta & La & Ua).
          exists (cond_Zopp s a). split.
          -- rewrite percent_float. unfold Py.int. rewrite Ta. reflexivity.
          -- unfold F2Q. rewrite Qfloor_100, Qceiling_100, D.
             set (w := 2 ^ Zpos p) in *. clearbody w.
             destruct s; cbn [cond_Zopp].
             ++ replace (100 * - Zpos m) with (- (100 * Zpos m)) by lia.
                rewrite Z.opp_involutive. lia.
             ++ lia. }
  destruct Core as (n & Pn & Bn).
  exists n. split; [exact Pn | ]. split; [exact Bn | ]. split; [ | split; [ | split; [ | split]]].
  - intros (Q0 & Q1).
    assert (A0 : (0 <= 100 * q)%Q) by (apply Qmult_le_0_compat; [discriminate | exact Q0]).
    assert (A1 : (100 * q <= 100)%Q).
    { setoid_replace (100 : Q) with (100 * 1)%Q at 2 by reflexivity.
      apply Qmult_le_l; [reflexivity | exact Q1]. }
    pose proof (Qfloor_resp_le _ _ A0) as F0.
    pose proof (Qceiling_resp_le _ _ A1) as T1.
    change (Qfloor 0) with 0 in F0. change (Qceiling 100) with 100 in T1. lia.
  - intros h p R.
    destruct (read_payload_inv h p R)
      as (speed & throttle & brake & lap & last_lap & pos
          & (_ & R2 & R3 & _) & _ & _ & (_ & _ & _ & _ & Th & Br)).
    split; intros G; rewrite G in *.
    + injection R2 as <-. congruence.
    + injection R3 as <-. congruence.
  - intros ->. change (percent VNone) with (@Ok Z 0) in Pn. congruence.
  - intros ->.
    assert (E : percent (VNum (Float (F64.lit 5 1))) = Ok 50) by (vm_compute; reflexivity).
    congruence.
  - intros ->.
    assert (E : percent (VNum (Float (F64.lit 10 1))) = Ok 100) by (vm_compute; reflexivity).
    congruence.
Qed.

Lemma pedals_are_percentages_witness :
  exists n : Z,
    percent (VNum (Float (F64.lit 3 1))) = Ok n
    /\ Qfloor (100 * F2Q (F64.lit 3 1)) <= n <= Qceiling (100 * F2Q (F64.lit 3 1))
    /\ ((0 <= F2Q (F64.lit 3 1) /\ F2Q (F64.lit 3 1) <= 1)%Q -> 0 <= n <= 100)
    /\ (forall (h : host) (p : Payload.t),
          read_payload h = Ok p ->
          (getCarState h Gas = Ok (VNum (Float (F64.lit 3 1))) -> Payload.throttle p = n)
          /\ (getCarState h Brake = Ok (VNum (Float (F64.lit 3 1))) -> Payload.brake p = n))
    /\ (VNum (Float (F64.lit 3 1)) = VNone -> n = 0)
    /\ (VNum (Float (F64.lit 3 1)) = VNum (Float (F64.lit 5 1)) -> n = 50)
    /\ (VNum (Float (F64.lit 3 1)) = VNum (Float (F64.lit 10 1)) -> n = 100).
Proof.
  apply (pedals_are_percentages (VNum (Float (F64.lit 3 1))) (F2Q (F64.lit 3 1))).
  - apply pedal_float. split; vm_compute; reflexivity.
  - split; vm_compute; reflexivity.
Defined.
